(** * aftltool: AFTL inclusion proofs for Android Verified Boot images

    A shallow embedding of [aftltool.py] and the properties of its Merkle
    primitives, codecs, verifier and orchestrator.

    Python values are modelled as follows: [int] is [Z] (unbounded),
    [bytes] is [list byte], [str] is [string], an object that may be [None]
    is an [option], a raised exception is the [Raise] case of [result]. *)

From Stdlib Require Import ZArith List String Ascii Bool Lia DecimalString.
From Stdlib.Strings Require Import Byte.
Import ListNotations.
Local Open Scope Z_scope.

Definition bytes := list byte.

(** ** Python runtime: exceptions, truthiness, slices *)

Module Py.

(** The exceptions that the modelled code can raise.  [AftlError] is the
    application error of the source; the others are built-in. *)
Inductive exn : Type :=
| AftlError (message : string)
| StructError
| UnicodeError
| KeyError (key : string)
| ValueError (text : string)
| TypeError
| AttributeError
| AvbError (message : string)      (* [avbtool.AvbError] *)
| ImportError (text : string)
| RpcError (text : string)         (* [grpc.RpcError] *)
| ArgumentTypeError (message : string)   (* [argparse.ArgumentTypeError] *)
| ExternalError (what : string).   (* anything else from a collaborator *)

Inductive result (A : Type) : Type :=
| Ok (a : A)
| Raise (e : exn).
Arguments Ok {A} a.
Arguments Raise {A} e.

Definition bind {A B} (m : result A) (k : A -> result B) : result B :=
  match m with
  | Ok a => k a
  | Raise e => Raise e
  end.

(** [str(n)] for an [int]. *)
Definition str_of_int (n : Z) : string := NilZero.string_of_int (Z.to_int n).

(** [l[lo:hi]] for [0 <= lo] and [0 <= hi]: out-of-range bounds are
    clipped, never an error. *)
Definition slice {A} (lo hi : Z) (l : list A) : list A :=
  firstn (Z.to_nat (hi - lo)) (skipn (Z.to_nat lo) l).

(** [l[lo:]] *)
Definition slice_from {A} (lo : Z) (l : list A) : list A :=
  skipn (Z.to_nat lo) l.

(** [l[:hi]] *)
Definition slice_to {A} (hi : Z) (l : list A) : list A :=
  firstn (Z.to_nat hi) l.

(** [len(l)] *)
Definition len {A} (l : list A) : Z := Z.of_nat (List.length l).

(** [n.bit_length()] *)
Definition bit_length (n : Z) : Z :=
  if Z.abs n =? 0 then 0 else Z.log2 (Z.abs n) + 1.

(** [a == b] on [bytes]. *)
Fixpoint bytes_eqb (a b : bytes) : bool :=
  match a, b with
  | [], [] => true
  | x :: a', y :: b' => Byte.eqb x y && bytes_eqb a' b'
  | _, _ => false
  end.

(** Truthiness of an optional sequence: [None] and the empty sequence are
    falsy. *)
Definition truthy {A} (x : option (list A)) : bool :=
  match x with
  | Some (_ :: _) => true
  | _ => false
  end.

Definition truthy_str (x : option string) : bool :=
  match x with
  | Some (String _ _) => true
  | _ => false
  end.

(** The [ValueError] of a tuple assignment whose right-hand side does not
    have as many values as there are targets.  [struct.unpack] returns one
    value for each item of its format, and the formats are constants or
    built in place, so the branches that raise it are never taken. *)
Definition shape_mismatch : exn := ValueError "values to unpack".

(** [repr(s)] for a [str] without quote, backslash or non-printable
    character: the string between single quotes.  It is what [str(e)] shows
    for a [KeyError] with the key [s]. *)
Definition repr_str (s : string) : string := ("'" ++ s ++ "'")%string.

End Py.
Import Py.

Declare Scope py_scope.
Notation "x <- m ;; k" := (Py.bind m (fun x => k))
  (at level 61, m at next level, right associativity) : py_scope.
Local Open Scope py_scope.

(** ** The [struct] module, for the formats the tool uses

    Every integer format is packed in network order ([!]); the formats made
    of [s] items only have no alignment in native mode either. *)

Module Struct.

Inductive item : Type :=
| B            (* unsigned char, 1 byte *)
| H            (* unsigned short, 2 bytes *)
| L            (* unsigned long, 4 bytes *)
| Q            (* unsigned long long, 8 bytes *)
| s (n : Z).   (* char[n] *)

Inductive val : Type :=
| VInt (z : Z)
| VBytes (b : bytes).

Definition width (i : item) : nat :=
  match i with
  | B => 1 | H => 2 | L => 4 | Q => 8
  | s n => Z.to_nat n
  end%nat.

Definition calcsize (fmt : list item) : nat :=
  fold_right (fun i acc => (width i + acc)%nat) 0%nat fmt.

Definition byte_of_Z (z : Z) : byte :=
  match Byte.of_N (Z.to_N z) with
  | Some b => b
  | None => x00
  end.

Definition Z_of_byte (b : byte) : Z := Z.of_N (Byte.to_N b).

(** Big-endian value of a byte string. *)
Definition be_value (b : bytes) : Z :=
  fold_left (fun acc x => acc * 256 + Z_of_byte x) b 0.

(** The [w] big-endian bytes of [n]. *)
Fixpoint be_bytes (w : nat) (n : Z) : bytes :=
  match w with
  | O => []
  | S w' => be_bytes w' (n / 256) ++ [byte_of_Z (n mod 256)]
  end.

Definition pack_item (i : item) (v : val) : result bytes :=
  match i, v with
  | s n, VBytes b =>
      (* shorter values are NUL-padded, longer ones truncated *)
      Ok (firstn (Z.to_nat n) b ++ repeat x00 (Z.to_nat n - List.length b))
  | s _, VInt _ => Raise StructError
  | _, VInt z =>
      if (0 <=? z) && (z <? 256 ^ Z.of_nat (width i))
      then Ok (be_bytes (width i) z)
      else Raise StructError
  | _, VBytes _ => Raise StructError
  end.

(** [struct.pack(fmt, *vs)] *)
Fixpoint pack (fmt : list item) (vs : list val) : result bytes :=
  match fmt, vs with
  | [], [] => Ok []
  | i :: fmt', v :: vs' =>
      b <- pack_item i v ;;
      r <- pack fmt' vs' ;;
      Ok (b ++ r)
  | _, _ => Raise StructError
  end.

Definition unpack_item (i : item) (b : bytes) : val :=
  match i with
  | s _ => VBytes b
  | _ => VInt (be_value b)
  end.

Fixpoint unpack_from (fmt : list item) (b : bytes) : list val :=
  match fmt with
  | [] => []
  | i :: fmt' =>
      unpack_item i (firstn (width i) b) :: unpack_from fmt' (skipn (width i) b)
  end.

(** [struct.unpack(fmt, b)]: the buffer must have exactly the size of the
    format. *)
Definition unpack (fmt : list item) (b : bytes) : result (list val) :=
  if (List.length b =? calcsize fmt)%nat then Ok (unpack_from fmt b)
  else Raise StructError.

End Struct.

(** ** External collaborators

    [hashlib.sha256], the [openssl] signature check, [json.loads] and
    [base64.b64decode] are libraries outside the repository, and the
    constants of [avbtool] are not part of this file: the development is
    parametric in them.  A JSON value is kept as a tree; a number that is
    not an integer has no place in it, and none of the code below looks at
    numbers. *)

#[local] Set Warnings "-register-all".
Inductive json : Type :=
| JNull
| JBool (b : bool)
| JNum (n : Z)
| JStr (s : string)
| JList (l : list json)
| JDict (d : list (string * json)).

Class Externals : Type := {
  (** [hashlib.sha256(data).digest()] *)
  sha256 : bytes -> bytes;
  (** [openssl dgst -sha256 -verify key -signature sig log_root] exits 0 *)
  openssl_verify : bytes -> bytes -> string -> bool;
  (** [json.loads(data)]; a [ValueError] with the decoder's text on
      malformed input *)
  json_loads : bytes -> result json;
  (** [base64.b64decode(s)] *)
  b64decode : string -> result bytes;
  (** [avbtool.AVB_VERSION_MAJOR], [avbtool.AVB_VERSION_MINOR] *)
  AVB_VERSION_MAJOR : Z;
  AVB_VERSION_MINOR : Z
}.

(** ** Signature check and AFTL Merkle tree functionality *)

Section Merkle.
Context `{Externals}.

(** [check_signature]: true when the [openssl] process exits with 0.  The
    temporary files it goes through are not modelled. *)
Definition check_signature (log_root log_root_sig : bytes)
           (transparency_log_pub_key : string) : bool :=
  if openssl_verify log_root log_root_sig transparency_log_pub_key
  then true else false.

(** A [hashlib] hasher: [update] accumulates, [digest] hashes what was
    accumulated. *)
Definition hasher := bytes.
Definition hasher_new : hasher := [].
Definition hasher_update (h : hasher) (data : bytes) : hasher := h ++ data.
Definition hasher_digest (h : hasher) : bytes := sha256 h.

Definition rfc6962_hash_leaf (leaf : bytes) : bytes :=
  let hasher := hasher_new in
  let hasher := hasher_update hasher [x00] in
  let hasher := hasher_update hasher leaf in
  hasher_digest hasher.

Definition rfc6962_hash_children (l r : bytes) : bytes :=
  let hasher := hasher_new in
  let hasher := hasher_update hasher [x01] in
  let hasher := hasher_update hasher l in
  let hasher := hasher_update hasher r in
  hasher_digest hasher.

(** [for h in proof: seed = rfc6962_hash_children(h, seed)] *)
Fixpoint chain_border_right (seed : bytes) (proof : list bytes) : bytes :=
  match proof with
  | [] => seed
  | h :: proof' => chain_border_right (rfc6962_hash_children h seed) proof'
  end.

(** The loop of [chain_inner], with the counter [i] of [enumerate]. *)
Fixpoint chain_inner_from (i : Z) (seed : bytes) (proof : list bytes)
         (leaf_index : Z) : bytes :=
  match proof with
  | [] => seed
  | h :: proof' =>
      let seed' :=
        if Z.land (Z.shiftr leaf_index i) 1 =? 0
        then rfc6962_hash_children seed h
        else rfc6962_hash_children h seed in
      chain_inner_from (i + 1) seed' proof' leaf_index
  end.

Definition chain_inner (seed : bytes) (proof : list bytes) (leaf_index : Z)
  : bytes :=
  chain_inner_from 0 seed proof leaf_index.

Definition root_from_icp (leaf_index tree_size : Z)
           (proof : option (list bytes)) (leaf_hash : option bytes)
  : result bytes :=
  if leaf_index <? 0 then
    Raise (AftlError ("Invalid leaf_index value: " ++ str_of_int leaf_index)%string)
  else if tree_size <? 0 then
    Raise (AftlError ("Invalid tree_size value: " ++ str_of_int tree_size)%string)
  else if leaf_index >=? tree_size then
    Raise (AftlError
             ("leaf_index cannot be equal or larger than tree_size: "
                ++ str_of_int leaf_index ++ ", " ++ str_of_int tree_size)%string)
  else
    match proof with
    | None => Raise (AftlError "Inclusion proof not provided."%string)
    | Some proof =>
        match leaf_hash with
        | None => Raise (AftlError "No leaf hash provided."%string)
        | Some leaf_hash =>
            let inner := bit_length (Z.lxor leaf_index (tree_size - 1)) in
            let result := chain_inner leaf_hash (slice_to inner proof)
                                      leaf_index in
            let result := chain_border_right result
                                             (slice_from inner proof) in
            Ok result
        end
    end.

End Merkle.

(** ** TrillianLogRootDescriptor

    The diagnostics that the [is_valid] methods write to [sys.stderr] are
    not modelled. *)

Module TrillianLogRootDescriptor.
Import Struct.

Record t : Type := mk {
  version : Z;
  tree_size : Z;
  root_hash_size : Z;
  root_hash : bytes;
  timestamp : Z;
  revision : Z;
  metadata_size : Z;
  metadata : bytes
}.

Definition FORMAT_STRING_PART_1 : list item := [H; Q; B].
Definition FORMAT_STRING_PART_2 : list item := [Q; Q; H].

Definition is_valid (self : t) : bool :=
  if negb (version self =? 1) then false
  else if tree_size self <? 0 then false
  else if (root_hash_size self <? 0) || (root_hash_size self >? 128) then false
  else if negb (len (root_hash self) =? root_hash_size self) then false
  else if timestamp self <? 0 then false
  else if revision self <? 0 then false
  else if (metadata_size self <? 0) || (metadata_size self >? 65535) then false
  else if negb (len (metadata self) =? metadata_size self) then false
  else true.

Definition default : t := mk 1 0 0 [] 0 0 0 [].

(** The body of [__init__] when [data] is not empty. *)
Definition parse (data : bytes) : result t :=
  let data_length := Z.of_nat (calcsize FORMAT_STRING_PART_1) in
  vs <- unpack FORMAT_STRING_PART_1 (slice 0 data_length data) ;;
  match vs with
  | [VInt version; VInt tree_size; VInt root_hash_size] =>
      let data := slice_from data_length data in
      let '(root_hash, data) :=
        if root_hash_size >? 0
        then (slice 0 root_hash_size data, slice_from root_hash_size data)
        else ([], data) in
      let data_length := Z.of_nat (calcsize FORMAT_STRING_PART_2) in
      vs <- unpack FORMAT_STRING_PART_2 (slice 0 data_length data) ;;
      match vs with
      | [VInt timestamp; VInt revision; VInt metadata_size] =>
          let data := slice_from data_length data in
          let metadata :=
            if metadata_size >? 0 then slice 0 metadata_size data else [] in
          Ok (mk version tree_size root_hash_size root_hash timestamp
                 revision metadata_size metadata)
      | _ => Raise shape_mismatch
      end
  | _ => Raise shape_mismatch
  end.

(** [TrillianLogRootDescriptor(data)] *)
Definition init (data : option bytes) : result t :=
  self <- (if truthy data
           then parse (match data with Some d => d | None => [] end)
           else Ok default) ;;
  if negb (is_valid self)
  then Raise (AftlError
                "Invalid structure for TrillianLogRootDescriptor."%string)
  else Ok self.

Definition get_expected_size (self : t) : Z :=
  Z.of_nat (calcsize FORMAT_STRING_PART_1) + root_hash_size self +
  Z.of_nat (calcsize FORMAT_STRING_PART_2) + metadata_size self.

Definition encode (self : t) : result bytes :=
  if negb (is_valid self)
  then Raise (AftlError
                "Invalid structure for TrillianLogRootDescriptor."%string)
  else
    let expected_format_string :=
      FORMAT_STRING_PART_1 ++ [s (root_hash_size self)] ++
      FORMAT_STRING_PART_2 ++ [s (metadata_size self)] in
    pack expected_format_string
         [VInt (version self); VInt (tree_size self);
          VInt (root_hash_size self); VBytes (root_hash self);
          VInt (timestamp self); VInt (revision self);
          VInt (metadata_size self); VBytes (metadata self)].

End TrillianLogRootDescriptor.

(** ** FirmwareInfoLeaf *)

Module FirmwareInfoLeaf.

Record t : Type := mk {
  _fw_info_leaf_bytes : bytes;
  _fw_info_leaf_dict : json
}.

(** [d.get(key)] on a dict kept as an association list. *)
Fixpoint dict_get (key : string) (d : list (string * json)) : option json :=
  match d with
  | [] => None
  | (k, v) :: d' => if String.eqb k key then Some v else dict_get key d'
  end.

(** [j[key]] with a [str] key: a [KeyError] when a dict lacks the key, a
    [TypeError] when [j] is not a dict. *)
Definition subscript (j : json) (key : string) : result json :=
  match j with
  | JDict d =>
      match dict_get key d with
      | Some v => Ok v
      | None => Raise (KeyError key)
      end
  | _ => Raise TypeError
  end.

(** Modelled from the spec: the field names of the [FirmwareInfo] message of
    [aftl_pb2], which is not among the sources; section 3 of the
    specification lists them. *)
Definition expected_fields : list string :=
  ["vbmeta_hash"; "version_incremental"; "platform_key";
   "manufacturer_key_hash"; "description"]%string.

(** [set(dict.keys()).issubset(expected_fields)]; a value that is not a
    dict has no [keys]. *)
Definition is_valid (self : t) : result bool :=
  match _fw_info_leaf_dict self with
  | JDict d =>
      Ok (forallb (fun k => existsb (String.eqb k) expected_fields)
                  (map fst d))
  | _ => Raise AttributeError
  end.

Section WithExternals.
Context `{Externals}.

(** [FirmwareInfoLeaf(data)]; the message of the [AftlError] ends with the
    text of the exception that was caught: the decoder's for a
    [ValueError], the missing key between quotes for a [KeyError]. *)
Definition init (data : option bytes) : result t :=
  self <-
    (if truthy data then
       let fw_info_leaf_bytes := match data with Some d => d | None => [] end in
       let parsed :=
         fw_info_leaf <- json_loads fw_info_leaf_bytes ;;
         a <- subscript fw_info_leaf "Value" ;;
         b <- subscript a "FwInfo" ;;
         c <- subscript b "info" ;;
         subscript c "info" in
       match parsed with
       | Ok d => Ok (mk fw_info_leaf_bytes d)
       | Raise (ValueError text) =>
           Raise (AftlError
                    ("Invalid structure for FirmwareInfoLeaf: " ++ text)%string)
       | Raise (KeyError key) =>
           Raise (AftlError
                    ("Invalid structure for FirmwareInfoLeaf: "
                       ++ repr_str key)%string)
       | Raise e => Raise e
       end
     else Ok (mk [] (JDict []))) ;;
  valid <- is_valid self ;;
  if negb valid
  then Raise (AftlError "Invalid structure for FirmwareInfoLeaf."%string)
  else Ok self.

Definition json_truthy (j : json) : bool :=
  match j with
  | JNull => false
  | JBool b => b
  | JNum n => negb (n =? 0)
  | JStr s => negb (String.eqb s "")
  | JList l => match l with [] => false | _ => true end
  | JDict d => match d with [] => false | _ => true end
  end.

(** [_lookup_base64_attribute]: the decoded bytes, or [None] for the missing
    or falsy value that the source returns as it is (it is not a [bytes]
    object). *)
Definition _lookup_base64_attribute (self : t) (key : string)
  : result (option bytes) :=
  match _fw_info_leaf_dict self with
  | JDict d =>
      match dict_get key d with
      | None => Ok None
      | Some result =>
          if json_truthy result then
            match result with
            | JStr str => r <- b64decode str ;; Ok (Some r)
            | _ => Raise TypeError
            end
          else Ok None
      end
  | _ => Raise AttributeError
  end.

Definition vbmeta_hash (self : t) : result (option bytes) :=
  _lookup_base64_attribute self "vbmeta_hash".

End WithExternals.

Definition get_expected_size (self : t) : Z :=
  if negb (truthy (Some (_fw_info_leaf_bytes self))) then 0
  else len (_fw_info_leaf_bytes self).

Definition encode (self : t) : bytes := _fw_info_leaf_bytes self.

End FirmwareInfoLeaf.

(** ** AftlImageHeader *)

Module AftlImageHeader.
Import Struct.

Record t : Type := mk {
  magic : bytes;
  required_icp_version_major : Z;
  required_icp_version_minor : Z;
  aftl_image_size : Z;
  icp_count : Z
}.

Definition SIZE : Z := 18.
Definition MAGIC : bytes := [x41; x46; x54; x4c].
Definition FORMAT_STRING : list item := [s 4; L; L; L; H].

Section WithExternals.
Context `{Externals}.

Definition is_valid (self : t) : bool :=
  if negb (bytes_eqb (magic self) MAGIC) then false
  else if required_icp_version_major self >? AVB_VERSION_MAJOR then false
  else if required_icp_version_minor self >? AVB_VERSION_MINOR then false
  else if aftl_image_size self <? SIZE then false
  else if (icp_count self <? 0) || (icp_count self >? 65535) then false
  else true.

(** [AftlImageHeader(data)] *)
Definition init (data : option bytes) : result t :=
  self <-
    (if truthy data then
       vs <- unpack FORMAT_STRING (match data with Some d => d | None => [] end) ;;
       match vs with
       | [VBytes magic; VInt major; VInt minor; VInt size; VInt count] =>
           Ok (mk magic major minor size count)
       | _ => Raise shape_mismatch
       end
     else Ok (mk MAGIC AVB_VERSION_MAJOR AVB_VERSION_MINOR SIZE 0)) ;;
  if negb (is_valid self)
  then Raise (AftlError "Invalid structure for AftlImageHeader."%string)
  else Ok self.

Definition encode (self : t) : result bytes :=
  if negb (is_valid self)
  then Raise (AftlError "Invalid structure for AftlImageHeader"%string)
  else pack FORMAT_STRING
            [VBytes (magic self);
             VInt (required_icp_version_major self);
             VInt (required_icp_version_minor self);
             VInt (aftl_image_size self);
             VInt (icp_count self)].

End WithExternals.
End AftlImageHeader.

(** ** AftlIcpEntry *)

Module AftlIcpEntry.
Import Struct.

(** The attributes of an entry.  The [_expected] sizes that [__init__] reads
    from the header are used only while the entry is being parsed: once the
    payload attributes exist, every size property is computed from them. *)
Record t : Type := mk {
  leaf_index : Z;
  log_url : string;
  log_root_descriptor : TrillianLogRootDescriptor.t;
  fw_info_leaf : FirmwareInfoLeaf.t;
  log_root_signature : bytes;
  proofs : list bytes
}.

Definition SIZE : Z := 27.
Definition FORMAT_STRING : list item := [L; Q; L; L; H; B; L].

(** [b.decode('ascii')] *)
Definition decode_ascii (b : bytes) : result string :=
  if forallb (fun x => Z_of_byte x <? 128) b
  then Ok (string_of_list_byte b)
  else Raise UnicodeError.

(** [s.encode('ascii')] *)
Definition encode_ascii (str : string) : result bytes :=
  let b := list_byte_of_string str in
  if forallb (fun x => Z_of_byte x <? 128) b then Ok b else Raise UnicodeError.

(** The loop that cuts [proof_bytes] into [n] hashes of [hash_size] bytes. *)
Fixpoint split_proofs (n : nat) (proof_idx hash_size : Z) (proof_bytes : bytes)
  : list bytes :=
  match n with
  | O => []
  | S n' =>
      slice proof_idx (proof_idx + hash_size) proof_bytes
        :: split_proofs n' (proof_idx + hash_size) hash_size proof_bytes
  end.

Definition log_url_size (self : t) : Z :=
  Z.of_nat (String.length (log_url self)).

Definition log_root_descriptor_size (self : t) : Z :=
  TrillianLogRootDescriptor.get_expected_size (log_root_descriptor self).

Definition fw_info_leaf_size (self : t) : Z :=
  FirmwareInfoLeaf.get_expected_size (fw_info_leaf self).

Definition log_root_sig_size (self : t) : Z := len (log_root_signature self).

Definition proof_hash_count (self : t) : Z := len (proofs self).

Definition inc_proof_size (self : t) : Z :=
  fold_left (fun result proof => result + len proof) (proofs self) 0.

Definition get_expected_size (self : t) : Z :=
  SIZE + log_url_size self + log_root_descriptor_size self +
  fw_info_leaf_size self + log_root_sig_size self + inc_proof_size self.

(** The descriptor and the leaf are objects, hence truthy, and of the right
    class by typing: what is left of the checks is below. *)
Definition is_valid (self : t) : bool :=
  if leaf_index self <? 0 then false
  else if negb (TrillianLogRootDescriptor.is_valid (log_root_descriptor self))
  then false
  else true.

Section WithExternals.
Context `{Externals}.

(** The body of [__init__] when [data] is not empty. *)
Definition parse (data : bytes) : result t :=
  vs <- unpack FORMAT_STRING (slice 0 SIZE data) ;;
  match vs with
  | [VInt log_url_size_expected; VInt leaf_index;
     VInt log_root_descriptor_size_expected; VInt fw_info_leaf_size_expected;
     VInt log_root_sig_size_expected; VInt proof_hash_count_expected;
     VInt inc_proof_size_expected] =>
      let expected_format_string :=
        [s log_url_size_expected; s log_root_descriptor_size_expected;
         s fw_info_leaf_size_expected; s log_root_sig_size_expected;
         s inc_proof_size_expected] in
      (* get_expected_size(), from the header: no payload attribute yet *)
      let expected_size :=
        SIZE + log_url_size_expected + log_root_descriptor_size_expected +
        fw_info_leaf_size_expected + log_root_sig_size_expected +
        inc_proof_size_expected in
      vs <- unpack expected_format_string (slice SIZE expected_size data) ;;
      match vs with
      | [VBytes log_url; VBytes log_root_descriptor_bytes;
         VBytes fw_info_leaf_bytes; VBytes log_root_signature;
         VBytes proof_bytes] =>
          log_url <- decode_ascii log_url ;;
          log_root_descriptor <-
            TrillianLogRootDescriptor.init (Some log_root_descriptor_bytes) ;;
          fw_info_leaf <- FirmwareInfoLeaf.init (Some fw_info_leaf_bytes) ;;
          let proofs :=
            if proof_hash_count_expected >? 0 then
              let hash_size :=
                inc_proof_size_expected / proof_hash_count_expected in
              split_proofs (Z.to_nat proof_hash_count_expected) 0 hash_size
                           proof_bytes
            else [] in
          Ok (mk leaf_index log_url log_root_descriptor fw_info_leaf
                 log_root_signature proofs)
      | _ => Raise shape_mismatch
      end
  | _ => Raise shape_mismatch
  end.

(** [AftlIcpEntry(data)] *)
Definition init (data : option bytes) : result t :=
  self <-
    (if truthy data
     then parse (match data with Some d => d | None => [] end)
     else
       log_root_descriptor <- TrillianLogRootDescriptor.init None ;;
       fw_info_leaf <- FirmwareInfoLeaf.init None ;;
       Ok (mk 0 "" log_root_descriptor fw_info_leaf [] [])) ;;
  if negb (is_valid self)
  then Raise (AftlError "Invalid structure for AftlIcpEntry"%string)
  else Ok self.

Definition verify_icp (self : t) (transparency_log_pub_key : option string)
  : result bool :=
  if negb (truthy_str transparency_log_pub_key) then Ok false
  else
    let key := match transparency_log_pub_key with
               | Some k => k | None => ""%string end in
    let leaf_hash :=
      rfc6962_hash_leaf (FirmwareInfoLeaf.encode (fw_info_leaf self)) in
    calc_root <- root_from_icp (leaf_index self)
                   (TrillianLogRootDescriptor.tree_size
                      (log_root_descriptor self))
                   (Some (proofs self)) (Some leaf_hash) ;;
    if bytes_eqb calc_root
                 (TrillianLogRootDescriptor.root_hash
                    (log_root_descriptor self))
    then
      (* the right operand of [and] *)
      encoded <- TrillianLogRootDescriptor.encode (log_root_descriptor self) ;;
      if check_signature encoded (log_root_signature self) key
      then Ok true else Ok false
    else Ok false.

Definition verify_vbmeta_image (self : t) (vbmeta_image : option bytes)
           (transparency_log_pub_key : option string) : result bool :=
  if negb (truthy vbmeta_image) then Ok false
  else
    let vbmeta_hash :=
      sha256 (match vbmeta_image with Some v => v | None => [] end) in
    verified <- verify_icp self transparency_log_pub_key ;;
    if verified then
      leaf_vbmeta_hash <- FirmwareInfoLeaf.vbmeta_hash (fw_info_leaf self) ;;
      match leaf_vbmeta_hash with
      | Some h => Ok (bytes_eqb h vbmeta_hash)
      | None => Ok false
      end
    else Ok false.

End WithExternals.

Definition encode (self : t) : result bytes :=
  if negb (is_valid self)
  then Raise (AftlError "Invalid AftlIcpEntry structure"%string)
  else
    let expected_format_string :=
      FORMAT_STRING ++
      [s (log_url_size self); s (log_root_descriptor_size self);
       s (fw_info_leaf_size self); s (log_root_sig_size self);
       s (inc_proof_size self)] in
    let proof_bytes := List.concat (proofs self) in
    log_url_bytes <- encode_ascii (log_url self) ;;
    log_root_descriptor_bytes <-
      TrillianLogRootDescriptor.encode (log_root_descriptor self) ;;
    pack expected_format_string
         [VInt (log_url_size self); VInt (leaf_index self);
          VInt (log_root_descriptor_size self); VInt (fw_info_leaf_size self);
          VInt (log_root_sig_size self); VInt (proof_hash_count self);
          VInt (inc_proof_size self); VBytes log_url_bytes;
          VBytes log_root_descriptor_bytes;
          VBytes (FirmwareInfoLeaf.encode (fw_info_leaf self));
          VBytes (log_root_signature self);
          VBytes proof_bytes].

(** The fields of an [AddFirmwareInfoResponse] that the tool reads. *)
Record AddFirmwareInfoResponse : Type := mkResponse {
  resp_fw_info_leaf : bytes;
  resp_log_root : bytes;
  resp_log_root_signature : bytes;
  resp_leaf_index : Z;
  resp_hashes : list bytes
}.

Section Translate.
Context `{Externals}.

Definition translate_response (self : t) (url : string)
           (afi_response : AddFirmwareInfoResponse) : result t :=
  log_root_descriptor <-
    TrillianLogRootDescriptor.init (Some (resp_log_root afi_response)) ;;
  fw_info_leaf <-
    FirmwareInfoLeaf.init (Some (resp_fw_info_leaf afi_response)) ;;
  Ok (mk (resp_leaf_index afi_response) url log_root_descriptor fw_info_leaf
         (resp_log_root_signature afi_response) (resp_hashes afi_response)).

End Translate.
End AftlIcpEntry.

(** ** AftlImage *)

Module AftlImage.

Record t : Type := mk {
  image_header : AftlImageHeader.t;
  icp_entries : list AftlIcpEntry.t
}.

Definition add_icp_entry (self : t) (icp_entry : AftlIcpEntry.t) : t :=
  let icp_entries := icp_entries self ++ [icp_entry] in
  let h := image_header self in
  let h := AftlImageHeader.mk
             (AftlImageHeader.magic h)
             (AftlImageHeader.required_icp_version_major h)
             (AftlImageHeader.required_icp_version_minor h)
             (AftlImageHeader.aftl_image_size h)
             (AftlImageHeader.icp_count h + 1) in
  let h := AftlImageHeader.mk
             (AftlImageHeader.magic h)
             (AftlImageHeader.required_icp_version_major h)
             (AftlImageHeader.required_icp_version_minor h)
             (AftlImageHeader.aftl_image_size h
              + AftlIcpEntry.get_expected_size icp_entry)
             (AftlImageHeader.icp_count h) in
  mk h icp_entries.

Section WithExternals.
Context `{Externals}.

Definition is_valid (self : t) : bool :=
  if negb (AftlImageHeader.is_valid (image_header self)) then false
  else if negb (AftlImageHeader.icp_count (image_header self)
                =? len (icp_entries self)) then false
  else forallb AftlIcpEntry.is_valid (icp_entries self).

(** The loop [for i in range(icp_count)] of [__init__], from entry [i] on,
    [n] entries being left to read. *)
Fixpoint parse_entries (n : nat) (i : Z) (data : bytes) (icp_index : Z)
         (self : t) : result t :=
  match n with
  | O => Ok self
  | S n' =>
      cur_icp_entry <- AftlIcpEntry.init (Some (slice_from icp_index data)) ;;
      let cur_icp_entry_size := AftlIcpEntry.get_expected_size cur_icp_entry in
      if negb (AftlIcpEntry.is_valid cur_icp_entry)
      then Raise (AftlError ("Validation of ICP entry " ++ str_of_int i
                               ++ " failed.")%string)
      else
        parse_entries n' (i + 1) data (icp_index + cur_icp_entry_size)
                      (add_icp_entry self cur_icp_entry)
  end.

(** [AftlImage(data)] *)
Definition init (data : option bytes) : result t :=
  self <-
    (if truthy data then
       let data := match data with Some d => d | None => [] end in
       let image_header_bytes := slice 0 AftlImageHeader.SIZE data in
       image_header <- AftlImageHeader.init (Some image_header_bytes) ;;
       if negb (AftlImageHeader.is_valid image_header)
       then Raise (AftlError "Invalid AftlImageHeader."%string)
       else
         let icp_count := AftlImageHeader.icp_count image_header in
         let icp_index := AftlImageHeader.SIZE in
         (* self.image_header.icp_count = 0 *)
         let image_header :=
           AftlImageHeader.mk
             (AftlImageHeader.magic image_header)
             (AftlImageHeader.required_icp_version_major image_header)
             (AftlImageHeader.required_icp_version_minor image_header)
             (AftlImageHeader.aftl_image_size image_header)
             0 in
         parse_entries (Z.to_nat icp_count) 0 data icp_index
                       (mk image_header [])
     else
       image_header <- AftlImageHeader.init None ;;
       Ok (mk image_header [])) ;;
  if negb (is_valid self)
  then Raise (AftlError "Invalid AftlImage."%string)
  else Ok self.

(** The inner loop of [verify_vbmeta_image]: the keys are tried in order
    until one verifies the entry. *)
Fixpoint verified_by_some_key (icp_entry : AftlIcpEntry.t)
         (vbmeta_image : option bytes)
         (transparency_log_pub_keys : list (option string)) : result bool :=
  match transparency_log_pub_keys with
  | [] => Ok false
  | pub_key :: rest =>
      ok <- AftlIcpEntry.verify_vbmeta_image icp_entry vbmeta_image pub_key ;;
      if ok then Ok true
      else verified_by_some_key icp_entry vbmeta_image rest
  end.

(** The outer loop, counting the verified entries. *)
Fixpoint count_verified (entries : list AftlIcpEntry.t)
         (vbmeta_image : option bytes)
         (transparency_log_pub_keys : list (option string))
         (icp_verified : Z) : result Z :=
  match entries with
  | [] => Ok icp_verified
  | icp_entry :: rest =>
      verified <- verified_by_some_key icp_entry vbmeta_image
                                       transparency_log_pub_keys ;;
      count_verified rest vbmeta_image transparency_log_pub_keys
                     (if verified then icp_verified + 1 else icp_verified)
  end.

Definition verify_vbmeta_image (self : t) (vbmeta_image : option bytes)
           (transparency_log_pub_keys : option (list (option string)))
  : result bool :=
  if negb (truthy transparency_log_pub_keys)
     || negb (truthy (Some (icp_entries self)))
  then Ok false
  else
    let keys := match transparency_log_pub_keys with
                | Some ks => ks | None => [] end in
    icp_verified <- count_verified (icp_entries self) vbmeta_image keys 0 ;;
    Ok (icp_verified =? len (icp_entries self)).

(** The loop of [encode] over the entries. *)
Fixpoint encode_entries (entries : list AftlIcpEntry.t) (aftl_image : bytes)
  : result bytes :=
  match entries with
  | [] => Ok aftl_image
  | icp_entry :: rest =>
      b <- AftlIcpEntry.encode icp_entry ;;
      encode_entries rest (aftl_image ++ b)
  end.

Definition encode (self : t) : result bytes :=
  if negb (is_valid self)
  then Raise (AftlError "Invalid AftlImage structure."%string)
  else
    header_bytes <- AftlImageHeader.encode (image_header self) ;;
    encode_entries (icp_entries self) ([] ++ header_bytes).

End WithExternals.
End AftlImage.

(** ** Aftl: the business logic of the command-line tool *)

Module Aftl.

Record TransparencyLogConfig : Type := mkConfig {
  target : string;
  pub_key : option string;
  api_key : option string
}.

(** [s.split(",", maxsplit=1)] when there is a comma: what stands before
    the first comma and what stands after it. *)
Fixpoint cut_at_comma (str : string) : option (string * string) :=
  match str with
  | EmptyString => None
  | String c rest =>
      if Ascii.eqb c ","%char then Some (EmptyString, rest)
      else
        match cut_at_comma rest with
        | Some (before, after) => Some (String c before, after)
        | None => None
        end
  end.

(** [s.split(",", maxsplit=n)] *)
Fixpoint split_comma (maxsplit : nat) (str : string) : list string :=
  match maxsplit with
  | O => [str]
  | S n =>
      match cut_at_comma str with
      | Some (before, after) => before :: split_comma n after
      | None => [str]
      end
  end.

(** [TransparencyLogConfig.from_argument] *)
Definition from_argument (arg : string) : result TransparencyLogConfig :=
  let api_key := None in
  match split_comma 2 arg with
  | target :: pub_key :: rest =>
      if negb (truthy_str (Some target)) then
        Raise (ArgumentTypeError
                 ("incorrect format for transparency log "
                    ++ "server: host:port cannot be empty.")%string)
      else if negb (truthy_str (Some pub_key)) then
        Raise (ArgumentTypeError
                 ("incorrect format for transparency log "
                    ++ "server: publickey_file cannot be "
                    ++ "empty.")%string)
      else
        let api_key :=
          match rest with
          | rest_0 :: _ => Some rest_0
          | [] => api_key
          end in
        Ok (mkConfig target (Some pub_key) api_key)
  | _ =>
      (* the star assignment needs two values at least *)
      Raise (ArgumentTypeError
               ("incorrect format for transparency log "
                  ++ "server, expected "
                  ++ "host:port,publickey_file.")%string)
  end.

(** The footer of a chained partition, as [avbtool] reports it. *)
Record AvbFooter : Type := mkFooter {
  vbmeta_offset : Z
}.

(** A value handed to [write]. *)
Inductive pyval : Type :=
| PyNone
| PyBytes (b : bytes)
| PyStr (str : string).

(** A file opened in binary mode ([argparse.FileType('wb')], [open(_, 'wb')]):
    its content and the position of the next write. *)
Record file : Type := mkFile {
  content : bytes;
  position : Z
}.

Definition file_seek (f : file) (offset : Z) : file :=
  mkFile (content f) offset.

(** [f.write(v)]: a binary file takes [bytes] only. *)
Definition file_write (f : file) (v : pyval) : result file :=
  match v with
  | PyBytes b =>
      let before := slice_to (position f) (content f) in
      let gap := repeat x00 (Z.to_nat (position f - len (content f))) in
      let after := slice_from (position f + len b) (content f) in
      Ok (mkFile (before ++ gap ++ b ++ after) (position f + len b))
  | _ => Raise TypeError
  end.

(** The protobuf messages that [request_inclusion_proof] builds, with the
    fields it sets. *)
Record FirmwareInfo : Type := mkFirmwareInfo {
  fi_vbmeta_hash : bytes;
  fi_version_incremental : string;
  fi_manufacturer_key_hash : bytes
}.

Record DigitallySigned : Type := mkDigitallySigned {
  hash_algorithm : string;
  signature_algorithm : string;
  signature : bytes
}.

Record SignedFirmwareInfo : Type := mkSignedFirmwareInfo {
  info : FirmwareInfo;
  info_signature : DigitallySigned
}.

Record AddFirmwareInfoRequest : Type := mkRequest {
  vbmeta : bytes;
  fw_info : SignedFirmwareInfo
}.

(** What the orchestrator acts on: the logs that the [AddFirmwareInfo] RPC
    was called on so far, the two standard text streams and the output
    file. *)
Record world : Type := mkWorld {
  requests : list TransparencyLogConfig;
  stderr : list string;
  stdout : list string;
  output : file
}.

Definition log_request (w : world) (c : TransparencyLogConfig) : world :=
  mkWorld (requests w ++ [c]) (stderr w) (stdout w) (output w).

Definition write_stderr (w : world) (msg : string) : world :=
  mkWorld (requests w) (stderr w ++ [msg]) (stdout w) (output w).

Definition write_stdout (w : world) (msg : string) : world :=
  mkWorld (requests w) (stderr w) (stdout w ++ [msg]) (output w).

Definition set_output (w : world) (f : file) : world :=
  mkWorld (requests w) (stderr w) (stdout w) f.

(** Computations of the orchestrator: they act on the world and may raise;
    what was done before an exception stays done. *)
Definition M (A : Type) : Type := world -> result A * world.

Definition ret {A} (a : A) : M A := fun w => (Ok a, w).

Definition bindM {A B} (m : M A) (k : A -> M B) : M B :=
  fun w =>
    match m w with
    | (Ok a, w') => k a w'
    | (Raise e, w') => (Raise e, w')
    end.

Definition lift {A} (r : result A) : M A := fun w => (r, w).

(** [try: body / except AftlError as e: handler(e)] *)
Definition try_except_AftlError {A} (body : M A) (handler : string -> M A)
  : M A :=
  fun w =>
    match body w with
    | (Raise (AftlError message), w') => handler message w'
    | r => r
    end.

Definition sys_stderr_write (msg : string) : M unit :=
  fun w => (Ok tt, write_stderr w msg).

Definition sys_stdout_write (msg : string) : M unit :=
  fun w => (Ok tt, write_stdout w msg).

Definition output_seek (offset : Z) : M unit :=
  fun w => (Ok tt, set_output w (file_seek (output w) offset)).

Definition output_write (v : pyval) : M unit :=
  fun w =>
    match file_write (output w) v with
    | Ok f => (Ok tt, set_output w f)
    | Raise e => (Raise e, w)
    end.

Notation "x <-- m ;; k" := (bindM m (fun x => k))
  (at level 61, m at next level, right associativity) : py_scope.

(** The newline character. *)
Definition nl : string := String (ascii_of_nat 10) EmptyString.

(** [repr(b)] for [bytes], which is what [format] shows for them: between
    single quotes, or double quotes when the bytes hold a single quote and
    no double quote; the quote and the backslash escaped, tab, newline and
    carriage return by their letter, the other bytes outside the printable
    ASCII range as [\xhh]. *)
Definition hexdigit (n : Z) : ascii :=
  match n with
  | 0 => "0" | 1 => "1" | 2 => "2" | 3 => "3" | 4 => "4" | 5 => "5"
  | 6 => "6" | 7 => "7" | 8 => "8" | 9 => "9" | 10 => "a" | 11 => "b"
  | 12 => "c" | 13 => "d" | 14 => "e" | _ => "f"
  end%char.

Definition repr_byte (quote : ascii) (c : byte) : string :=
  let a := ascii_of_byte c in
  let n := Struct.Z_of_byte c in
  if Ascii.eqb a quote || Ascii.eqb a "\"%char
  then String "\"%char (String a EmptyString)
  else if n =? 9 then "\t"%string
  else if n =? 10 then "\n"%string
  else if n =? 13 then "\r"%string
  else if (n <? 32) || (n >=? 127)
  then String "\"%char
         (String "x"%char
            (String (hexdigit (n / 16))
               (String (hexdigit (n mod 16)) EmptyString)))
  else String a EmptyString.

Definition repr_bytes (b : bytes) : string :=
  let squote := existsb (fun c => Struct.Z_of_byte c =? 39) b in
  let dquote := existsb (fun c => Struct.Z_of_byte c =? 34) b in
  let quote := if squote && negb dquote then ascii_of_nat 34 else "'"%char in
  String "b"%char
    (String quote
       (String.concat "" (map (repr_byte quote) b) ++ String quote EmptyString)).

(** The collaborators of the orchestrator that are outside the repository:
    the [avbtool] image parser behind [get_vbmeta_image], the RSA key
    handling of [avbtool], the [openssl] process, the protobuf serialiser
    and the [grpc] library. *)
Class Collaborators : Type := {
  (** [get_vbmeta_image(path)]: the vbmeta bytes and the footer *)
  get_vbmeta_image : string -> option bytes * option AvbFooter;
  (** [avbtool.RSAPublicKey(key_path).num_bits] *)
  RSAPublicKey_num_bits : string -> result Z;
  (** [openssl rsa -in key_path -pubout -outform DER]: what the process
      writes to its standard output and to its standard error, and its
      exit code *)
  openssl_rsa_pubout : string -> bytes * bytes * Z;
  (** [fw_info.SerializeToString()] *)
  SerializeToString : FirmwareInfo -> bytes;
  (** [avbtool.RSAPublicKey(key_path).sign(algorithm_name, data,
      signing_helper, signing_helper_with_files)] *)
  RSAPublicKey_sign :
    string -> string -> bytes -> option string -> option string ->
    result bytes;
  (** [import grpc] and [from proto import api_pb2_grpc] *)
  import_grpc : result unit;
  (** [grpc.insecure_channel(target)] *)
  grpc_insecure_channel : string -> result unit;
  (** [stub.AddFirmwareInfo(request, timeout=timeout, metadata=metadata)]
      on the stub of the channel to the target *)
  stub_AddFirmwareInfo :
    string -> AddFirmwareInfoRequest -> option Z -> list (string * string) ->
    result AftlIcpEntry.AddFirmwareInfoResponse
}.

(** Modelled from the spec: [avbtool.round_to_multiple], which is not among
    the sources; the output length "rounds up to a multiple of" the padding
    size. *)
Definition round_to_multiple (number size : Z) : Z :=
  let remainder := number mod size in
  if remainder =? 0 then number else number + size - remainder.

(** ['\0' * n] *)
Definition nul_str (n : Z) : string :=
  string_of_list_ascii (repeat Ascii.zero (Z.to_nat n)).

(** The two lines that the transport writes to the standard output. *)
Definition msg_preparing (target : string) : string :=
  ("Preparing to request inclusion proof from " ++ target
     ++ ". This could take ~30 seconds for the process to complete."
     ++ nl)%string.

Definition msg_requesting (target : string) : string :=
  ("ICP is about to be requested from transparency log with domain "
     ++ target ++ "." ++ nl)%string.

Section WithExternals.
Context `{Externals} `{Collaborators}.

(** [rsa_key_read_pem_bytes], a function of the module. *)
Definition rsa_key_read_pem_bytes (key_path : string) : result bytes :=
  let '(pout, perr, retcode) := openssl_rsa_pubout key_path in
  if negb (retcode =? 0)
  then Raise (AftlError ("Error decoding: " ++ repr_bytes perr)%string)
  else Ok pout.

(** [AftlCommunication.__init__]: the timeout that the object keeps. *)
Definition comm_timeout (timeout : Z) : option Z :=
  if negb (timeout =? 0) then Some timeout else None.

(** [AftlGrpcCommunication.add_firmware_info] *)
Definition add_firmware_info (transparency_log_config : TransparencyLogConfig)
           (timeout : option Z) (request : AddFirmwareInfoRequest)
  : M AftlIcpEntry.AddFirmwareInfoResponse :=
  _ <-- lift (match import_grpc with
              | Raise (ImportError e) =>
                  let err_str :=
                    ("grpc can be installed with python pip install grpcio."
                       ++ nl)%string in
                  Raise (AftlError ("Failed to import module: (" ++ e ++ ")."
                                      ++ nl ++ err_str)%string)
              | r => r
              end) ;;
  _ <-- sys_stdout_write (msg_preparing (target transparency_log_config)) ;;
  channel <-- lift (grpc_insecure_channel (target transparency_log_config)) ;;
  let metadata :=
    if truthy_str (api_key transparency_log_config)
    then [("x-api-key"%string,
           match api_key transparency_log_config with
           | Some k => k | None => ""%string end)]
    else [] in
  _ <-- sys_stdout_write (msg_requesting (target transparency_log_config)) ;;
  response <--
    (fun w =>
       (match stub_AddFirmwareInfo (target transparency_log_config) request
                                   timeout metadata with
        | Raise (RpcError e) =>
            Raise (AftlError ("Error: grpc failure (" ++ e ++ ")")%string)
        | r => r
        end,
        log_request w transparency_log_config)) ;;
  ret response.

(** [request_inclusion_proof]; [aftl_comms] is the [add_firmware_info] of
    the communication object that the caller passes, if any. *)
Definition request_inclusion_proof
           (transparency_log_config : TransparencyLogConfig)
           (vbmeta_image : option bytes) (version_inc : string)
           (manufacturer_key_path : string)
           (signing_helper signing_helper_with_files : option string)
           (timeout : Z)
           (aftl_comms : option (AddFirmwareInfoRequest ->
                                 M AftlIcpEntry.AddFirmwareInfoResponse))
  : M AftlIcpEntry.t :=
  (* hashlib.sha256 takes a bytes-like object *)
  vbmeta_bytes <-- lift (match vbmeta_image with
                         | Some b => Ok b
                         | None => Raise TypeError
                         end) ;;
  let vbmeta_hash := sha256 vbmeta_bytes in
  num_bits <-- lift (RSAPublicKey_num_bits manufacturer_key_path) ;;
  if negb (num_bits =? 4096)
  then lift (Raise (AftlError ("Manufacturer keys not of size 4096: "
                                 ++ str_of_int num_bits)%string))
  else
    manufacturer_key_data <--
      lift (rsa_key_read_pem_bytes manufacturer_key_path) ;;
    let m_key_hash := sha256 manufacturer_key_data in
    let fw_info := mkFirmwareInfo vbmeta_hash version_inc m_key_hash in
    let algorithm_name := "SHA256_RSA4096"%string in
    signed_fw_info <--
      lift (match RSAPublicKey_sign manufacturer_key_path algorithm_name
                    (SerializeToString fw_info) signing_helper
                    signing_helper_with_files with
            | Raise (AvbError e) =>
                Raise (AftlError
                         ("Failed to sign FirmwareInfo with "
                            ++ "--manufacturer_key: " ++ e)%string)
            | r => r
            end) ;;
    let fw_info_sig := mkDigitallySigned "SHA256" "RSA" signed_fw_info in
    let sfw_info := mkSignedFirmwareInfo fw_info fw_info_sig in
    let request := mkRequest vbmeta_bytes sfw_info in
    let aftl_comms :=
      match aftl_comms with
      | Some comms => comms
      | None => add_firmware_info transparency_log_config
                                  (comm_timeout timeout)
      end in
    response <-- aftl_comms request ;;
    icp_entry <-- lift (AftlIcpEntry.init None) ;;
    lift (AftlIcpEntry.translate_response icp_entry
            (target transparency_log_config) response).

(** The [try] statement in the loop over [transparency_log_configs]: an
    [AftlError] raised in the [try] block is reported and the image is left
    as it was; any other exception propagates. *)
Definition fetch_icp_entry (log_config : TransparencyLogConfig)
           (vbmeta_image : option bytes) (version_incremental : string)
           (manufacturer_key : string)
           (signing_helper signing_helper_with_files : option string)
           (timeout : Z) (aftl_image : AftlImage.t) : M AftlImage.t :=
  try_except_AftlError
    (icp_entry <--
       request_inclusion_proof log_config vbmeta_image version_incremental
         manufacturer_key signing_helper signing_helper_with_files timeout
         None ;;
     verified <--
       lift (AftlIcpEntry.verify_vbmeta_image icp_entry vbmeta_image
               (pub_key log_config)) ;;
     _ <-- (if negb verified
            then sys_stderr_write
                   ("The inclusion proof from " ++ target log_config
                      ++ " could not be verified." ++ nl)%string
            else ret tt) ;;
     ret (AftlImage.add_icp_entry aftl_image icp_entry))
    (fun e =>
       _ <-- sys_stderr_write
               ("Requesting inclusion proof failed: " ++ e ++ "."
                  ++ nl)%string ;;
       ret aftl_image).

(** The loop over [transparency_log_configs]. *)
Fixpoint fetch_icp_entries (configs : list TransparencyLogConfig)
         (vbmeta_image : option bytes) (version_incremental : string)
         (manufacturer_key : string)
         (signing_helper signing_helper_with_files : option string)
         (timeout : Z) (aftl_image : AftlImage.t) : M AftlImage.t :=
  match configs with
  | [] => ret aftl_image
  | log_config :: rest =>
      aftl_image <-- fetch_icp_entry log_config vbmeta_image
                       version_incremental manufacturer_key signing_helper
                       signing_helper_with_files timeout aftl_image ;;
      fetch_icp_entries rest vbmeta_image version_incremental
                        manufacturer_key signing_helper
                        signing_helper_with_files timeout aftl_image
  end.

(** The messages of [make_icp_from_vbmeta]. *)
Definition msg_footer : string :=
  ("Image has a footer and ICP for this format is not "
     ++ "implemented." ++ nl)%string.

Definition msg_created : string :=
  ("VBMeta image with AFTL image successfully created." ++ nl)%string.

Definition make_icp_from_vbmeta (vbmeta_image_path : string)
           (signing_helper signing_helper_with_files : option string)
           (version_incremental : string)
           (transparency_log_configs : list TransparencyLogConfig)
           (manufacturer_key : string) (padding_size : Z) (timeout : Z)
  : M bool :=
  let '(vbmeta_image, footer) := get_vbmeta_image vbmeta_image_path in
  aftl_image <-- lift (AftlImage.init None) ;;
  aftl_image <-- fetch_icp_entries transparency_log_configs vbmeta_image
                   version_incremental manufacturer_key signing_helper
                   signing_helper_with_files timeout aftl_image ;;
  if negb (AftlImageHeader.icp_count (AftlImage.image_header aftl_image)
           =? len transparency_log_configs)
  then
    _ <-- sys_stderr_write
            ("Valid inclusion proofs could only be retrieved from "
               ++ str_of_int (AftlImageHeader.icp_count
                                (AftlImage.image_header aftl_image))
               ++ " out of " ++ str_of_int (len transparency_log_configs)
               ++ " transparency logs." ++ nl)%string ;;
    ret false
  else if negb (AftlImage.is_valid aftl_image)
  then
    _ <-- sys_stderr_write
            ("Resulting AftlImage structure is malformed." ++ nl)%string ;;
    ret false
  else
    let keys := map pub_key transparency_log_configs in
    verified <-- lift (AftlImage.verify_vbmeta_image aftl_image vbmeta_image
                         (Some keys)) ;;
    if negb verified
    then
      _ <-- sys_stderr_write
              ("Resulting AftlImage inclusion proofs do not validate."
                 ++ nl)%string ;;
      ret false
    else
      match footer with
      | Some _ =>
          _ <-- sys_stderr_write msg_footer ;;
          ret false
      | None =>
          _ <-- output_seek 0 ;;
          _ <-- output_write (match vbmeta_image with
                              | Some b => PyBytes b
                              | None => PyNone
                              end) ;;
          encoded_aftl_image <-- lift (AftlImage.encode aftl_image) ;;
          _ <-- output_write (PyBytes encoded_aftl_image) ;;
          _ <-- (if padding_size >? 0 then
                   let total_image_size :=
                     len (match vbmeta_image with
                          | Some b => b | None => [] end)
                     + len encoded_aftl_image in
                   let padded_size :=
                     round_to_multiple total_image_size padding_size in
                   let padding_needed := padded_size - total_image_size in
                   output_write (PyStr (nul_str padding_needed))
                 else ret tt) ;;
          _ <-- sys_stdout_write msg_created ;;
          ret true
      end.

End WithExternals.
End Aftl.

(** ** Definitions used to state the properties *)

(** An image after a sequence of [add_icp_entry] calls. *)
Definition add_icp_entries (image : AftlImage.t)
           (entries : list AftlIcpEntry.t) : AftlImage.t :=
  fold_left AftlImage.add_icp_entry entries image.

(** The sum of the sizes of the entries. *)
Definition entries_size (entries : list AftlIcpEntry.t) : Z :=
  fold_right (fun e acc => AftlIcpEntry.get_expected_size e + acc) 0 entries.

(** An entry "verifies against" a key when [verify_vbmeta_image] returns
    [True] for it. *)
Definition entry_verifies `{Externals} (vbmeta_image : option bytes)
           (key : option string) (entry : AftlIcpEntry.t) : Prop :=
  AftlIcpEntry.verify_vbmeta_image entry vbmeta_image key = Ok true.

(** A value fits a format item when packing it neither pads nor truncates
    nor fails for its type. *)
Definition fits (i : Struct.item) (v : Struct.val) : Prop :=
  match i, v with
  | Struct.s n, Struct.VBytes b => Z.to_nat n = List.length b
  | Struct.s _, Struct.VInt _ => False
  | _, Struct.VInt z => 0 <= z < 256 ^ Z.of_nat (Struct.width i)
  | _, Struct.VBytes _ => False
  end.

(** The entry that [AftlIcpEntry()] builds, and its serialisation: the
    27-byte header (only the descriptor size, 29, is not zero) and the
    default descriptor (version 1, everything else zero). *)
Definition default_entry : AftlIcpEntry.t :=
  AftlIcpEntry.mk 0 "" TrillianLogRootDescriptor.default
                  (FirmwareInfoLeaf.mk [] (JDict [])) [] [].

Definition default_descriptor_bytes : bytes :=
  [x00; x01] ++ repeat x00 8 ++ [x00] ++ repeat x00 8 ++ repeat x00 8
    ++ [x00; x00].

Definition default_entry_bytes : bytes :=
  [x00; x00; x00; x00] ++ repeat x00 8 ++ [x00; x00; x00; x1d]
    ++ [x00; x00; x00; x00] ++ [x00; x00] ++ [x00] ++ [x00; x00; x00; x00]
    ++ default_descriptor_bytes.

(** The image that holds the default entry, as [encode] writes it under the
    test doubles (AVB version 1.2): 74 = 0x4a bytes, one entry. *)
Definition one_entry_image_bytes : bytes :=
  [x41; x46; x54; x4c] ++ [x00; x00; x00; x01] ++ [x00; x00; x00; x02]
    ++ [x00; x00; x00; x4a] ++ [x00; x01] ++ default_entry_bytes.

(** The same image with 130 = 0x82 in the size field. *)
Definition one_entry_image_reencoded : bytes :=
  [x41; x46; x54; x4c] ++ [x00; x00; x00; x01] ++ [x00; x00; x00; x02]
    ++ [x00; x00; x00; x82] ++ [x00; x01] ++ default_entry_bytes.

(** An entry whose header announces two proof hashes in five proof bytes:
    empty URL, default descriptor, empty leaf and signature. *)
Definition odd_proof_entry_bytes : bytes :=
  [x00; x00; x00; x00] ++ repeat x00 8 ++ [x00; x00; x00; x1d]
    ++ [x00; x00; x00; x00] ++ [x00; x00] ++ [x02] ++ [x00; x00; x00; x05]
    ++ default_descriptor_bytes ++ [x0a; x0b; x0c; x0d; x0e].

(** The five messages of [root_from_icp]. *)
Definition msg_leaf_index (leaf_index : Z) : string :=
  ("Invalid leaf_index value: " ++ str_of_int leaf_index)%string.

Definition msg_tree_size (tree_size : Z) : string :=
  ("Invalid tree_size value: " ++ str_of_int tree_size)%string.

Definition msg_beyond (leaf_index tree_size : Z) : string :=
  ("leaf_index cannot be equal or larger than tree_size: "
     ++ str_of_int leaf_index ++ ", " ++ str_of_int tree_size)%string.

Definition msg_no_proof : string := "Inclusion proof not provided."%string.

Definition msg_no_leaf_hash : string := "No leaf hash provided."%string.

(** One list is a subsequence of another: some of its elements, in their
    order. *)
Inductive subsequence {A : Type} : list A -> list A -> Prop :=
| subsequence_nil : subsequence [] []
| subsequence_skip (x : A) (l1 l2 : list A) :
    subsequence l1 l2 -> subsequence l1 (x :: l2)
| subsequence_take (x : A) (l1 l2 : list A) :
    subsequence l1 l2 -> subsequence (x :: l1) (x :: l2).

(** The two lines that the transport writes to the standard output when it
    sends a request to a log. *)
Definition transport_lines (c : Aftl.TransparencyLogConfig) : list string :=
  [Aftl.msg_preparing (Aftl.target c); Aftl.msg_requesting (Aftl.target c)].

(** What the requests for some logs leave behind: the output file is as it
    was; the logs that were sent a request are among the given ones, in
    their order, each one at most once; and the standard output has grown
    by lines of the transport for these logs only. *)
Definition only_requests (configs : list Aftl.TransparencyLogConfig)
           (w w' : Aftl.world) : Prop :=
  Aftl.output w' = Aftl.output w
  /\ (exists sent,
        Aftl.requests w' = Aftl.requests w ++ sent
        /\ subsequence sent configs)
  /\ (exists lines,
        Aftl.stdout w' = Aftl.stdout w ++ lines
        /\ Forall (fun line =>
                     exists c, In c configs /\ In line (transport_lines c))
                  lines).

(** Every one of the logs was sent a request, in order, and the transport
    wrote its two lines for each. *)
Definition all_requested (configs : list Aftl.TransparencyLogConfig)
           (w w' : Aftl.world) : Prop :=
  Aftl.requests w' = Aftl.requests w ++ configs
  /\ Aftl.stdout w' = Aftl.stdout w ++ flat_map transport_lines configs.

(** ** Test doubles

    Stand-ins for the external collaborators, for runs on concrete inputs:
    a digest that keeps the first 32 bytes of its input, a signature check
    that accepts everything, a JSON reader that sees the same leaf in every
    blob, and a Base64 decoder that returns the characters as they are. *)

Definition double_sha256 (data : bytes) : bytes :=
  firstn 32 (data ++ repeat x00 32).

Definition double_leaf_info : json :=
  JDict [("vbmeta_hash"%string, JStr "vbmeta of the double 0123456789.")].

Definition double_leaf_json : json :=
  JDict [("Value"%string,
          JDict [("FwInfo"%string,
                  JDict [("info"%string,
                          JDict [("info"%string, double_leaf_info)])])])].

#[local] Instance double_externals : Externals := {|
  sha256 := double_sha256;
  openssl_verify := fun _ _ _ => true;
  json_loads := fun _ => Ok double_leaf_json;
  b64decode := fun str => Ok (list_byte_of_string str);
  AVB_VERSION_MAJOR := 1;
  AVB_VERSION_MINOR := 2
|}.

(** A vbmeta image of 3080 bytes whose digest, under the test double, is
    the hash recorded in the leaf of the double. *)
Definition double_vbmeta : bytes :=
  list_byte_of_string "vbmeta of the double 0123456789." ++ repeat x00 3048.

Definition double_leaf_bytes : bytes := list_byte_of_string "{}".

(** The log root that the double of the log signs: version 1, a tree of one
    leaf whose root is the hash of that leaf, 61 bytes. *)
Definition double_log_root : bytes :=
  [x00; x01] ++ (repeat x00 7 ++ [x01]) ++ [x20]
    ++ double_sha256 (x00 :: double_leaf_bytes)
    ++ repeat x00 8 ++ repeat x00 8 ++ [x00; x00].

Definition double_response : AftlIcpEntry.AddFirmwareInfoResponse :=
  AftlIcpEntry.mkResponse double_leaf_bytes double_log_root
                          [x01; x02; x03; x04] 0 [].

Definition double_log : Aftl.TransparencyLogConfig :=
  Aftl.mkConfig "log:9000" (Some "log.pem"%string) None.

(** An image parser that finds [double_vbmeta], with or without a footer,
    a manufacturer key of the given size that signs with four bytes, and a
    log that answers [double_response]. *)
Definition double_collaborators_with_key (footer : option Aftl.AvbFooter)
           (num_bits : Z) : Aftl.Collaborators := {|
  Aftl.get_vbmeta_image := fun _ => (Some double_vbmeta, footer);
  Aftl.RSAPublicKey_num_bits := fun _ => Ok num_bits;
  Aftl.openssl_rsa_pubout := fun _ => ([x30; x82], [], 0);
  Aftl.SerializeToString := fun fw_info => Aftl.fi_vbmeta_hash fw_info;
  Aftl.RSAPublicKey_sign := fun _ _ _ _ _ => Ok [x05; x06; x07; x08];
  Aftl.import_grpc := Ok tt;
  Aftl.grpc_insecure_channel := fun _ => Ok tt;
  Aftl.stub_AddFirmwareInfo := fun _ _ _ _ => Ok double_response
|}.

Definition double_collaborators (footer : option Aftl.AvbFooter)
  : Aftl.Collaborators :=
  double_collaborators_with_key footer 4096.

(** Nothing requested or written yet; the output file is new. *)
Definition fresh_world : Aftl.world :=
  Aftl.mkWorld [] [] [] (Aftl.mkFile [] 0).

(** The run of the command on the doubles, with the given footer and
    padding. *)
Definition double_run (footer : option Aftl.AvbFooter) (padding_size : Z)
  : result bool * Aftl.world :=
  @Aftl.make_icp_from_vbmeta double_externals (double_collaborators footer)
    "vbmeta.img" None None "build-1" [double_log] "manufacturer.pem"
    padding_size 0 fresh_world.

(** ** A reference Merkle tree

    The tree of RFC 6962, section 2.1, which the docstrings of the Merkle
    functions refer to: the hash of a leaf is [rfc6962_hash_leaf] of its
    data, the hash of a node is [rfc6962_hash_children] of the hashes of
    its two subtrees, and the tree of [n > 1] leaves has for its left
    subtree the complete tree on the largest power of two smaller than [n]
    leaves.  It serves to state what [root_from_icp] computes. *)

Inductive mtree : Type :=
| MLeaf (data : bytes)
| MNode (l r : mtree).

(** The number of leaves. *)
Fixpoint msize (t : mtree) : Z :=
  match t with
  | MLeaf _ => 1
  | MNode l r => msize l + msize r
  end.

(** The complete trees of height [h]. *)
Fixpoint perfect (h : nat) (t : mtree) : Prop :=
  match h, t with
  | O, MLeaf _ => True
  | S h', MNode l r => perfect h' l /\ perfect h' r
  | _, _ => False
  end.

(** The shape of the tree of RFC 6962: on the left a complete tree, on the
    right a tree of the same shape that is not larger. *)
Fixpoint rfc6962_shape (t : mtree) : Prop :=
  match t with
  | MLeaf _ => True
  | MNode l r =>
      (exists h, perfect h l /\ msize r <= 2 ^ Z.of_nat h) /\ rfc6962_shape r
  end.

(** The data of leaf [m], counted from 0. *)
Fixpoint leaf_at (m : Z) (t : mtree) : bytes :=
  match t with
  | MLeaf data => data
  | MNode l r =>
      if m <? msize l then leaf_at m l else leaf_at (m - msize l) r
  end.

Section ReferenceTree.
Context `{Externals}.

(** The Merkle tree hash. *)
Fixpoint mth (t : mtree) : bytes :=
  match t with
  | MLeaf data => rfc6962_hash_leaf data
  | MNode l r => rfc6962_hash_children (mth l) (mth r)
  end.

(** The audit path of leaf [m]: the hashes of the siblings met on the way
    from the leaf up to the root. *)
Fixpoint audit_path (m : Z) (t : mtree) : list bytes :=
  match t with
  | MLeaf _ => []
  | MNode l r =>
      if m <? msize l
      then audit_path m l ++ [mth r]
      else audit_path (m - msize l) r ++ [mth l]
  end.

End ReferenceTree.

(** The tree of the three leaves [L0 .. L2]. *)
Definition three_leaves (L0 L1 L2 : bytes) : mtree :=
  MNode (MNode (MLeaf L0) (MLeaf L1)) (MLeaf L2).


(** A stricter stand-in for [json.loads], for runs on data that is not a
    leaf: it reads an empty object in [{}] and an empty list in [[]], and
    refuses anything else with the text of Python's decoder for data that
    does not start a JSON value. *)
Definition strict_json_loads (data : bytes) : result json :=
  if bytes_eqb data (list_byte_of_string "{}") then Ok (JDict [])
  else if bytes_eqb data (list_byte_of_string "[]") then Ok (JList [])
  else Raise (ValueError "Expecting value: line 1 column 1 (char 0)").

Definition strict_externals : Externals := {|
  sha256 := double_sha256;
  openssl_verify := fun _ _ _ => true;
  json_loads := strict_json_loads;
  b64decode := fun str => Ok (list_byte_of_string str);
  AVB_VERSION_MAJOR := 1;
  AVB_VERSION_MINOR := 2
|}.

(** The entry that the log of the doubles answers with, and the image that
    holds it. *)
Definition double_entry : AftlIcpEntry.t :=
  AftlIcpEntry.mk 0 "log:9000"
    (TrillianLogRootDescriptor.mk 1 1 32
       (double_sha256 (x00 :: double_leaf_bytes)) 0 0 0 [])
    (FirmwareInfoLeaf.mk double_leaf_bytes double_leaf_info)
    [x01; x02; x03; x04] [].

Definition double_image : AftlImage.t :=
  AftlImage.add_icp_entry
    (AftlImage.mk
       (AftlImageHeader.mk AftlImageHeader.MAGIC 1 2 AftlImageHeader.SIZE 0)
       [])
    double_entry.

(** The request that [request_inclusion_proof] builds from the vbmeta
    image, the version, the DER bytes of the manufacturer key and the
    signature over the firmware info. *)
Definition signed_request `{Externals} (vbmeta_image : bytes)
           (version_inc : string) (manufacturer_key_data signed : bytes)
  : Aftl.AddFirmwareInfoRequest :=
  Aftl.mkRequest vbmeta_image
    (Aftl.mkSignedFirmwareInfo
       (Aftl.mkFirmwareInfo (sha256 vbmeta_image) version_inc
                            (sha256 manufacturer_key_data))
       (Aftl.mkDigitallySigned "SHA256" "RSA" signed)).

(** The metadata that the transport sends along: the API key of the log,
    when it has one. *)
Definition request_metadata (c : Aftl.TransparencyLogConfig)
  : list (string * string) :=
  match Aftl.api_key c with
  | Some (String a k) => [("x-api-key"%string, String a k)]
  | _ => []
  end.

(** A [str] that [encode('ascii')] accepts. *)
Definition is_ascii (str : string) : bool :=
  forallb (fun x => Struct.Z_of_byte x <? 128) (list_byte_of_string str).

(** A [str] without a comma. *)
Fixpoint no_comma (str : string) : bool :=
  match str with
  | EmptyString => true
  | String c rest => negb (Ascii.eqb c ","%char) && no_comma rest
  end.

(** An entry that can be written and read back: it is valid, its fields
    fit the widths of the header, its URL is ASCII, its leaf is the leaf
    that its own bytes parse to, and its hashes all have the same size. *)
Definition round_trips `{Externals} (e : AftlIcpEntry.t) : Prop :=
  AftlIcpEntry.is_valid e = true
  /\ AftlIcpEntry.leaf_index e < 2 ^ 64
  /\ is_ascii (AftlIcpEntry.log_url e) = true
  /\ AftlIcpEntry.log_url_size e < 2 ^ 32
  /\ TrillianLogRootDescriptor.tree_size (AftlIcpEntry.log_root_descriptor e)
     < 2 ^ 64
  /\ TrillianLogRootDescriptor.timestamp (AftlIcpEntry.log_root_descriptor e)
     < 2 ^ 64
  /\ TrillianLogRootDescriptor.revision (AftlIcpEntry.log_root_descriptor e)
     < 2 ^ 64
  /\ FirmwareInfoLeaf.init
       (Some (FirmwareInfoLeaf.encode (AftlIcpEntry.fw_info_leaf e)))
     = Ok (AftlIcpEntry.fw_info_leaf e)
  /\ AftlIcpEntry.fw_info_leaf_size e < 2 ^ 32
  /\ AftlIcpEntry.log_root_sig_size e < 2 ^ 16
  /\ AftlIcpEntry.proof_hash_count e < 2 ^ 8
  /\ (exists hash_size,
        Forall (fun proof => len proof = hash_size) (AftlIcpEntry.proofs e))
  /\ AftlIcpEntry.inc_proof_size e < 2 ^ 32.

(** The bytes of an entry, and what makes them its bytes. *)
Definition entry_bytes `{Externals} (e : AftlIcpEntry.t) (b : bytes)
  : Prop :=
  AftlIcpEntry.is_valid e = true
  /\ AftlIcpEntry.encode e = Ok b
  /\ len b = AftlIcpEntry.get_expected_size e
  /\ forall rest, AftlIcpEntry.init (Some (b ++ rest)) = Ok e.

(** * Properties *)

(** ** Merkle primitives *)

Section MerkleProperties.
Context `{Externals}.

Lemma rfc6962_hash_leaf_eq (leaf : bytes) :
  rfc6962_hash_leaf leaf = sha256 (x00 :: leaf).
Proof. reflexivity. Qed.

Lemma rfc6962_hash_children_eq (l r : bytes) :
  rfc6962_hash_children l r = sha256 (x01 :: l ++ r).
Proof. reflexivity. Qed.

(** C1: for four leaves, the audit path of leaf 2 in the tree of size 4
    leads [root_from_icp] to the RFC 6962 root of the tree, the two hashers
    being SHA-256 over the input prefixed by 0x00 (leaf) or 0x01 (node). *)
Theorem root_from_icp_index_2_size_4 (L0 L1 L2 L3 : bytes) :
  root_from_icp 2 4
    (Some [rfc6962_hash_leaf L3;
           rfc6962_hash_children (rfc6962_hash_leaf L0) (rfc6962_hash_leaf L1)])
    (Some (rfc6962_hash_leaf L2))
  = Ok (rfc6962_hash_children
          (rfc6962_hash_children (rfc6962_hash_leaf L0) (rfc6962_hash_leaf L1))
          (rfc6962_hash_children (rfc6962_hash_leaf L2) (rfc6962_hash_leaf L3)))
  /\ (forall b, rfc6962_hash_leaf b = sha256 (x00 :: b))
  /\ (forall l r, rfc6962_hash_children l r = sha256 (x01 :: l ++ r)).
Proof.
  split; [reflexivity | split].
  - exact rfc6962_hash_leaf_eq.
  - exact rfc6962_hash_children_eq.
Qed.

Lemma root_from_icp_negative_index leaf_index tree_size proof leaf_hash :
  leaf_index < 0 ->
  root_from_icp leaf_index tree_size proof leaf_hash
  = Raise (AftlError (msg_leaf_index leaf_index)).
Proof.
  intros Hi. unfold root_from_icp.
  destruct (Z.ltb_spec leaf_index 0); [reflexivity | lia].
Qed.

Lemma root_from_icp_negative_size leaf_index tree_size proof leaf_hash :
  0 <= leaf_index -> tree_size < 0 ->
  root_from_icp leaf_index tree_size proof leaf_hash
  = Raise (AftlError (msg_tree_size tree_size)).
Proof.
  intros Hi Hn. unfold root_from_icp.
  destruct (Z.ltb_spec leaf_index 0); [lia |].
  destruct (Z.ltb_spec tree_size 0); [reflexivity | lia].
Qed.

Lemma root_from_icp_beyond leaf_index tree_size proof leaf_hash :
  0 <= leaf_index -> 0 <= tree_size -> tree_size <= leaf_index ->
  root_from_icp leaf_index tree_size proof leaf_hash
  = Raise (AftlError (msg_beyond leaf_index tree_size)).
Proof.
  intros Hi Hn Hle. unfold root_from_icp.
  destruct (Z.ltb_spec leaf_index 0); [lia |].
  destruct (Z.ltb_spec tree_size 0); [lia |].
  destruct (Z.geb_spec leaf_index tree_size); [reflexivity | lia].
Qed.

Lemma root_from_icp_in_range leaf_index tree_size proof leaf_hash :
  0 <= leaf_index < tree_size ->
  root_from_icp leaf_index tree_size proof leaf_hash
  = match proof with
    | None => Raise (AftlError msg_no_proof)
    | Some proof =>
        match leaf_hash with
        | None => Raise (AftlError msg_no_leaf_hash)
        | Some leaf_hash =>
            let inner := bit_length (Z.lxor leaf_index (tree_size - 1)) in
            Ok (chain_border_right
                  (chain_inner leaf_hash (slice_to inner proof) leaf_index)
                  (slice_from inner proof))
        end
    end.
Proof.
  intros Hi. unfold root_from_icp.
  destruct (Z.ltb_spec leaf_index 0); [lia |].
  destruct (Z.ltb_spec tree_size 0); [lia |].
  destruct (Z.geb_spec leaf_index tree_size); [lia | reflexivity].
Qed.

End MerkleProperties.

(** The messages are told apart by their first characters, whatever the
    numbers printed in them. *)
Lemma root_from_icp_messages_distinct (i n i' n' : Z) :
  msg_leaf_index i <> msg_tree_size n
  /\ msg_leaf_index i <> msg_beyond i' n'
  /\ msg_leaf_index i <> msg_no_proof
  /\ msg_leaf_index i <> msg_no_leaf_hash
  /\ msg_tree_size n <> msg_beyond i' n'
  /\ msg_tree_size n <> msg_no_proof
  /\ msg_tree_size n <> msg_no_leaf_hash
  /\ msg_beyond i' n' <> msg_no_proof
  /\ msg_beyond i' n' <> msg_no_leaf_hash
  /\ msg_no_proof <> msg_no_leaf_hash.
Proof.
  unfold msg_leaf_index, msg_tree_size, msg_beyond, msg_no_proof,
    msg_no_leaf_hash.
  repeat split; simpl; discriminate.
Qed.

(** C5, as the code has it: the preconditions are checked in the order
    [leaf_index < 0], [tree_size < 0], [leaf_index >= tree_size], proof
    missing, leaf hash missing, each with a message of its own; a
    [tree_size] of 0 is not rejected by the check on [tree_size] but by the
    comparison with [leaf_index]. *)
Theorem root_from_icp_validation `{Externals}
        (leaf_index tree_size : Z) (proof : list bytes) (leaf_hash : bytes) :
  (leaf_index < 0 ->
   forall p h, root_from_icp leaf_index tree_size p h
               = Raise (AftlError (msg_leaf_index leaf_index)))
  /\ (0 <= leaf_index -> tree_size < 0 ->
      forall p h, root_from_icp leaf_index tree_size p h
                  = Raise (AftlError (msg_tree_size tree_size)))
  /\ (0 <= leaf_index -> 0 <= tree_size -> tree_size <= leaf_index ->
      forall p h, root_from_icp leaf_index tree_size p h
                  = Raise (AftlError (msg_beyond leaf_index tree_size)))
  /\ (0 <= leaf_index < tree_size ->
      (forall h, root_from_icp leaf_index tree_size None h
                 = Raise (AftlError msg_no_proof))
      /\ root_from_icp leaf_index tree_size (Some proof) None
         = Raise (AftlError msg_no_leaf_hash)
      /\ exists root, root_from_icp leaf_index tree_size (Some proof)
                                    (Some leaf_hash) = Ok root)
  /\ (0 <= leaf_index ->
      forall p h, root_from_icp leaf_index 0 p h
                  = Raise (AftlError (msg_beyond leaf_index 0)))
  /\ (forall i n i' n',
        msg_leaf_index i <> msg_tree_size n
        /\ msg_leaf_index i <> msg_beyond i' n'
        /\ msg_leaf_index i <> msg_no_proof
        /\ msg_leaf_index i <> msg_no_leaf_hash
        /\ msg_tree_size n <> msg_beyond i' n'
        /\ msg_tree_size n <> msg_no_proof
        /\ msg_tree_size n <> msg_no_leaf_hash
        /\ msg_beyond i' n' <> msg_no_proof
        /\ msg_beyond i' n' <> msg_no_leaf_hash
        /\ msg_no_proof <> msg_no_leaf_hash).
Proof.
  split; [| split; [| split; [| split; [| split]]]].
  - intros. now apply root_from_icp_negative_index.
  - intros. now apply root_from_icp_negative_size.
  - intros. now apply root_from_icp_beyond.
  - intros Hi. split; [| split].
    + intros h. now rewrite root_from_icp_in_range.
    + now rewrite root_from_icp_in_range.
    + rewrite root_from_icp_in_range by assumption. eexists; reflexivity.
  - intros. apply root_from_icp_beyond; lia.
  - exact root_from_icp_messages_distinct.
Qed.

(** C5 as stated fails: with [tree_size = 0] and [leaf_index = 0] the error
    is the one of the comparison, not the one of the check on
    [tree_size]. *)
Lemma root_from_icp_tree_size_0_message :
  root_from_icp 0 0 (Some []) (Some [])
  = Raise (AftlError
             "leaf_index cannot be equal or larger than tree_size: 0, 0")
  /\ root_from_icp 0 0 (Some []) (Some [])
     <> Raise (AftlError "Invalid tree_size value: 0").
Proof. split; [reflexivity | discriminate]. Qed.

(** An instance of the validation theorem, at index 0 and sizes 0 and 1. *)
Lemma root_from_icp_validation_witness :
  (forall p h, root_from_icp 0 0 p h = Raise (AftlError (msg_beyond 0 0)))
  /\ exists root, root_from_icp 0 1 (Some []) (Some []) = Ok root.
Proof.
  split.
  - apply (proj1 (proj2 (proj2 (proj2 (proj2
             (root_from_icp_validation 0 0 [] [])))))). lia.
  - apply (proj1 (proj2 (proj2 (proj2
             (root_from_icp_validation 0 1 [] []))))). lia.
Defined.

(** ** Header invariants of an image under construction *)

Section ImageProperties.
Context `{Externals}.

Lemma default_header_valid :
  AftlImageHeader.is_valid
    (AftlImageHeader.mk AftlImageHeader.MAGIC AVB_VERSION_MAJOR
                        AVB_VERSION_MINOR AftlImageHeader.SIZE 0) = true.
Proof.
  unfold AftlImageHeader.is_valid; cbn.
  rewrite !Z.gtb_ltb, !Z.ltb_irrefl. reflexivity.
Qed.

Lemma empty_image_init :
  AftlImage.init None
  = Ok (AftlImage.mk
          (AftlImageHeader.mk AftlImageHeader.MAGIC AVB_VERSION_MAJOR
                              AVB_VERSION_MINOR AftlImageHeader.SIZE 0) []).
Proof.
  unfold AftlImage.init, AftlImageHeader.init.
  cbn [truthy Py.bind].
  rewrite default_header_valid. cbn [negb Py.bind].
  unfold AftlImage.is_valid.
  cbn [AftlImage.image_header AftlImage.icp_entries].
  rewrite default_header_valid. reflexivity.
Qed.

Lemma add_icp_entry_header image e :
  AftlImageHeader.icp_count (AftlImage.image_header (AftlImage.add_icp_entry image e))
  = AftlImageHeader.icp_count (AftlImage.image_header image) + 1
  /\ AftlImageHeader.aftl_image_size
       (AftlImage.image_header (AftlImage.add_icp_entry image e))
     = AftlImageHeader.aftl_image_size (AftlImage.image_header image)
       + AftlIcpEntry.get_expected_size e
  /\ AftlImage.icp_entries (AftlImage.add_icp_entry image e)
     = AftlImage.icp_entries image ++ [e].
Proof. repeat split. Qed.

Lemma entries_size_app es e :
  entries_size (es ++ [e]) = entries_size es + AftlIcpEntry.get_expected_size e.
Proof.
  induction es as [| x es IH]; cbn.
  - lia.
  - unfold entries_size in IH. rewrite IH. lia.
Qed.

(** The invariant is kept by each call of [add_icp_entry]. *)
Lemma add_icp_entries_invariant entries : forall image,
  let h := AftlImage.image_header image in
  let h' := AftlImage.image_header (add_icp_entries image entries) in
  AftlImageHeader.icp_count h' = AftlImageHeader.icp_count h + len entries
  /\ AftlImageHeader.aftl_image_size h'
     = AftlImageHeader.aftl_image_size h + entries_size entries
  /\ AftlImage.icp_entries (add_icp_entries image entries)
     = AftlImage.icp_entries image ++ entries.
Proof.
  induction entries as [| e es IH]; intros image.
  - cbn. unfold len; cbn. rewrite app_nil_r. repeat split; lia.
  - specialize (IH (AftlImage.add_icp_entry image e)).
    destruct IH as (Hc & Hs & He).
    destruct (add_icp_entry_header image e) as (Hc1 & Hs1 & He1).
    change (add_icp_entries image (e :: es))
      with (add_icp_entries (AftlImage.add_icp_entry image e) es).
    cbv zeta. rewrite Hc, Hs, He, Hc1, Hs1, He1.
    change (entries_size (e :: es))
      with (AftlIcpEntry.get_expected_size e + entries_size es).
    unfold len. cbn [List.length]. rewrite <- app_assoc.
    repeat split; lia.
Qed.

(** C9: the image constructed empty has count 0 and size 18, and after any
    sequence of [add_icp_entry] calls the header's count is the number of
    entries and its size is 18 plus the sum of the entries' sizes. *)
Theorem header_invariants_after_add (entries : list AftlIcpEntry.t) :
  exists empty,
    AftlImage.init None = Ok empty
    /\ AftlImage.icp_entries empty = []
    /\ AftlImageHeader.icp_count (AftlImage.image_header empty) = 0
    /\ AftlImageHeader.aftl_image_size (AftlImage.image_header empty) = 18
    /\ let image := add_icp_entries empty entries in
       AftlImage.icp_entries image = entries
       /\ AftlImageHeader.icp_count (AftlImage.image_header image)
          = len (AftlImage.icp_entries image)
       /\ AftlImageHeader.aftl_image_size (AftlImage.image_header image)
          = 18 + entries_size (AftlImage.icp_entries image).
Proof.
  eexists. split; [apply empty_image_init |].
  repeat split.
  all: destruct (add_icp_entries_invariant entries
         (AftlImage.mk
            (AftlImageHeader.mk AftlImageHeader.MAGIC AVB_VERSION_MAJOR
               AVB_VERSION_MINOR AftlImageHeader.SIZE 0) []))
       as (Hc & Hs & He); cbn in Hc, Hs, He.
  - exact He.
  - rewrite Hc, He. reflexivity.
  - rewrite Hs, He. reflexivity.
Qed.

End ImageProperties.

(** ** Early exits of the entry verifier *)

Section EntryVerifier.
Context `{Externals}.

(** C10: against an empty or missing vbmeta image an entry fails to verify
    whatever its proof and signature are, and [verify_icp] fails for an
    empty or missing key; neither the Merkle root nor the signature is
    looked at, so the answer is [False] even where they would raise. *)
Theorem verify_early_exits (entry : AftlIcpEntry.t) (key : option string) :
  AftlIcpEntry.verify_vbmeta_image entry None key = Ok false
  /\ AftlIcpEntry.verify_vbmeta_image entry (Some []) key = Ok false
  /\ AftlIcpEntry.verify_icp entry None = Ok false
  /\ AftlIcpEntry.verify_icp entry (Some ""%string) = Ok false.
Proof. repeat split. Qed.

End EntryVerifier.

(** ** Verification of an image *)

Section ImageVerifier.
Context `{Externals}.

(** Whether the verification of an entry raises does not depend on which
    key is tried: an entry that raises for one key verifies against none. *)
Lemma raise_for_one_key_true_for_none entry vbmeta_image key e :
  AftlIcpEntry.verify_vbmeta_image entry vbmeta_image key = Raise e ->
  forall key', ~ entry_verifies vbmeta_image key' entry.
Proof.
  unfold entry_verifies, AftlIcpEntry.verify_vbmeta_image,
    AftlIcpEntry.verify_icp.
  intros Hr key'.
  destruct (truthy vbmeta_image); cbn [negb] in *; [| discriminate].
  destruct (truthy_str key); cbn [negb Py.bind] in Hr; [| discriminate].
  destruct (truthy_str key'); cbn [negb Py.bind]; [| discriminate].
  destruct (root_from_icp _ _ _ _) as [calc_root | x];
    cbn [Py.bind] in *; [| discriminate].
  destruct (bytes_eqb calc_root _); cbn [Py.bind] in *; [| discriminate].
  destruct (TrillianLogRootDescriptor.encode _) as [encoded | x];
    cbn [Py.bind] in *; [| discriminate].
  destruct (check_signature encoded _ _); cbn [Py.bind] in Hr;
    [| discriminate].
  destruct (check_signature encoded _ _); cbn [Py.bind]; [| discriminate].
  destruct (FirmwareInfoLeaf.vbmeta_hash _) as [h | x]; cbn [Py.bind] in *;
    [| discriminate].
  destruct h; discriminate.
Qed.

Lemma verified_by_some_key_true entry vbmeta_image keys :
  AftlImage.verified_by_some_key entry vbmeta_image keys = Ok true
  <-> Exists (fun key => entry_verifies vbmeta_image key entry) keys.
Proof.
  induction keys as [| key keys IH]; cbn [AftlImage.verified_by_some_key].
  - split; [discriminate | intros Hex; inversion Hex].
  - destruct (AftlIcpEntry.verify_vbmeta_image entry vbmeta_image key)
      as [[|] | e] eqn:Hk; cbn [Py.bind].
    + split; [intros _; now constructor | reflexivity].
    + rewrite IH. split; [intros Hex; now constructor 2 |].
      intros Hex. inversion Hex as [? ? Hhd | ? ? Htl]; subst; [| exact Htl].
      unfold entry_verifies in Hhd. congruence.
    + split; [discriminate |].
      intros Hex. exfalso. apply Exists_exists in Hex.
      destruct Hex as (key' & _ & Hv).
      exact (raise_for_one_key_true_for_none _ _ _ _ Hk key' Hv).
Qed.

(** The counter never exceeds the number of entries seen, and reaches it
    only when each of them verified against some key. *)
Lemma count_verified_spec entries vbmeta_image keys : forall n,
  match AftlImage.count_verified entries vbmeta_image keys n with
  | Ok m =>
      n <= m <= n + len entries
      /\ (m = n + len entries
          <-> Forall (fun entry =>
                        Exists (fun key => entry_verifies vbmeta_image key entry)
                               keys) entries)
  | Raise _ =>
      ~ Forall (fun entry =>
                  Exists (fun key => entry_verifies vbmeta_image key entry)
                         keys) entries
  end.
Proof.
  induction entries as [| entry entries IH]; intros n;
    cbn [AftlImage.count_verified].
  - unfold len; cbn. split; [lia |]. split; [constructor | lia].
  - pose proof (verified_by_some_key_true entry vbmeta_image keys) as Hone.
    destruct (AftlImage.verified_by_some_key entry vbmeta_image keys)
      as [[|] | e]; cbn [Py.bind].
    + specialize (IH (n + 1)).
      destruct (AftlImage.count_verified entries vbmeta_image keys (n + 1))
        as [m | e'].
      * destruct IH as (Hb & Hiff). unfold len in *. cbn [List.length].
        split; [lia |]. split.
        -- intros Hm. constructor; [now apply Hone | apply Hiff; lia].
        -- intros Hall. inversion Hall; subst.
           assert (m = n + 1 + Z.of_nat (List.length entries))
             by now apply Hiff.
           lia.
      * intros Hall. inversion Hall; subst. now apply IH.
    + specialize (IH n).
      destruct (AftlImage.count_verified entries vbmeta_image keys n)
        as [m | e'].
      * destruct IH as (Hb & Hiff). unfold len in *. cbn [List.length].
        split; [lia |]. split.
        -- intros Hm. lia.
        -- intros Hall. inversion Hall as [| ? ? Hhd Htl]; subst.
           apply Hone in Hhd. discriminate.
      * intros Hall. inversion Hall; subst. now apply IH.
    + intros Hall. inversion Hall as [| ? ? Hhd Htl]; subst.
      apply Hone in Hhd. discriminate.
Qed.

(** C2: the image verifies exactly when there is at least one key, at least
    one entry, and every entry verifies against at least one of the keys;
    without keys or without entries the answer is [False]. *)
Theorem image_verifies_iff (image : AftlImage.t) (vbmeta_image : option bytes)
        (keys : list (option string)) :
  (AftlImage.verify_vbmeta_image image vbmeta_image (Some keys) = Ok true
   <-> keys <> []
       /\ AftlImage.icp_entries image <> []
       /\ Forall (fun entry =>
                    Exists (fun key => entry_verifies vbmeta_image key entry)
                           keys)
                 (AftlImage.icp_entries image))
  /\ (AftlImage.icp_entries image = [] ->
      forall ks, AftlImage.verify_vbmeta_image image vbmeta_image ks = Ok false)
  /\ AftlImage.verify_vbmeta_image image vbmeta_image (Some []) = Ok false
  /\ AftlImage.verify_vbmeta_image image vbmeta_image None = Ok false.
Proof.
  unfold AftlImage.verify_vbmeta_image.
  split; [split | split; [| split]].
  - destruct keys as [| key keys]; [discriminate |].
    destruct (AftlImage.icp_entries image) as [| entry entries] eqn:He;
      [discriminate |].
    cbn [truthy negb orb].
    pose proof (count_verified_spec (entry :: entries) vbmeta_image
                  (key :: keys) 0) as Hc.
    destruct (AftlImage.count_verified (entry :: entries) vbmeta_image
                (key :: keys) 0) as [m | e]; cbn [Py.bind];
      [| discriminate].
    intros Hm. injection Hm as Hm. apply Z.eqb_eq in Hm.
    repeat split; [discriminate | discriminate |].
    apply Hc. lia.
  - intros (Hk & He & Hall).
    destruct keys as [| key keys]; [congruence |].
    destruct (AftlImage.icp_entries image) as [| entry entries];
      [congruence |].
    cbn [truthy negb orb].
    pose proof (count_verified_spec (entry :: entries) vbmeta_image
                  (key :: keys) 0) as Hc.
    destruct (AftlImage.count_verified (entry :: entries) vbmeta_image
                (key :: keys) 0) as [m | e]; cbn [Py.bind].
    + destruct Hc as (_ & Hiff). apply Hiff in Hall.
      f_equal. apply Z.eqb_eq. lia.
    + contradiction.
  - intros He ks. rewrite He. cbn [truthy negb]. now rewrite orb_true_r.
  - reflexivity.
  - reflexivity.
Qed.

End ImageVerifier.

(** ** The [struct] formats: packing and unpacking are inverse *)

Section StructProperties.
Import Struct.

Lemma Z_of_byte_range b : 0 <= Z_of_byte b < 256.
Proof.
  unfold Z_of_byte. pose proof (Byte.to_N_bounded b). lia.
Qed.

Lemma Z_of_byte_of_Z z : 0 <= z < 256 -> Z_of_byte (byte_of_Z z) = z.
Proof.
  intros Hz. unfold Z_of_byte, byte_of_Z.
  destruct (Byte.of_N (Z.to_N z)) as [b |] eqn:Hb.
  - apply Byte.to_of_N in Hb. rewrite Hb. lia.
  - apply Byte.of_N_None_iff in Hb. lia.
Qed.

Lemma byte_of_Z_of_byte b : byte_of_Z (Z_of_byte b) = b.
Proof.
  unfold Z_of_byte, byte_of_Z. rewrite N2Z.id, Byte.of_to_N. reflexivity.
Qed.

Lemma be_bytes_length w : forall n, List.length (be_bytes w n) = w.
Proof.
  induction w as [| w IH]; intros n; cbn [be_bytes]; [reflexivity |].
  rewrite length_app, IH. cbn. lia.
Qed.

Lemma be_value_snoc b x :
  be_value (b ++ [x]) = be_value b * 256 + Z_of_byte x.
Proof. unfold be_value. rewrite fold_left_app. reflexivity. Qed.

Lemma be_value_be_bytes w : forall z,
  0 <= z < 256 ^ Z.of_nat w -> be_value (be_bytes w z) = z.
Proof.
  induction w as [| w IH]; intros z Hz.
  - cbn in *. lia.
  - cbn [be_bytes]. rewrite be_value_snoc.
    rewrite Nat2Z.inj_succ, Z.pow_succ_r in Hz by lia.
    rewrite IH.
    + rewrite Z_of_byte_of_Z by (apply Z.mod_pos_bound; lia).
      pose proof (Z.div_mod z 256). lia.
    + split; [apply Z.div_pos; lia |].
      apply Z.div_lt_upper_bound; lia.
Qed.

Lemma be_value_range b : 0 <= be_value b < 256 ^ Z.of_nat (List.length b).
Proof.
  induction b as [| x b IH] using rev_ind.
  - cbn. lia.
  - rewrite be_value_snoc, length_app. cbn [List.length].
    replace (Z.of_nat (List.length b + 1)) with (Z.succ (Z.of_nat (List.length b)))
      by lia.
    rewrite Z.pow_succ_r by lia.
    pose proof (Z_of_byte_range x). lia.
Qed.

Lemma be_bytes_be_value b : be_bytes (List.length b) (be_value b) = b.
Proof.
  induction b as [| x b IH] using rev_ind; [reflexivity |].
  rewrite length_app, be_value_snoc. cbn [List.length].
  rewrite Nat.add_comm. cbn [Nat.add be_bytes].
  pose proof (Z_of_byte_range x) as Hx.
  replace ((be_value b * 256 + Z_of_byte x) / 256) with (be_value b).
  - replace ((be_value b * 256 + Z_of_byte x) mod 256) with (Z_of_byte x).
    + rewrite IH, byte_of_Z_of_byte. reflexivity.
    + rewrite Z.add_comm, Z.mod_add by lia.
      symmetry. apply Z.mod_small. lia.
  - rewrite Z.add_comm, Z.div_add by lia.
    rewrite Z.div_small by lia. lia.
Qed.

Lemma pack_item_fits i v :
  fits i v ->
  exists b, pack_item i v = Ok b
            /\ List.length b = width i
            /\ unpack_item i b = v.
Proof.
  destruct i, v; cbn [fits]; intros Hf; try contradiction.
  5: { cbn [pack_item width]. eexists. split; [reflexivity |].
       rewrite Hf, Nat.sub_diag, firstn_all. cbn [repeat]. rewrite app_nil_r.
       split; reflexivity. }
  all: cbn [pack_item];
    match goal with
    | Hf : 0 <= ?z < ?bound |- _ =>
        replace (0 <=? z) with true by (symmetry; apply Z.leb_le; lia);
        replace (z <? bound) with true by (symmetry; apply Z.ltb_lt; lia)
    end;
    cbn [andb]; eexists; split; [reflexivity |];
    split; [apply be_bytes_length |];
    cbn [unpack_item]; now rewrite be_value_be_bytes.
Qed.

(** What [pack] wrote, [unpack] reads back. *)
Lemma pack_unpack fmt : forall vs,
  Forall2 fits fmt vs ->
  exists b, pack fmt vs = Ok b
            /\ List.length b = calcsize fmt
            /\ unpack fmt b = Ok vs.
Proof.
  unfold unpack.
  induction fmt as [| i fmt IH]; intros vs Hf;
    inversion Hf as [| ? v ? vs' Hhd Htl]; subst.
  - exists []. repeat split.
  - destruct (pack_item_fits _ _ Hhd) as (b1 & Hp1 & Hl1 & Hu1).
    destruct (IH _ Htl) as (b2 & Hp2 & Hl2 & Hu2).
    exists (b1 ++ b2). cbn [pack]. rewrite Hp1, Hp2. cbn [Py.bind].
    split; [reflexivity |].
    assert (Hlen : List.length (b1 ++ b2) = calcsize (i :: fmt))
      by (rewrite length_app; cbn [calcsize fold_right];
          fold (calcsize fmt); lia).
    split; [exact Hlen |].
    rewrite Hlen, Nat.eqb_refl. f_equal.
    cbn [unpack_from]. rewrite <- Hl1.
    rewrite firstn_app, Nat.sub_diag, firstn_all. cbn [firstn].
    rewrite app_nil_r, Hu1.
    rewrite skipn_app, Nat.sub_diag, skipn_all. cbn [skipn app].
    rewrite Hl2, Nat.eqb_refl in Hu2. now injection Hu2 as ->.
Qed.

Lemma unpack_item_fits i b :
  List.length b = width i -> (forall n, i = s n -> 0 <= n) ->
  fits i (unpack_item i b) /\ pack_item i (unpack_item i b) = Ok b.
Proof.
  intros Hl Hn.
  destruct i; cbn [unpack_item fits pack_item].
  5: { cbn [width] in Hl. split; [lia |].
       rewrite <- Hl, Nat.sub_diag, firstn_all. cbn [repeat].
       now rewrite app_nil_r. }
  all: pose proof (be_value_range b) as Hr; rewrite Hl in Hr;
    split; [exact Hr |];
    replace (0 <=? be_value b) with true by (symmetry; apply Z.leb_le; lia);
    match goal with
    | |- context [be_value ?x <? ?bound] =>
        replace (be_value x <? bound) with true
          by (symmetry; apply Z.ltb_lt; lia)
    end;
    cbn [andb]; rewrite <- Hl, be_bytes_be_value; reflexivity.
Qed.

(** What [unpack] read, [pack] writes back. *)
Lemma unpack_pack fmt : forall b vs,
  (forall n, In (s n) fmt -> 0 <= n) ->
  unpack fmt b = Ok vs -> pack fmt vs = Ok b.
Proof.
  unfold unpack.
  induction fmt as [| i fmt IH]; intros b vs Hn Hu.
  - destruct b; [| discriminate]. injection Hu as <-. reflexivity.
  - cbn [calcsize fold_right] in Hu. fold (calcsize fmt) in Hu.
    destruct (Nat.eqb_spec (List.length b) (width i + calcsize fmt));
      [| discriminate].
    injection Hu as <-. cbn [unpack_from pack].
    assert (Hl1 : List.length (firstn (width i) b) = width i)
      by (rewrite length_firstn; lia).
    destruct (unpack_item_fits i (firstn (width i) b) Hl1) as (_ & ->).
    { intros n ->. apply Hn. now left. }
    cbn [Py.bind].
    rewrite (IH (skipn (width i) b) (unpack_from fmt (skipn (width i) b))).
    + cbn [Py.bind]. now rewrite firstn_skipn.
    + intros n Hin. apply Hn. now right.
    + rewrite length_skipn.
      replace (List.length b - width i)%nat with (calcsize fmt) by lia.
      now rewrite Nat.eqb_refl.
Qed.

End StructProperties.

(** ** Exceptions that escape the entry verifier *)

Section EntryVerifierRaises.
Context `{Externals}.

(** C4, where the code departs from it: for a key that is not empty, an
    entry whose leaf index is not below the tree size of its descriptor
    makes [verify_icp] raise the [AftlError] of [root_from_icp] instead of
    returning [False], and so does [verify_vbmeta_image] for a vbmeta image
    that is not empty. *)
Theorem verify_icp_raises_beyond_tree_size
        (entry : AftlIcpEntry.t) (key : option string) :
  truthy_str key = true ->
  0 <= AftlIcpEntry.leaf_index entry ->
  0 <= TrillianLogRootDescriptor.tree_size
         (AftlIcpEntry.log_root_descriptor entry)
    <= AftlIcpEntry.leaf_index entry ->
  let error :=
    AftlError (msg_beyond (AftlIcpEntry.leaf_index entry)
                 (TrillianLogRootDescriptor.tree_size
                    (AftlIcpEntry.log_root_descriptor entry))) in
  AftlIcpEntry.verify_icp entry key = Raise error
  /\ forall vbmeta_image,
       truthy vbmeta_image = true ->
       AftlIcpEntry.verify_vbmeta_image entry vbmeta_image key = Raise error.
Proof.
  intros Hk Hi Hn error.
  assert (Hicp : AftlIcpEntry.verify_icp entry key = Raise error).
  { unfold AftlIcpEntry.verify_icp. rewrite Hk. cbn [negb].
    rewrite root_from_icp_beyond by lia. reflexivity. }
  split; [exact Hicp |].
  intros vbmeta_image Hv. unfold AftlIcpEntry.verify_vbmeta_image.
  rewrite Hv, Hicp. reflexivity.
Qed.

End EntryVerifierRaises.

(** The entry that [AftlIcpEntry()] builds has leaf index 0 in a tree of
    size 0: verifying it against a key raises. *)
Lemma verify_icp_raises_witness :
  AftlIcpEntry.init None = Ok default_entry
  /\ AftlIcpEntry.verify_icp default_entry (Some "log.pem"%string)
     = Raise (AftlError
                "leaf_index cannot be equal or larger than tree_size: 0, 0")
  /\ AftlIcpEntry.verify_vbmeta_image default_entry (Some [x00])
                                      (Some "log.pem"%string)
     = Raise (AftlError
                "leaf_index cannot be equal or larger than tree_size: 0, 0").
Proof.
  split; [reflexivity |].
  assert (Hk : truthy_str (Some "log.pem"%string) = true) by reflexivity.
  assert (Hi : 0 <= AftlIcpEntry.leaf_index default_entry) by (cbn; lia).
  assert (Hn : 0 <= TrillianLogRootDescriptor.tree_size
                      (AftlIcpEntry.log_root_descriptor default_entry)
               <= AftlIcpEntry.leaf_index default_entry) by (cbn; lia).
  destruct (verify_icp_raises_beyond_tree_size default_entry
              (Some "log.pem"%string) Hk Hi Hn) as [Hicp Hvb].
  split; [exact Hicp |].
  apply Hvb. reflexivity.
Defined.

(** ** Parsing an image and serialising it again *)

Section ImageRoundTrip.
Context `{Externals}.

Lemma parse_entries_adds_sizes n : forall i data icp_index self image,
  AftlImage.parse_entries n i data icp_index self = Ok image ->
  exists entries,
    AftlImage.icp_entries image = AftlImage.icp_entries self ++ entries
    /\ List.length entries = n
    /\ AftlImageHeader.aftl_image_size (AftlImage.image_header image)
       = AftlImageHeader.aftl_image_size (AftlImage.image_header self)
         + entries_size entries.
Proof.
  induction n as [| n IH]; intros i data icp_index self image;
    cbn [AftlImage.parse_entries].
  - intros [= <-]. exists []. rewrite app_nil_r. cbn. repeat split. lia.
  - destruct (AftlIcpEntry.init _) as [entry | e]; cbn [Py.bind];
      [| discriminate].
    destruct (negb (AftlIcpEntry.is_valid entry)); [discriminate |].
    intros Hp. apply IH in Hp. destruct Hp as (entries & He & Hl & Hs).
    destruct (add_icp_entry_header self entry) as (_ & Hs1 & He1).
    exists (entry :: entries). rewrite He, He1, Hs, Hs1, <- app_assoc.
    cbn [app List.length entries_size fold_right].
    fold (entries_size entries). repeat split; lia.
Qed.

(** The size that a parsed image carries in its header is the size read
    from the data plus the sizes of all the entries: [add_icp_entry] adds
    them to the size that already counted them. *)
Lemma parsed_image_size data image :
  AftlImage.init (Some data) = Ok image ->
  data <> [] ->
  exists header,
    AftlImageHeader.init (Some (slice 0 AftlImageHeader.SIZE data)) = Ok header
    /\ AftlImageHeader.aftl_image_size (AftlImage.image_header image)
       = AftlImageHeader.aftl_image_size header
         + entries_size (AftlImage.icp_entries image).
Proof.
  intros Hinit Hdata. unfold AftlImage.init in Hinit.
  destruct data as [| b data]; [congruence |]. cbn [truthy] in Hinit.
  destruct (AftlImageHeader.init _) as [header | e]; cbn [Py.bind] in Hinit;
    [| discriminate].
  exists header. split; [reflexivity |].
  destruct (negb (AftlImageHeader.is_valid header)); cbn [Py.bind] in Hinit;
    [discriminate |].
  destruct (AftlImage.parse_entries _ _ _ _ _) as [parsed | e] eqn:Hp;
    cbn [Py.bind] in Hinit; [| discriminate].
  destruct (negb (AftlImage.is_valid parsed)); [discriminate |].
  injection Hinit as <-.
  apply parse_entries_adds_sizes in Hp.
  destruct Hp as (entries & He & _ & Hs).
  cbn in He, Hs. rewrite He, Hs. reflexivity.
Qed.

End ImageRoundTrip.

(** C3, where the code departs from it: the 74 bytes that the tool writes
    for the image holding one default entry parse, but serialise again with
    130 in the size field instead of 74, so the round trip is not the
    identity on them. *)
Theorem image_round_trip_changes_size :
  AftlImage.encode
    (AftlImage.add_icp_entry
       (AftlImage.mk (AftlImageHeader.mk AftlImageHeader.MAGIC 1 2 18 0) [])
       default_entry)
  = Ok one_entry_image_bytes
  /\ AftlIcpEntry.get_expected_size default_entry = 56
  /\ (image <- AftlImage.init (Some one_entry_image_bytes) ;;
      Ok (AftlImageHeader.aftl_image_size (AftlImage.image_header image),
          AftlImage.icp_entries image))
     = Ok (130, [default_entry])
  /\ (image <- AftlImage.init (Some one_entry_image_bytes) ;;
      AftlImage.encode image)
     = Ok one_entry_image_reencoded
  /\ one_entry_image_reencoded <> one_entry_image_bytes.
Proof.
  repeat split; try (vm_compute; reflexivity).
  vm_compute. discriminate.
Qed.

(** ** The log root descriptor: parse, then serialise *)

Section DescriptorRoundTrip.
Import Struct.

Lemma firstn_plus {A} (a b : nat) : forall l : list A,
  firstn (a + b) l = firstn a l ++ firstn b (skipn a l).
Proof.
  induction a as [| a IH]; intros l; [reflexivity |].
  destruct l as [| x l]; cbn [Nat.add firstn skipn app].
  - now rewrite firstn_nil.
  - now rewrite IH.
Qed.

Lemma slice_length {A} (lo hi : Z) (l : list A) :
  0 <= lo <= hi -> hi <= len l -> len (slice lo hi l) = hi - lo.
Proof.
  unfold len, slice. intros Hlo Hhi.
  rewrite length_firstn, length_skipn. lia.
Qed.

Lemma slice_app {A} (a b c : Z) (l : list A) :
  0 <= a <= b -> b <= c ->
  slice a b l ++ slice b c l = slice a c l.
Proof.
  unfold slice. intros Hab Hbc.
  replace (Z.to_nat b) with (Z.to_nat (b - a) + Z.to_nat a)%nat by lia.
  rewrite <- skipn_skipn.
  replace (Z.to_nat (c - a)) with (Z.to_nat (b - a) + Z.to_nat (c - b))%nat
    by lia.
  rewrite firstn_plus. reflexivity.
Qed.

Lemma slice_of_slice_from {A} (k lo hi : Z) (l : list A) :
  0 <= k -> 0 <= lo ->
  slice lo hi (slice_from k l) = slice (k + lo) (k + hi) l.
Proof.
  unfold slice, slice_from. intros Hk Hlo.
  rewrite skipn_skipn. f_equal; [lia |]. f_equal. lia.
Qed.

Lemma slice_from_twice {A} (k j : Z) (l : list A) :
  0 <= k -> 0 <= j ->
  slice_from j (slice_from k l) = slice_from (k + j) l.
Proof.
  unfold slice_from. intros Hk Hj. rewrite skipn_skipn. f_equal. lia.
Qed.

Lemma slice_empty {A} (lo : Z) (l : list A) : slice lo lo l = [].
Proof. unfold slice. now rewrite Z.sub_diag. Qed.

(** An integer-only format packs only values that fit. *)
Lemma pack_ints_fit fmt : forall vs b,
  (forall n, ~ In (s n) fmt) ->
  pack fmt vs = Ok b -> Forall2 fits fmt vs.
Proof.
  induction fmt as [| i fmt IH]; intros vs b Hs Hp.
  - destruct vs; [constructor | discriminate].
  - destruct vs as [| v vs]; [discriminate |]. cbn [pack] in Hp.
    destruct (pack_item i v) as [b1 |] eqn:Hi; cbn [Py.bind] in Hp;
      [| discriminate].
    destruct (pack fmt vs) as [b2 |] eqn:Hr; cbn [Py.bind] in Hp;
      [| discriminate].
    constructor.
    + destruct i, v; cbn [pack_item] in Hi; try discriminate; cbn [fits].
      5: { exfalso. apply (Hs n). now left. }
      all: match type of Hi with
           | (if (0 <=? ?z) && (?z <? ?bound) then _ else _) = _ =>
               destruct (Z.leb_spec 0 z); [| discriminate];
               destruct (Z.ltb_spec z bound); [| discriminate]
           end; lia.
    + apply (IH vs b2); [| exact Hr].
      intros n Hin. apply (Hs n). now right.
Qed.

Lemma pack_length fmt : forall vs b,
  pack fmt vs = Ok b -> List.length vs = List.length fmt.
Proof.
  induction fmt as [| i fmt IH]; intros [| v vs] b Hp; try discriminate;
    [reflexivity |].
  cbn [pack] in Hp.
  destruct (pack_item i v); cbn [Py.bind] in Hp; [| discriminate].
  destruct (pack fmt vs) eqn:Hr; cbn [Py.bind] in Hp; [| discriminate].
  cbn [List.length]. f_equal. exact (IH _ _ Hr).
Qed.

Lemma pack_app f1 : forall f2 v1 v2 b1 b2,
  pack f1 v1 = Ok b1 -> pack f2 v2 = Ok b2 ->
  pack (f1 ++ f2) (v1 ++ v2) = Ok (b1 ++ b2).
Proof.
  induction f1 as [| i f1 IH]; intros f2 [| v v1] v2 b1 b2 H1 H2;
    try discriminate.
  - now injection H1 as <-.
  - cbn [pack app] in *.
    destruct (pack_item i v); cbn [Py.bind] in *; [| discriminate].
    destruct (pack f1 v1) eqn:Hr; cbn [Py.bind] in H1; [| discriminate].
    injection H1 as <-.
    rewrite (IH f2 v1 v2 _ _ Hr H2). cbn [Py.bind].
    now rewrite app_assoc.
Qed.

Lemma pack_bytes (b : bytes) : pack [s (len b)] [VBytes b] = Ok b.
Proof.
  cbn [pack pack_item]. unfold len.
  rewrite Nat2Z.id, Nat.sub_diag, firstn_all. cbn [repeat Py.bind].
  now rewrite !app_nil_r.
Qed.

Lemma descriptor_init_valid data d :
  TrillianLogRootDescriptor.init data = Ok d ->
  TrillianLogRootDescriptor.is_valid d = true.
Proof.
  unfold TrillianLogRootDescriptor.init.
  destruct (if truthy data then _ else _) as [self | e]; cbn [Py.bind];
    [| discriminate].
  destruct (TrillianLogRootDescriptor.is_valid self) eqn:Hv; cbn [negb];
    [| discriminate].
  now intros [= <-].
Qed.

(** The fields of a descriptor that was parsed from [data]. *)
Lemma descriptor_parse_fields data version tree_size rhs root_hash timestamp
      revision msz metadata :
  TrillianLogRootDescriptor.parse data
  = Ok (TrillianLogRootDescriptor.mk version tree_size rhs root_hash
          timestamp revision msz metadata) ->
  0 <= rhs /\ 0 <= msz
  /\ pack TrillianLogRootDescriptor.FORMAT_STRING_PART_1
          [VInt version; VInt tree_size; VInt rhs]
     = Ok (slice 0 11 data)
  /\ root_hash = slice 11 (11 + rhs) data
  /\ pack TrillianLogRootDescriptor.FORMAT_STRING_PART_2
          [VInt timestamp; VInt revision; VInt msz]
     = Ok (slice (11 + rhs) (11 + rhs + 18) data)
  /\ metadata = slice (11 + rhs + 18) (11 + rhs + 18 + msz) data.
Proof.
  unfold TrillianLogRootDescriptor.parse.
  change (Z.of_nat (calcsize TrillianLogRootDescriptor.FORMAT_STRING_PART_1))
    with 11.
  change (Z.of_nat (calcsize TrillianLogRootDescriptor.FORMAT_STRING_PART_2))
    with 18.
  assert (Hs1 : forall k,
             ~ In (s k) TrillianLogRootDescriptor.FORMAT_STRING_PART_1).
  { intros k Hin. cbn in Hin.
    repeat (destruct Hin as [Hin | Hin]; [discriminate |]). exact Hin. }
  assert (Hs2 : forall k,
             ~ In (s k) TrillianLogRootDescriptor.FORMAT_STRING_PART_2).
  { intros k Hin. cbn in Hin.
    repeat (destruct Hin as [Hin | Hin]; [discriminate |]). exact Hin. }
  destruct (unpack TrillianLogRootDescriptor.FORMAT_STRING_PART_1
              (slice 0 11 data)) as [vs1 |] eqn:Hu1; cbn [Py.bind];
    [| discriminate].
  apply unpack_pack in Hu1; [| intros k Hin; now apply Hs1 in Hin].
  destruct vs1 as [| [version' |] [| [tree_size' |] [| [rhs' |] [|]]]];
    try discriminate.
  assert (Hrhs : 0 <= rhs').
  { apply pack_ints_fit in Hu1; [| exact Hs1].
    inversion Hu1 as [| ? ? ? ? _ Ht]; subst.
    inversion Ht as [| ? ? ? ? _ Ht']; subst.
    inversion Ht' as [| ? ? ? ? Hf _]; subst. cbn [fits] in Hf. lia. }
  set (rest1 := if rhs' >? 0 then _ else _).
  assert (Hrest1 : rest1 = (slice 11 (11 + rhs') data,
                            slice_from (11 + rhs') data)).
  { subst rest1. destruct (Z.gtb_spec rhs' 0).
    - rewrite slice_of_slice_from, slice_from_twice by lia.
      repeat f_equal; lia.
    - replace rhs' with 0 by lia. rewrite Z.add_0_r, slice_empty.
      reflexivity. }
  rewrite Hrest1. clear Hrest1 rest1.
  rewrite slice_of_slice_from by lia. rewrite Z.add_0_r.
  destruct (unpack TrillianLogRootDescriptor.FORMAT_STRING_PART_2 _)
    as [vs2 |] eqn:Hu2; cbn [Py.bind]; [| discriminate].
  apply unpack_pack in Hu2; [| intros k Hin; now apply Hs2 in Hin].
  destruct vs2 as [| [timestamp' |] [| [revision' |] [| [msz' |] [|]]]];
    try discriminate.
  assert (Hmsz : 0 <= msz').
  { apply pack_ints_fit in Hu2; [| exact Hs2].
    inversion Hu2 as [| ? ? ? ? _ Ht]; subst.
    inversion Ht as [| ? ? ? ? _ Ht']; subst.
    inversion Ht' as [| ? ? ? ? Hf _]; subst. cbn [fits] in Hf. lia. }
  remember (11 + rhs') as offset eqn:Hoffset.
  intros [= <- <- <- <- <- <- <- <-]. subst offset.
  split; [exact Hrhs |]. split; [exact Hmsz |]. split; [exact Hu1 |].
  split; [reflexivity |]. split; [exact Hu2 |].
  destruct (Z.gtb_spec msz' 0).
  - rewrite slice_from_twice, slice_of_slice_from by lia.
    f_equal; lia.
  - replace msz' with 0 by lia. now rewrite Z.add_0_r, slice_empty.
Qed.

(** A descriptor that was parsed from [data] serialises to the first
    [get_expected_size()] bytes of [data]: to [data] itself when nothing
    follows the descriptor in it. *)
Lemma descriptor_round_trip data d :
  TrillianLogRootDescriptor.init (Some data) = Ok d ->
  data <> [] ->
  TrillianLogRootDescriptor.encode d
  = Ok (slice_to (TrillianLogRootDescriptor.get_expected_size d) data)
  /\ (len data = TrillianLogRootDescriptor.get_expected_size d ->
      TrillianLogRootDescriptor.encode d = Ok data).
Proof.
  intros Hinit Hdata.
  assert (Hvalid := descriptor_init_valid _ _ Hinit).
  unfold TrillianLogRootDescriptor.init in Hinit.
  destruct data as [| x data]; [congruence |]. cbn [truthy] in Hinit.
  destruct (TrillianLogRootDescriptor.parse (x :: data)) as [d' |] eqn:Hp;
    cbn [Py.bind] in Hinit; [| discriminate].
  destruct (negb (TrillianLogRootDescriptor.is_valid d'));
    [discriminate |]. injection Hinit as Heq. subst d'.
  destruct d as [version tree_size rhs root_hash timestamp revision msz
                    metadata].
  destruct (descriptor_parse_fields _ _ _ _ _ _ _ _ _ Hp)
    as (Hrhs & Hmsz & Hp1 & Hroot & Hp2 & Hmeta).
  cbn [TrillianLogRootDescriptor.root_hash_size
         TrillianLogRootDescriptor.metadata_size
         TrillianLogRootDescriptor.version
         TrillianLogRootDescriptor.tree_size
         TrillianLogRootDescriptor.root_hash
         TrillianLogRootDescriptor.timestamp
         TrillianLogRootDescriptor.revision
         TrillianLogRootDescriptor.metadata] in *.
  set (data0 := x :: data) in *.
  assert (Hlens : len root_hash = rhs /\ len metadata = msz).
  { unfold TrillianLogRootDescriptor.is_valid in Hvalid.
    cbn [TrillianLogRootDescriptor.root_hash_size
           TrillianLogRootDescriptor.metadata_size
           TrillianLogRootDescriptor.version
           TrillianLogRootDescriptor.tree_size
           TrillianLogRootDescriptor.root_hash
           TrillianLogRootDescriptor.timestamp
           TrillianLogRootDescriptor.revision
           TrillianLogRootDescriptor.metadata] in Hvalid.
    repeat match type of Hvalid with
           | (if ?c then false else _) = true =>
               destruct c eqn:?; [discriminate |]
           end.
    split; apply Z.eqb_eq;
      match goal with
      | H : negb (?a =? ?b) = false |- (?a =? ?b) = true =>
          now destruct (a =? b)
      end. }
  destruct Hlens as (Hlroot & Hlmeta).
  assert (Henc :
            TrillianLogRootDescriptor.encode
              (TrillianLogRootDescriptor.mk version tree_size rhs root_hash
                 timestamp revision msz metadata)
            = Ok (slice_to (11 + rhs + 18 + msz) data0)).
  { unfold TrillianLogRootDescriptor.encode. rewrite Hvalid. cbn [negb].
    cbn [TrillianLogRootDescriptor.root_hash_size
           TrillianLogRootDescriptor.metadata_size
           TrillianLogRootDescriptor.version
           TrillianLogRootDescriptor.tree_size
           TrillianLogRootDescriptor.root_hash
           TrillianLogRootDescriptor.timestamp
           TrillianLogRootDescriptor.revision
           TrillianLogRootDescriptor.metadata].
    assert (Hproot : pack [s rhs] [VBytes root_hash] = Ok root_hash)
      by (rewrite <- Hlroot; apply pack_bytes).
    assert (Hpmeta : pack [s msz] [VBytes metadata] = Ok metadata)
      by (rewrite <- Hlmeta; apply pack_bytes).
    pose proof (pack_app _ _ [VInt version; VInt tree_size; VInt rhs]
                  _ _ _ Hp1
                  (pack_app _ _ [VBytes root_hash] _ _ _ Hproot
                     (pack_app _ _ [VInt timestamp; VInt revision; VInt msz]
                        [VBytes metadata] _ _ Hp2 Hpmeta))) as Hpk.
    cbn [app] in Hpk. cbn [app]. rewrite Hpk.
    f_equal. rewrite Hroot, Hmeta.
    rewrite !slice_app by lia.
    unfold slice, slice_to. cbn [skipn Z.to_nat]. f_equal. lia. }
  change (TrillianLogRootDescriptor.get_expected_size
            (TrillianLogRootDescriptor.mk version tree_size rhs root_hash
               timestamp revision msz metadata))
    with (11 + rhs + 18 + msz).
  split; [exact Henc |].
  intros Hlen. rewrite Henc. f_equal. unfold slice_to.
  rewrite <- Hlen. unfold len. rewrite Nat2Z.id. apply firstn_all.
Qed.

End DescriptorRoundTrip.

(** ** Parsing an entry: the proof bytes *)

Section EntryParsing.
Import Struct.
Context `{Ext : Externals}.

Lemma split_proofs_length n : forall idx hs pb,
  List.length (AftlIcpEntry.split_proofs n idx hs pb) = n.
Proof.
  induction n as [| n IH]; intros; cbn; [reflexivity | now rewrite IH].
Qed.

Lemma split_proofs_sizes n : forall idx hs pb,
  0 <= idx -> 0 <= hs -> idx + Z.of_nat n * hs <= len pb ->
  Forall (fun proof => len proof = hs) (AftlIcpEntry.split_proofs n idx hs pb).
Proof.
  induction n as [| n IH]; intros idx hs pb Hi Hh Hb;
    cbn [AftlIcpEntry.split_proofs]; constructor.
  - rewrite slice_length; lia.
  - apply IH; lia.
Qed.

Lemma split_proofs_concat n : forall idx hs pb,
  0 <= idx -> 0 <= hs ->
  List.concat (AftlIcpEntry.split_proofs n idx hs pb)
  = slice idx (idx + Z.of_nat n * hs) pb.
Proof.
  induction n as [| n IH]; intros idx hs pb Hi Hh;
    cbn [AftlIcpEntry.split_proofs List.concat].
  - unfold slice. replace (idx + Z.of_nat 0 * hs - idx) with 0 by lia.
    reflexivity.
  - rewrite IH by lia. rewrite slice_app by lia. f_equal. lia.
Qed.

Lemma pack_payloads (a b c d e : bytes) :
  pack [s (len a); s (len b); s (len c); s (len d); s (len e)]
       [VBytes a; VBytes b; VBytes c; VBytes d; VBytes e]
  = Ok (a ++ b ++ c ++ d ++ e).
Proof.
  cbn [pack pack_item]. unfold len.
  rewrite !Nat2Z.id, !Nat.sub_diag, !firstn_all. cbn [repeat Py.bind].
  rewrite !app_nil_r. reflexivity.
Qed.

Lemma unpack_payloads (a b c d e : bytes) :
  unpack [s (len a); s (len b); s (len c); s (len d); s (len e)]
         (a ++ b ++ c ++ d ++ e)
  = Ok [VBytes a; VBytes b; VBytes c; VBytes d; VBytes e].
Proof.
  destruct (pack_unpack
              [s (len a); s (len b); s (len c); s (len d); s (len e)]
              [VBytes a; VBytes b; VBytes c; VBytes d; VBytes e])
    as (x & Hp & _ & Hu).
  { repeat constructor; cbn [fits]; unfold len; now rewrite Nat2Z.id. }
  rewrite pack_payloads in Hp. now injection Hp as <-.
Qed.

(** Parsing an entry laid out as header, payloads and further bytes. *)
Lemma entry_parse_layout
      (leaf_index n : Z) (header url_bytes descriptor_bytes leaf_bytes
       signature proof_bytes rest : bytes)
      (url : string) (descriptor : TrillianLogRootDescriptor.t)
      (leaf : FirmwareInfoLeaf.t) :
  pack AftlIcpEntry.FORMAT_STRING
       [VInt (len url_bytes); VInt leaf_index; VInt (len descriptor_bytes);
        VInt (len leaf_bytes); VInt (len signature); VInt n;
        VInt (len proof_bytes)] = Ok header ->
  AftlIcpEntry.decode_ascii url_bytes = Ok url ->
  TrillianLogRootDescriptor.init (Some descriptor_bytes) = Ok descriptor ->
  FirmwareInfoLeaf.init (Some leaf_bytes) = Ok leaf ->
  AftlIcpEntry.init
    (Some (header ++ (url_bytes ++ descriptor_bytes ++ leaf_bytes
                        ++ signature ++ proof_bytes) ++ rest))
  = Ok (AftlIcpEntry.mk leaf_index url descriptor leaf signature
          (if n >? 0
           then AftlIcpEntry.split_proofs (Z.to_nat n) 0
                  (len proof_bytes / n) proof_bytes
           else []))
  /\ 0 <= leaf_index /\ 0 <= n /\ List.length header = 27%nat.
Proof.
  intros Hpack Hurl Hdesc Hleaf.
  assert (Hints : forall k, ~ In (s k) AftlIcpEntry.FORMAT_STRING).
  { intros k Hin. cbn in Hin.
    repeat (destruct Hin as [Hin | Hin]; [discriminate |]). exact Hin. }
  assert (Hfits := pack_ints_fit _ _ _ Hints Hpack).
  destruct (pack_unpack _ _ Hfits) as (header' & Hpack' & Hlen & Hunpack).
  rewrite Hpack in Hpack'. injection Hpack' as <-.
  change (calcsize AftlIcpEntry.FORMAT_STRING) with 27%nat in Hlen.
  assert (Hli : 0 <= leaf_index).
  { inversion Hfits as [| ? ? ? ? _ Ht]; subst.
    inversion Ht as [| ? ? ? ? Hq _]; subst. cbn [fits] in Hq. lia. }
  assert (Hn : 0 <= n).
  { do 5 (inversion Hfits as [| ? ? ? ? _ Ht]; subst; clear Hfits;
          rename Ht into Hfits).
    inversion Hfits as [| ? ? ? ? Hq _]; subst. cbn [fits] in Hq. lia. }
  split; [| split; [| split]; assumption].
  set (payload := url_bytes ++ descriptor_bytes ++ leaf_bytes
                    ++ signature ++ proof_bytes) in *.
  unfold AftlIcpEntry.init.
  assert (Htruthy : truthy (Some (header ++ payload ++ rest)) = true).
  { destruct header; [discriminate Hlen | reflexivity]. }
  rewrite Htruthy. unfold AftlIcpEntry.parse.
  assert (Hslice0 : slice 0 AftlIcpEntry.SIZE (header ++ payload ++ rest)
                    = header).
  { unfold slice. cbn [skipn Z.to_nat]. change (Z.to_nat _) with 27%nat.
    rewrite <- Hlen, firstn_app, Nat.sub_diag, firstn_all. cbn [firstn].
    apply app_nil_r. }
  rewrite Hslice0, Hunpack. cbn [Py.bind].
  assert (Hslice1 :
            slice AftlIcpEntry.SIZE
              (AftlIcpEntry.SIZE + len url_bytes + len descriptor_bytes
               + len leaf_bytes + len signature + len proof_bytes)
              (header ++ payload ++ rest) = payload).
  { unfold slice. change (Z.to_nat AftlIcpEntry.SIZE) with 27%nat.
    rewrite <- Hlen, skipn_app, Nat.sub_diag, skipn_all. cbn [skipn app].
    replace (Z.to_nat _) with (List.length payload).
    - rewrite firstn_app, Nat.sub_diag, firstn_all. cbn [firstn].
      apply app_nil_r.
    - subst payload. rewrite !length_app. unfold len, AftlIcpEntry.SIZE.
      lia. }
  rewrite Hslice1. subst payload. rewrite unpack_payloads. cbn [Py.bind].
  rewrite Hurl, Hdesc, Hleaf. cbn [Py.bind].
  unfold AftlIcpEntry.is_valid. cbn [AftlIcpEntry.leaf_index
    AftlIcpEntry.log_root_descriptor].
  replace (leaf_index <? 0) with false by (symmetry; apply Z.ltb_ge; lia).
  rewrite (descriptor_init_valid _ _ Hdesc). reflexivity.
Qed.

(** What a header that unpacks says about the input: the packed form of the
    fields is the first 27 bytes, and no size is negative. *)
Lemma entry_header_fields
      (data : bytes)
      (url_size leaf_index descriptor_size leaf_size signature_size n
       proof_size : Z) :
  unpack AftlIcpEntry.FORMAT_STRING (slice 0 AftlIcpEntry.SIZE data)
  = Ok [VInt url_size; VInt leaf_index; VInt descriptor_size;
        VInt leaf_size; VInt signature_size; VInt n; VInt proof_size] ->
  pack AftlIcpEntry.FORMAT_STRING
       [VInt url_size; VInt leaf_index; VInt descriptor_size;
        VInt leaf_size; VInt signature_size; VInt n; VInt proof_size]
  = Ok (slice 0 27 data)
  /\ 27 <= len data
  /\ 0 <= url_size /\ 0 <= descriptor_size /\ 0 <= leaf_size
  /\ 0 <= signature_size /\ 0 <= proof_size.
Proof.
  intros Hunpack. unfold AftlIcpEntry.SIZE in Hunpack.
  assert (Hints : forall k, ~ In (s k) AftlIcpEntry.FORMAT_STRING).
  { intros k Hin. cbn in Hin.
    repeat (destruct Hin as [Hin | Hin]; [discriminate |]). exact Hin. }
  assert (Hpack := unpack_pack _ _ _
                     (fun k Hin => match Hints k Hin return 0 <= k with end)
                     Hunpack).
  assert (Hfits := pack_ints_fit _ _ _ Hints Hpack).
  split; [exact Hpack |]. split.
  - unfold unpack in Hunpack.
    destruct (Nat.eqb_spec (List.length (slice 0 27 data))
                (calcsize AftlIcpEntry.FORMAT_STRING)) as [E |];
      [| discriminate].
    change (calcsize AftlIcpEntry.FORMAT_STRING) with 27%nat in E.
    unfold slice in E. rewrite length_firstn in E. cbn [skipn Z.to_nat] in E.
    unfold len. lia.
  - inversion Hfits as [| ? ? ? ? H1 T1]; subst.
    inversion T1 as [| ? ? ? ? H2 T2]; subst.
    inversion T2 as [| ? ? ? ? H3 T3]; subst.
    inversion T3 as [| ? ? ? ? H4 T4]; subst.
    inversion T4 as [| ? ? ? ? H5 T5]; subst.
    inversion T5 as [| ? ? ? ? H6 T6]; subst.
    inversion T6 as [| ? ? ? ? H7 T7]; subst.
    cbn [fits] in *. lia.
Qed.

(** A list is its first bytes, a middle part and what follows. *)
Lemma slice_three_parts {A} (a b : Z) (l : list A) :
  0 <= a <= b ->
  l = slice 0 a l ++ slice a b l ++ slice_from b l.
Proof.
  intros Hab. unfold slice, slice_from. cbn [Z.to_nat skipn].
  rewrite Z.sub_0_r.
  replace (Z.to_nat b) with (Z.to_nat (b - a) + Z.to_nat a)%nat by lia.
  rewrite <- skipn_skipn, firstn_skipn, firstn_skipn. reflexivity.
Qed.

(** C6, as the code has it: the parser does not compare the size of the
    proofs with the number of hashes.  Take any input whose first 27 bytes
    unpack to a header with [n > 0] hashes announced, and let the expected
    size be 27 plus the five sizes of the header.  An input shorter than
    the expected size raises [struct.error].  An input that is not shorter
    - with a URL that is ASCII, and a descriptor and a leaf that their own
    parsers accept - parses, whatever the number of proof bytes, into [n]
    hashes of [floor(size / n)] bytes each, which together are the first
    [n * floor(size / n)] proof bytes; the others are dropped. *)
Theorem entry_parse_splits_proof_bytes
        (data : bytes)
        (url_size leaf_index descriptor_size leaf_size signature_size n
         proof_size : Z)
        (url : string) (descriptor : TrillianLogRootDescriptor.t)
        (leaf : FirmwareInfoLeaf.t) :
  unpack AftlIcpEntry.FORMAT_STRING (slice 0 AftlIcpEntry.SIZE data)
  = Ok [VInt url_size; VInt leaf_index; VInt descriptor_size;
        VInt leaf_size; VInt signature_size; VInt n; VInt proof_size] ->
  0 < n ->
  let url_end := AftlIcpEntry.SIZE + url_size in
  let descriptor_end := url_end + descriptor_size in
  let leaf_end := descriptor_end + leaf_size in
  let signature_end := leaf_end + signature_size in
  let expected_size := signature_end + proof_size in
  (len data < expected_size ->
   AftlIcpEntry.init (Some data) = Raise StructError)
  /\ (expected_size <= len data ->
      AftlIcpEntry.decode_ascii (slice AftlIcpEntry.SIZE url_end data)
      = Ok url ->
      TrillianLogRootDescriptor.init
        (Some (slice url_end descriptor_end data)) = Ok descriptor ->
      FirmwareInfoLeaf.init (Some (slice descriptor_end leaf_end data))
      = Ok leaf ->
      let proof_bytes := slice signature_end expected_size data in
      let hash_size := proof_size / n in
      let proofs :=
        AftlIcpEntry.split_proofs (Z.to_nat n) 0 hash_size proof_bytes in
      AftlIcpEntry.init (Some data)
      = Ok (AftlIcpEntry.mk leaf_index url descriptor leaf
              (slice leaf_end signature_end data) proofs)
      /\ len proof_bytes = proof_size
      /\ len proofs = n
      /\ Forall (fun proof => len proof = hash_size) proofs
      /\ List.concat proofs = slice_to (n * hash_size) proof_bytes).
Proof.
  intros Hunpack Hn. cbv zeta.
  destruct (entry_header_fields _ _ _ _ _ _ _ _ Hunpack)
    as (Hpack & H27 & Hu & Hd & Hl & Hs & Hp).
  unfold AftlIcpEntry.SIZE in *.
  assert (Htruthy : truthy (Some data) = true).
  { destruct data; [unfold len in H27; cbn in H27; lia | reflexivity]. }
  split.
  - intros Hshort. unfold AftlIcpEntry.init. rewrite Htruthy.
    unfold AftlIcpEntry.parse, AftlIcpEntry.SIZE. rewrite Hunpack.
    cbn [Py.bind]. unfold unpack at 1.
    match goal with
    | |- context [(?a =? ?b)%nat] =>
        destruct (Nat.eqb_spec a b) as [E | _]; [| reflexivity]
    end.
    exfalso. unfold slice in E. rewrite length_firstn, length_skipn in E.
    cbn [calcsize fold_right width] in E. unfold len in *. lia.
  - intros Hlong Hurl Hdesc Hleaf.
    assert (Hsplit :
              data
              = slice 0 27 data
                  ++ (slice 27 (27 + url_size) data
                        ++ slice (27 + url_size)
                             (27 + url_size + descriptor_size) data
                        ++ slice (27 + url_size + descriptor_size)
                             (27 + url_size + descriptor_size + leaf_size)
                             data
                        ++ slice (27 + url_size + descriptor_size + leaf_size)
                             (27 + url_size + descriptor_size + leaf_size
                              + signature_size) data
                        ++ slice (27 + url_size + descriptor_size + leaf_size
                                  + signature_size)
                             (27 + url_size + descriptor_size + leaf_size
                              + signature_size + proof_size) data)
                  ++ slice_from (27 + url_size + descriptor_size + leaf_size
                                 + signature_size + proof_size) data).
    { rewrite !slice_app by lia. apply slice_three_parts. lia. }
    assert (Hplen : len (slice (27 + url_size + descriptor_size + leaf_size
                                + signature_size)
                           (27 + url_size + descriptor_size + leaf_size
                            + signature_size + proof_size) data)
                    = proof_size)
      by (rewrite slice_length by lia; lia).
    assert (Hpack' :
              pack AftlIcpEntry.FORMAT_STRING
                [VInt (len (slice 27 (27 + url_size) data));
                 VInt leaf_index;
                 VInt (len (slice (27 + url_size)
                              (27 + url_size + descriptor_size) data));
                 VInt (len (slice (27 + url_size + descriptor_size)
                              (27 + url_size + descriptor_size + leaf_size)
                              data));
                 VInt (len (slice
                              (27 + url_size + descriptor_size + leaf_size)
                              (27 + url_size + descriptor_size + leaf_size
                               + signature_size) data));
                 VInt n;
                 VInt (len (slice (27 + url_size + descriptor_size
                                   + leaf_size + signature_size)
                              (27 + url_size + descriptor_size + leaf_size
                               + signature_size + proof_size) data))]
              = Ok (slice 0 27 data)).
    { rewrite !slice_length by lia.
      replace (27 + url_size - 27) with url_size by lia.
      replace (27 + url_size + descriptor_size - (27 + url_size))
        with descriptor_size by lia.
      replace (27 + url_size + descriptor_size + leaf_size
               - (27 + url_size + descriptor_size)) with leaf_size by lia.
      replace (27 + url_size + descriptor_size + leaf_size + signature_size
               - (27 + url_size + descriptor_size + leaf_size))
        with signature_size by lia.
      replace (27 + url_size + descriptor_size + leaf_size + signature_size
               + proof_size
               - (27 + url_size + descriptor_size + leaf_size
                  + signature_size)) with proof_size by lia.
      exact Hpack. }
    destruct (entry_parse_layout _ _ _ _ _ _ _ _
                (slice_from (27 + url_size + descriptor_size + leaf_size
                             + signature_size + proof_size) data)
                _ _ _ Hpack' Hurl Hdesc Hleaf) as (Hinit & _ & _ & _).
    rewrite <- Hsplit in Hinit. rewrite Hplen in Hinit.
    replace (n >? 0) with true in Hinit by (symmetry; apply Z.gtb_lt; lia).
    assert (Hhs : 0 <= proof_size / n) by (apply Z.div_pos; lia).
    assert (Hmul : n * (proof_size / n) <= proof_size)
      by (apply Z.mul_div_le; lia).
    split; [exact Hinit |]. split; [exact Hplen |]. split; [| split].
    + unfold len. rewrite split_proofs_length. lia.
    + apply split_proofs_sizes; lia.
    + rewrite split_proofs_concat by lia.
      unfold slice at 1. unfold slice_to. cbn [skipn Z.to_nat]. f_equal. lia.
Qed.

Lemma string_of_list_byte_length (b : bytes) :
  String.length (string_of_list_byte b) = List.length b.
Proof.
  unfold string_of_list_byte.
  induction b as [| x b IH]; cbn; [reflexivity | now rewrite IH].
Qed.

Lemma decode_ascii_encode b url :
  AftlIcpEntry.decode_ascii b = Ok url ->
  AftlIcpEntry.encode_ascii url = Ok b
  /\ Z.of_nat (String.length url) = len b.
Proof.
  unfold AftlIcpEntry.decode_ascii, AftlIcpEntry.encode_ascii.
  destruct (forallb _ b) eqn:Hascii; [| discriminate].
  intros [= <-]. rewrite list_byte_of_string_of_list_byte, Hascii.
  split; [reflexivity |].
  unfold len. now rewrite string_of_list_byte_length.
Qed.

Lemma leaf_init_bytes data leaf :
  FirmwareInfoLeaf.init (Some data) = Ok leaf ->
  FirmwareInfoLeaf.encode leaf = data
  /\ FirmwareInfoLeaf.get_expected_size leaf = len data.
Proof.
  unfold FirmwareInfoLeaf.init.
  assert (Hsize : forall d j,
             FirmwareInfoLeaf.get_expected_size (FirmwareInfoLeaf.mk d j)
             = len d).
  { intros [| x d] j; reflexivity. }
  destruct data as [| x data]; cbn [truthy].
  - cbn. intros [= <-]. split; reflexivity.
  - destruct (_ <- json_loads (x :: data) ;; _) as [d | e]; cbn [Py.bind].
    + destruct (FirmwareInfoLeaf.is_valid _) as [[|] |]; cbn [Py.bind negb];
        try discriminate.
      intros [= <-]. split; [reflexivity | apply Hsize].
    + destruct e; cbn [Py.bind]; discriminate.
Qed.

Lemma inc_proof_size_concat (proofs : list bytes) : forall acc,
  fold_left (fun result proof => result + len proof) proofs acc
  = acc + len (List.concat proofs).
Proof.
  induction proofs as [| p proofs IH]; intros acc; cbn [fold_left List.concat].
  - unfold len. cbn. lia.
  - rewrite IH. unfold len. rewrite length_app. lia.
Qed.

(** An entry whose header tells the truth - the descriptor fills its
    payload, and the proof bytes divide evenly among the hashes announced -
    parses and serialises again to the bytes it was read from. *)
Lemma entry_round_trip
      (leaf_index n : Z) (header url_bytes descriptor_bytes leaf_bytes
       signature proof_bytes rest : bytes)
      (url : string) (descriptor : TrillianLogRootDescriptor.t)
      (leaf : FirmwareInfoLeaf.t) :
  pack AftlIcpEntry.FORMAT_STRING
       [VInt (len url_bytes); VInt leaf_index; VInt (len descriptor_bytes);
        VInt (len leaf_bytes); VInt (len signature); VInt n;
        VInt (len proof_bytes)] = Ok header ->
  AftlIcpEntry.decode_ascii url_bytes = Ok url ->
  TrillianLogRootDescriptor.init (Some descriptor_bytes) = Ok descriptor ->
  FirmwareInfoLeaf.init (Some leaf_bytes) = Ok leaf ->
  len descriptor_bytes
  = TrillianLogRootDescriptor.get_expected_size descriptor ->
  n * (len proof_bytes / n) = len proof_bytes ->
  exists entry,
    AftlIcpEntry.init
      (Some (header ++ (url_bytes ++ descriptor_bytes ++ leaf_bytes
                          ++ signature ++ proof_bytes) ++ rest))
    = Ok entry
    /\ AftlIcpEntry.encode entry
       = Ok (header ++ url_bytes ++ descriptor_bytes ++ leaf_bytes
               ++ signature ++ proof_bytes)
    /\ AftlIcpEntry.get_expected_size entry
       = len (header ++ url_bytes ++ descriptor_bytes ++ leaf_bytes
                ++ signature ++ proof_bytes).
Proof.
  intros Hpack Hurl Hdesc Hleaf Hexact Hdiv.
  destruct (entry_parse_layout _ _ _ _ _ _ _ _ rest _ _ _
              Hpack Hurl Hdesc Hleaf) as (Hinit & Hli & Hn & Hlen).
  eexists. split; [exact Hinit |].
  set (proofs := if n >? 0 then _ else _).
  assert (Hconcat : List.concat proofs = proof_bytes
                    /\ len proofs = n).
  { subst proofs. destruct (Z.gtb_spec n 0).
    - rewrite split_proofs_concat
        by (try apply Z.div_pos; unfold len; lia).
      unfold len at 2. rewrite split_proofs_length. split; [| lia].
      unfold slice. cbn [skipn Z.to_nat].
      replace (Z.to_nat _) with (List.length proof_bytes)
        by (unfold len in *; lia).
      apply firstn_all.
    - assert (n = 0) by lia. subst n. split; [| reflexivity].
      cbn. destruct proof_bytes; [reflexivity |].
      unfold len in Hdiv. cbn [List.length] in Hdiv. lia. }
  destruct Hconcat as (Hconcat & Hcount).
  destruct (decode_ascii_encode _ _ Hurl) as (Hencurl & Hurllen).
  destruct (leaf_init_bytes _ _ Hleaf) as (Hleafenc & Hleaflen).
  assert (Hdescne : descriptor_bytes <> []).
  { intros ->. cbn in Hdesc. injection Hdesc as <-. discriminate Hexact. }
  destruct (descriptor_round_trip _ _ Hdesc Hdescne) as (_ & Hdescenc).
  specialize (Hdescenc Hexact).
  assert (Hsizes :
            AftlIcpEntry.log_url_size
              (AftlIcpEntry.mk leaf_index url descriptor leaf signature proofs)
            = len url_bytes
            /\ AftlIcpEntry.log_root_descriptor_size
                 (AftlIcpEntry.mk leaf_index url descriptor leaf signature
                    proofs) = len descriptor_bytes
            /\ AftlIcpEntry.fw_info_leaf_size
                 (AftlIcpEntry.mk leaf_index url descriptor leaf signature
                    proofs) = len leaf_bytes
            /\ AftlIcpEntry.inc_proof_size
                 (AftlIcpEntry.mk leaf_index url descriptor leaf signature
                    proofs) = len proof_bytes).
  { unfold AftlIcpEntry.log_url_size, AftlIcpEntry.log_root_descriptor_size,
      AftlIcpEntry.fw_info_leaf_size, AftlIcpEntry.inc_proof_size.
    cbn [AftlIcpEntry.log_url AftlIcpEntry.log_root_descriptor
           AftlIcpEntry.fw_info_leaf AftlIcpEntry.proofs].
    rewrite inc_proof_size_concat, Hconcat.
    repeat split; first [assumption | now symmetry | lia]. }
  destruct Hsizes as (Hs1 & Hs2 & Hs3 & Hs4).
  split.
  - unfold AftlIcpEntry.encode.
    unfold AftlIcpEntry.is_valid at 1.
    cbn [AftlIcpEntry.leaf_index AftlIcpEntry.log_root_descriptor].
    replace (leaf_index <? 0) with false by (symmetry; apply Z.ltb_ge; lia).
    rewrite (descriptor_init_valid _ _ Hdesc). cbn [negb].
    rewrite Hs1, Hs2, Hs3, Hs4.
    unfold AftlIcpEntry.log_root_sig_size, AftlIcpEntry.proof_hash_count.
    cbn [AftlIcpEntry.log_url AftlIcpEntry.log_root_descriptor
           AftlIcpEntry.fw_info_leaf AftlIcpEntry.proofs
           AftlIcpEntry.log_root_signature AftlIcpEntry.leaf_index].
    rewrite Hencurl, Hdescenc, Hleafenc, Hconcat, Hcount. cbn [Py.bind].
    pose proof (pack_app _ _ _ _ _ _ Hpack
                  (pack_payloads url_bytes descriptor_bytes leaf_bytes
                     signature proof_bytes)) as Hpk.
    cbn [app] in Hpk. exact Hpk.
  - unfold AftlIcpEntry.get_expected_size.
    rewrite Hs1, Hs2, Hs3, Hs4.
    unfold AftlIcpEntry.log_root_sig_size.
    cbn [AftlIcpEntry.log_root_signature].
    unfold len. rewrite !length_app, Hlen. unfold AftlIcpEntry.SIZE. lia.
Qed.

End EntryParsing.

(** C6 as stated fails: five proof bytes for two hashes give a hash size of
    two, of which five is not a multiple, and the entry parses: two hashes
    of two bytes, the fifth byte dropped. *)
Lemma odd_proof_size_parses :
  AftlIcpEntry.init (Some odd_proof_entry_bytes)
  = Ok (AftlIcpEntry.mk 0 "" TrillianLogRootDescriptor.default
          (FirmwareInfoLeaf.mk [] (JDict [])) []
          [[x0a; x0b]; [x0c; x0d]])
  /\ 5 / 2 = 2 /\ 5 mod 2 <> 0.
Proof. repeat split; vm_compute; discriminate. Qed.

(** The theorem at the same entry, followed by one byte that is not its
    own: it parses as above; cut one proof byte short, it does not parse. *)
Lemma entry_parse_splits_proof_bytes_witness :
  AftlIcpEntry.init (Some (odd_proof_entry_bytes ++ [xff]))
  = Ok (AftlIcpEntry.mk 0 "" TrillianLogRootDescriptor.default
          (FirmwareInfoLeaf.mk [] (JDict [])) []
          [[x0a; x0b]; [x0c; x0d]])
  /\ AftlIcpEntry.init (Some (firstn 60 odd_proof_entry_bytes))
     = Raise StructError.
Proof.
  assert (Hn : 0 < 2) by lia.
  split.
  - pose proof (entry_parse_splits_proof_bytes
                  (odd_proof_entry_bytes ++ [xff]) 0 0 29 0 0 2 5
                  ""%string TrillianLogRootDescriptor.default
                  (FirmwareInfoLeaf.mk [] (JDict []))
                  eq_refl Hn) as Hw.
    cbv zeta in Hw. destruct Hw as [_ Hlong].
    assert (Hsize : 27 + 0 + 29 + 0 + 0 + 5
                    <= len (odd_proof_entry_bytes ++ [xff]))
      by (vm_compute; discriminate).
    exact (proj1 (Hlong Hsize eq_refl eq_refl eq_refl)).
  - pose proof (entry_parse_splits_proof_bytes
                  (firstn 60 odd_proof_entry_bytes) 0 0 29 0 0 2 5
                  ""%string TrillianLogRootDescriptor.default
                  (FirmwareInfoLeaf.mk [] (JDict []))
                  eq_refl Hn) as Hw.
    cbv zeta in Hw. destruct Hw as [Hshort _].
    apply Hshort. vm_compute. reflexivity.
Defined.

(** ** The orchestrator *)

Section Orchestrator.
Import Aftl.
Context `{Ext : Externals} `{Col : Collaborators}.

Lemma subsequence_refl {A} (l : list A) : subsequence l l.
Proof. induction l; constructor; assumption. Qed.

Lemma subsequence_empty {A} (l : list A) : subsequence [] l.
Proof. induction l; constructor; assumption. Qed.

Lemma subsequence_app {A} (s1 l1 : list A) :
  subsequence s1 l1 ->
  forall s2 l2, subsequence s2 l2 -> subsequence (s1 ++ s2) (l1 ++ l2).
Proof.
  induction 1; intros s2 t2 H2; cbn [app];
    [assumption | apply subsequence_skip; auto
     | apply subsequence_take; auto].
Qed.

Lemma only_requests_none configs w w' :
  output w' = output w -> requests w' = requests w ->
  stdout w' = stdout w -> only_requests configs w w'.
Proof.
  intros Ho Hr Hs. split; [exact Ho |]. split.
  - exists []. rewrite app_nil_r. split; [exact Hr | apply subsequence_empty].
  - exists []. rewrite app_nil_r. split; [exact Hs | constructor].
Qed.

Lemma only_requests_preparing c w w' :
  output w' = output w -> requests w' = requests w ->
  stdout w' = stdout w ++ [msg_preparing (target c)] ->
  only_requests [c] w w'.
Proof.
  intros Ho Hr Hs. split; [exact Ho |]. split.
  - exists []. rewrite app_nil_r. split; [exact Hr | apply subsequence_empty].
  - eexists. split; [exact Hs |]. repeat constructor.
    exists c. split; [now left | now left].
Qed.

Lemma all_requested_only configs w w' :
  output w' = output w -> all_requested configs w w' ->
  only_requests configs w w'.
Proof.
  intros Ho [Hr Hs]. split; [exact Ho |]. split.
  - exists configs. split; [exact Hr | apply subsequence_refl].
  - eexists. split; [exact Hs |].
    apply Forall_forall. intros line Hin.
    apply in_flat_map in Hin. exact Hin.
Qed.


Lemma all_requested_stderr configs w w' msg :
  all_requested configs w w' -> all_requested configs w (write_stderr w' msg).
Proof. intros H. exact H. Qed.

(** The traces of one request and of the requests that follow, together. *)
Lemma only_requests_cons c rest w w1 w2 :
  only_requests [c] w w1 -> only_requests rest w1 w2 ->
  only_requests (c :: rest) w w2.
Proof.
  intros (Ho1 & (s1 & Hr1 & Hs1) & (l1 & Hl1 & Hf1))
         (Ho2 & (s2 & Hr2 & Hs2) & (l2 & Hl2 & Hf2)).
  split; [congruence |]. split.
  - exists (s1 ++ s2). split.
    + rewrite Hr2, Hr1. now rewrite app_assoc.
    + exact (subsequence_app _ _ Hs1 _ _ Hs2).
  - exists (l1 ++ l2). split.
    + rewrite Hl2, Hl1. now rewrite app_assoc.
    + apply Forall_app. split.
      * eapply Forall_impl; [| exact Hf1].
        intros line (c' & [<- | []] & Hin).
        exists c. split; [now left | exact Hin].
      * eapply Forall_impl; [| exact Hf2].
        intros line (c' & Hc & Hin). exists c'. split; [now right | exact Hin].
Qed.

Lemma all_requested_cons c rest w w1 w2 :
  all_requested [c] w w1 -> all_requested rest w1 w2 ->
  all_requested (c :: rest) w w2.
Proof.
  intros [Hr1 Hs1] [Hr2 Hs2]. split.
  - rewrite Hr2, Hr1, <- app_assoc. reflexivity.
  - rewrite Hs2, Hs1, <- app_assoc. cbn [flat_map app].
    rewrite app_nil_r. reflexivity.
Qed.

(** The transport: a request is recorded when the RPC is called, after the
    two lines were written; a response means that it was called. *)
Lemma add_firmware_info_world c timeout request w :
  let rw := add_firmware_info c timeout request w in
  only_requests [c] w (snd rw)
  /\ stderr (snd rw) = stderr w
  /\ (forall response, fst rw = Ok response -> all_requested [c] w (snd rw)).
Proof.
  cbv zeta.
  assert (Hsent : forall w',
             output w' = output w -> requests w' = requests w ++ [c] ->
             stdout w' = (stdout w ++ [msg_preparing (target c)])
                           ++ [msg_requesting (target c)] ->
             all_requested [c] w w').
  { intros w' _ Hr Hs. split; [exact Hr |].
    rewrite Hs, <- app_assoc. reflexivity. }
  unfold add_firmware_info, bindM, lift, ret, sys_stdout_write.
  destruct import_grpc as [[] | e].
  2: { destruct e; cbn [fst snd];
         (split; [now apply only_requests_none |]);
         (split; [reflexivity | discriminate]). }
  destruct (grpc_insecure_channel (target c)) as [[] | e].
  2: { cbn [fst snd].
       split; [now apply only_requests_preparing |].
       split; [reflexivity | discriminate]. }
  destruct (stub_AddFirmwareInfo _ _ _ _) as [response | e].
  - cbn [fst snd]. split; [| split; [reflexivity |]].
    + apply all_requested_only; [reflexivity |]. now apply Hsent.
    + intros _ _. now apply Hsent.
  - destruct e; cbn [fst snd];
      (split; [apply all_requested_only; [reflexivity |]; now apply Hsent |]);
      (split; [reflexivity | discriminate]).
Qed.

(** [request_inclusion_proof] with the transport of the tool: what is
    left behind is what the transport leaves; an entry means that the
    request was sent. *)
Lemma request_inclusion_proof_world c vbmeta_image version_inc
      manufacturer_key_path signing_helper signing_helper_with_files
      timeout w :
  let rw := request_inclusion_proof c vbmeta_image version_inc
              manufacturer_key_path signing_helper signing_helper_with_files
              timeout None w in
  only_requests [c] w (snd rw)
  /\ stderr (snd rw) = stderr w
  /\ (forall entry, fst rw = Ok entry -> all_requested [c] w (snd rw)).
Proof.
  cbv zeta.
  assert (Hnone : forall e : exn,
             only_requests [c] w (snd (@Raise AftlIcpEntry.t e, w))
             /\ stderr (snd (@Raise AftlIcpEntry.t e, w)) = stderr w
             /\ (forall entry,
                    fst (@Raise AftlIcpEntry.t e, w) = Ok entry ->
                    all_requested [c] w (snd (@Raise AftlIcpEntry.t e, w)))).
  { intros e. cbn [fst snd]. split; [now apply only_requests_none |].
    split; [reflexivity | discriminate]. }
  unfold request_inclusion_proof, bindM, lift.
  destruct vbmeta_image as [vbmeta_bytes |]; [| apply Hnone].
  destruct (RSAPublicKey_num_bits manufacturer_key_path) as [num_bits | e];
    [| apply Hnone].
  destruct (negb (num_bits =? 4096)); [apply Hnone |].
  destruct (rsa_key_read_pem_bytes manufacturer_key_path)
    as [manufacturer_key_data | e]; [| apply Hnone].
  destruct (RSAPublicKey_sign _ _ _ _ _) as [signed_fw_info | e];
    [| destruct e; apply Hnone].
  match goal with
  | |- context [add_firmware_info c ?t ?r w] =>
      pose proof (add_firmware_info_world c t r w) as Hcomm;
      destruct (add_firmware_info c t r w) as [[response | e] w1]
  end; cbn [fst snd] in Hcomm; destruct Hcomm as (Honly & Herr & Hall).
  2: { cbn [fst snd]. split; [exact Honly |].
       split; [exact Herr | discriminate]. }
  specialize (Hall response eq_refl).
  destruct (AftlIcpEntry.init None) as [icp_entry | e].
  2: { cbn [fst snd]. split; [exact Honly |].
       split; [exact Herr | discriminate]. }
  destruct (AftlIcpEntry.translate_response _ _ _) as [entry | e];
    cbn [fst snd];
    (split; [exact Honly |]); (split; [exact Herr |]);
    [intros _ _; exact Hall | discriminate].
Qed.

(** One turn of the loop: the image is left as it is, or it gets one entry
    more, and then the request was sent. *)
Lemma fetch_icp_entry_world log_config vbmeta_image version_incremental
      manufacturer_key signing_helper signing_helper_with_files timeout
      aftl_image w :
  let rw := fetch_icp_entry log_config vbmeta_image version_incremental
              manufacturer_key signing_helper signing_helper_with_files
              timeout aftl_image w in
  only_requests [log_config] w (snd rw)
  /\ (forall image,
        fst rw = Ok image ->
        image = aftl_image
        \/ (exists entry, image = AftlImage.add_icp_entry aftl_image entry)
           /\ all_requested [log_config] w (snd rw)).
Proof.
  cbv zeta.
  unfold fetch_icp_entry, try_except_AftlError, bindM.
  pose proof (request_inclusion_proof_world log_config vbmeta_image
                version_incremental manufacturer_key signing_helper
                signing_helper_with_files timeout w) as Hreq.
  destruct (request_inclusion_proof _ _ _ _ _ _ _ _ w) as [[entry | e] w1];
    cbn [fst snd] in Hreq; destruct Hreq as (Honly & _ & Hall).
  - specialize (Hall entry eq_refl). unfold lift, ret, sys_stderr_write.
    destruct (AftlIcpEntry.verify_vbmeta_image _ _ _) as [[|] | e];
      cbn [negb fst snd].
    + split; [exact Honly |]. intros image [= <-]. right.
      split; [now exists entry | exact Hall].
    + split; [exact Honly |]. intros image [= <-]. right.
      split; [now exists entry | exact Hall].
    + destruct e; cbn [fst snd]; (split; [exact Honly |]);
        try discriminate.
      intros image [= <-]. now left.
  - unfold ret, sys_stderr_write.
    destruct e; cbn [fst snd]; (split; [exact Honly |]); try discriminate.
    intros image [= <-]. now left.
Qed.

(** The loop: the number of entries grows by at most the number of logs,
    and by that number only when every log was sent a request. *)
Lemma fetch_icp_entries_world configs vbmeta_image version_incremental
      manufacturer_key signing_helper signing_helper_with_files timeout :
  forall aftl_image w,
  let rw := fetch_icp_entries configs vbmeta_image version_incremental
              manufacturer_key signing_helper signing_helper_with_files
              timeout aftl_image w in
  only_requests configs w (snd rw)
  /\ (forall image,
        fst rw = Ok image ->
        exists k,
          0 <= k <= len configs
          /\ AftlImageHeader.icp_count (AftlImage.image_header image)
             = AftlImageHeader.icp_count (AftlImage.image_header aftl_image)
               + k
          /\ (k = len configs -> all_requested configs w (snd rw))).
Proof.
  induction configs as [| log_config rest IH]; intros aftl_image w.
  - cbn. split; [now apply only_requests_none |].
    intros image [= <-]. exists 0. split; [lia |]. split; [lia |].
    intros _. split; cbn; now rewrite app_nil_r.
  - cbn [fetch_icp_entries]. cbv zeta. unfold bindM.
    pose proof (fetch_icp_entry_world log_config vbmeta_image
                  version_incremental manufacturer_key signing_helper
                  signing_helper_with_files timeout aftl_image w) as Hstep.
    destruct (fetch_icp_entry log_config vbmeta_image version_incremental
                manufacturer_key signing_helper signing_helper_with_files
                timeout aftl_image w) as [[image1 | e] w1];
      cbn [fst snd] in Hstep; destruct Hstep as (Honly1 & Himage1).
    2: { cbn [fst snd]. split; [| discriminate].
         apply (only_requests_cons _ _ _ _ _ Honly1).
         now apply only_requests_none. }
    specialize (IH image1 w1). cbv zeta in IH.
    destruct IH as (Honly & Hcount).
    split; [exact (only_requests_cons _ _ _ _ _ Honly1 Honly) |].
    intros image Himage.
    destruct (Hcount image Himage) as (k & Hk & Hcnt & Hall).
    assert (Hlen : len (log_config :: rest) = len rest + 1)
      by (unfold len; cbn [List.length]; lia).
    destruct (Himage1 image1 eq_refl) as [-> | ((entry & ->) & Hall1)].
    + exists k. split; [lia |]. split; [exact Hcnt |]. intros Hk'. lia.
    + exists (k + 1). split; [lia |]. split.
      * rewrite Hcnt.
        rewrite (proj1 (add_icp_entry_header aftl_image entry)). lia.
      * intros Hk'. apply (all_requested_cons _ _ _ _ _ Hall1).
        apply Hall. lia.
Qed.




(** Without padding, a run that succeeds on a new output file leaves in it
    the vbmeta image followed by the serialised AFTL image. *)
Lemma make_icp_from_vbmeta_unpadded_output
      (vbmeta_image_path version_incremental manufacturer_key : string)
      (signing_helper signing_helper_with_files : option string)
      (transparency_log_configs : list TransparencyLogConfig)
      (timeout : Z) (w w0 : world) :
  content (output w) = [] ->
  make_icp_from_vbmeta vbmeta_image_path signing_helper
    signing_helper_with_files version_incremental transparency_log_configs
    manufacturer_key 0 timeout w = (Ok true, w0) ->
  exists vbmeta_image image encoded,
    get_vbmeta_image vbmeta_image_path = (Some vbmeta_image, None)
    /\ AftlImage.encode image = Ok encoded
    /\ content (output w0) = vbmeta_image ++ encoded.
Proof.
  intros Hnew. unfold make_icp_from_vbmeta.
  destruct (get_vbmeta_image vbmeta_image_path) as [vbmeta_image footer].
  unfold bindM, lift, ret, output_seek, output_write, sys_stdout_write,
    sys_stderr_write.
  change (0 >? 0) with false.
  destruct (AftlImage.init None) as [empty | e]; cbv beta iota;
    [| discriminate].
  pose proof (fetch_icp_entries_world transparency_log_configs vbmeta_image
                version_incremental manufacturer_key signing_helper
                signing_helper_with_files timeout empty w)
    as Hfetch.
  destruct (fetch_icp_entries _ _ _ _ _ _ _ _ w) as [[image | e] w1];
    cbv beta iota; [| discriminate].
  cbn [fst snd] in Hfetch. destruct Hfetch as ((Hout & _) & _).
  destruct (negb (_ =? _)); cbv beta iota; [discriminate |].
  destruct (negb (AftlImage.is_valid image)); cbv beta iota;
    [discriminate |].
  destruct (AftlImage.verify_vbmeta_image _ _ _) as [[|] | e];
    cbv beta iota; [| discriminate | discriminate].
  cbn [negb].
  destruct footer as [footer |]; cbv beta iota; [discriminate |].
  cbn [output set_output].
  destruct vbmeta_image as [vbmeta_image |]; [| discriminate].
  unfold file_write at 1, file_seek. cbn [position content].
  rewrite Hout, Hnew. cbv beta iota. cbn [output set_output].
  destruct (AftlImage.encode image) as [encoded | e] eqn:Henc;
    cbv beta iota; [| discriminate].
  cbn [output set_output file_write position content].
  intros [= <-]. exists vbmeta_image, image, encoded.
  split; [reflexivity |]. split; [exact Henc |].
  cbn [output set_output write_stdout content].
  unfold slice_to, slice_from, len. cbn [Z.to_nat firstn skipn Z.add].
  rewrite skipn_nil, !app_nil_r. cbn [app].
  rewrite Nat2Z.id, firstn_all, Z.sub_diag. cbn [Z.to_nat repeat app].
  rewrite skipn_all2; [now rewrite app_nil_r |].
  lia.
Qed.

(** C8, where the code departs from it: the padding is handed to the output
    file as a [str], which a file opened in binary mode refuses.  Whenever
    the command would succeed without padding, the same run with a positive
    padding size raises [TypeError] after the vbmeta image and the AFTL
    image were written: the output holds what the run without padding
    writes, no NUL byte is added, and success is not reported. *)
Theorem make_icp_from_vbmeta_padding_raises
        (vbmeta_image_path version_incremental manufacturer_key : string)
        (signing_helper signing_helper_with_files : option string)
        (transparency_log_configs : list TransparencyLogConfig)
        (padding_size timeout : Z) (w w0 : world) :
  0 < padding_size ->
  make_icp_from_vbmeta vbmeta_image_path signing_helper
    signing_helper_with_files version_incremental transparency_log_configs
    manufacturer_key 0 timeout w = (Ok true, w0) ->
  exists w1,
    make_icp_from_vbmeta vbmeta_image_path signing_helper
      signing_helper_with_files version_incremental transparency_log_configs
      manufacturer_key padding_size timeout w
    = (Raise TypeError, w1)
    /\ w0 = write_stdout w1 msg_created
    /\ output w1 = output w0.
Proof.
  intros Hpad. unfold make_icp_from_vbmeta.
  destruct (get_vbmeta_image vbmeta_image_path) as [vbmeta_image footer].
  unfold bindM, lift, ret, output_seek, output_write, sys_stdout_write,
    sys_stderr_write.
  replace (padding_size >? 0) with true by (symmetry; apply Z.gtb_lt; lia).
  change (0 >? 0) with false.
  destruct (AftlImage.init None) as [empty | e]; cbv beta iota;
    [| discriminate].
  destruct (fetch_icp_entries _ _ _ _ _ _ _ _ w) as [[image | e] w1];
    cbv beta iota; [| discriminate].
  destruct (negb (_ =? _)); cbv beta iota; [discriminate |].
  destruct (negb (AftlImage.is_valid image)); cbv beta iota;
    [discriminate |].
  destruct (AftlImage.verify_vbmeta_image _ _ _) as [[|] | e];
    cbv beta iota; [| discriminate | discriminate].
  cbn [negb].
  destruct footer as [footer |]; cbv beta iota; [discriminate |].
  cbn [output set_output].
  destruct (file_write (file_seek (output w1) 0) _) as [f1 | e];
    cbv beta iota; [| discriminate].
  cbn [output set_output].
  destruct (AftlImage.encode image) as [encoded | e]; cbv beta iota;
    [| discriminate].
  cbn [output set_output].
  destruct (file_write f1 (PyBytes encoded)) as [f2 | e]; cbv beta iota;
    [| discriminate].
  cbn [output set_output file_write].
  intros [= <-]. eexists. split; [reflexivity |]. split; reflexivity.
Qed.

End Orchestrator.


(** A request that fails before the transport sends nothing: with a
    manufacturer key of 2048 bits the run reports the failure and returns
    [False], and no log was contacted. *)
Example short_key_sends_no_request :
  @Aftl.make_icp_from_vbmeta double_externals
    (double_collaborators_with_key (Some (Aftl.mkFooter 0)) 2048)
    "vbmeta.img" None None "build-1" [double_log] "manufacturer.pem" 0 0
    fresh_world
  = (Ok false,
     Aftl.mkWorld []
       [("Requesting inclusion proof failed: "
           ++ "Manufacturer keys not of size 4096: 2048." ++ Aftl.nl)%string;
        ("Valid inclusion proofs could only be retrieved from 0 out of 1 "
           ++ "transparency logs." ++ Aftl.nl)%string]
       [] (Aftl.mkFile [] 0)).
Proof. vm_compute. reflexivity. Qed.


(** The theorem on the padding, on the doubles: 3080 bytes of vbmeta and
    120 bytes of AFTL image make 3200 bytes; padded to 4096 bytes they
    should grow by 896 NUL bytes, and the run raises with 3200 bytes
    written. *)
Lemma make_icp_from_vbmeta_padding_raises_witness :
  fst (double_run None 0) = Ok true
  /\ exists w1,
       double_run None 4096 = (Raise TypeError, w1)
       /\ len (Aftl.content (Aftl.output w1)) = 3200
       /\ Aftl.round_to_multiple 3200 4096 = 4096.
Proof.
  split; [vm_compute; reflexivity |].
  assert (Hpad : 0 < 4096) by reflexivity.
  assert (Hrun : double_run None 0 = (Ok true, snd (double_run None 0)))
    by (vm_compute; reflexivity).
  destruct (@make_icp_from_vbmeta_padding_raises double_externals
              (double_collaborators None)
              "vbmeta.img" "build-1" "manufacturer.pem" None None
              [double_log] 4096 0 fresh_world (snd (double_run None 0))
              Hpad Hrun)
    as (w1 & Hraise & Hw0 & Hout).
  exists w1. split; [exact Hraise |]. split.
  - rewrite Hout. vm_compute. reflexivity.
  - reflexivity.
Defined.

(** The round trips on the default descriptor and the default entry: their
    bytes parse and serialise to themselves. *)
Example descriptor_round_trip_default :
  TrillianLogRootDescriptor.init (Some default_descriptor_bytes)
  = Ok TrillianLogRootDescriptor.default
  /\ TrillianLogRootDescriptor.encode TrillianLogRootDescriptor.default
     = Ok default_descriptor_bytes.
Proof.
  split; [reflexivity |].
  apply (descriptor_round_trip default_descriptor_bytes
           TrillianLogRootDescriptor.default eq_refl);
    [discriminate | reflexivity].
Qed.

Example entry_round_trip_default :
  exists entry,
    AftlIcpEntry.init (Some (default_entry_bytes ++ [xff])) = Ok entry
    /\ AftlIcpEntry.encode entry = Ok default_entry_bytes
    /\ AftlIcpEntry.get_expected_size entry = 56.
Proof.
  exact (entry_round_trip 0 0 (firstn 27 default_entry_bytes) []
           default_descriptor_bytes [] [] [] [xff] ""%string
           TrillianLogRootDescriptor.default
           (FirmwareInfoLeaf.mk [] (JDict []))
           eq_refl eq_refl eq_refl eq_refl eq_refl eq_refl).
Qed.

(** ** The Merkle functions against the reference tree *)

Section MerkleReference.
Context `{Externals}.

Lemma bit_test_spec (m i : Z) :
  0 <= i -> (Z.land (Z.shiftr m i) 1 =? 0) = negb (Z.testbit m i).
Proof.
  intros Hi. rewrite Z.testbit_odd.
  change 1 with (Z.ones 1). rewrite Z.land_ones by lia.
  change (2 ^ 1) with 2. rewrite <- Z.bit0_mod, Z.bit0_odd.
  now destruct (Z.odd (Z.shiftr m i)).
Qed.

Lemma chain_inner_from_app p : forall q i seed m,
  chain_inner_from i seed (p ++ q) m
  = chain_inner_from (i + len p) (chain_inner_from i seed p m) q m.
Proof.
  induction p as [| x p IH]; intros q i seed m; cbn [app chain_inner_from].
  - unfold len. cbn. now rewrite Z.add_0_r.
  - rewrite IH. f_equal. unfold len. cbn [List.length]. lia.
Qed.

Lemma chain_border_right_app p : forall q seed,
  chain_border_right seed (p ++ q)
  = chain_border_right (chain_border_right seed p) q.
Proof.
  induction p as [| x p IH]; intros q seed; cbn [app chain_border_right];
    [reflexivity | apply IH].
Qed.

(** The inner chain looks only at the bits of the index that its steps are
    numbered with. *)
Lemma chain_inner_from_bits p : forall i seed m m',
  0 <= i ->
  (forall j, i <= j < i + len p -> Z.testbit m j = Z.testbit m' j) ->
  chain_inner_from i seed p m = chain_inner_from i seed p m'.
Proof.
  induction p as [| x p IH]; intros i seed m m' Hi Hbits;
    cbn [chain_inner_from]; [reflexivity |].
  unfold len in Hbits. cbn [List.length] in Hbits.
  rewrite !bit_test_spec by lia.
  rewrite (Hbits i) by lia.
  apply IH; [lia |]. intros j Hj. apply Hbits. unfold len in Hj. lia.
Qed.

Lemma msize_pos t : 0 < msize t.
Proof. induction t; cbn [msize]; lia. Qed.

Lemma perfect_size h : forall t, perfect h t -> msize t = 2 ^ Z.of_nat h.
Proof.
  induction h as [| h IH]; intros [d | l r] Hp; cbn [perfect] in Hp;
    try contradiction; [reflexivity |].
  destruct Hp as [Hl Hr]. cbn [msize]. rewrite (IH l Hl), (IH r Hr).
  rewrite Nat2Z.inj_succ, Z.pow_succ_r by lia. lia.
Qed.

Lemma audit_path_perfect_length h : forall t m,
  perfect h t -> len (audit_path m t) = Z.of_nat h.
Proof.
  induction h as [| h IH]; intros [d | l r] m Hp; cbn [perfect] in Hp;
    try contradiction; [reflexivity |].
  destruct Hp as [Hl Hr]. cbn [audit_path].
  destruct (m <? msize l); unfold len in *; rewrite length_app;
    cbn [List.length]; [rewrite Nat2Z.inj_add, (IH l m Hl)
                       | rewrite Nat2Z.inj_add, (IH r _ Hr)]; lia.
Qed.

Lemma testbit_small (m h : Z) :
  0 <= m < 2 ^ h -> 0 <= h -> forall j, h <= j -> Z.testbit m j = false.
Proof.
  intros Hm Hh j Hj.
  destruct (Z.eq_dec m 0) as [-> | Hne]; [apply Z.bits_0 |].
  apply Z.bits_above_log2; [lia |].
  assert (Z.log2 m < h) by (apply Z.log2_lt_pow2; lia). lia.
Qed.

Lemma testbit_add_pow2 (m h j : Z) :
  0 <= m < 2 ^ h -> 0 <= h -> 0 <= j ->
  Z.testbit (m + 2 ^ h) j = if j =? h then true else Z.testbit m j.
Proof.
  intros Hm Hh Hj.
  assert (Hland : Z.land m (2 ^ h) = 0).
  { apply Z.bits_inj'. intros k Hk. rewrite Z.land_spec, Z.bits_0.
    rewrite Z.pow2_bits_eqb by lia.
    destruct (Z.eqb_spec h k) as [<- | Hne];
      [| now rewrite andb_false_r].
    rewrite (testbit_small m h) by lia. reflexivity. }
  rewrite (Z.add_nocarry_lxor _ _ Hland), Z.lxor_spec.
  rewrite Z.pow2_bits_eqb by lia. rewrite (Z.eqb_sym h j).
  destruct (Z.eqb_spec j h) as [-> | Hne].
  - rewrite (testbit_small m h) by lia. reflexivity.
  - now rewrite xorb_false_r.
Qed.

Lemma bit_length_bound (x h : Z) :
  0 <= x < 2 ^ h -> 0 <= h -> 0 <= bit_length x <= h.
Proof.
  intros Hx Hh. unfold bit_length. rewrite Z.abs_eq by lia.
  destruct (Z.eqb_spec x 0); [lia |].
  assert (Z.log2 x < h) by (apply Z.log2_lt_pow2; lia).
  pose proof (Z.log2_nonneg x). lia.
Qed.

Lemma lxor_bound (a b h : Z) :
  0 <= a < 2 ^ h -> 0 <= b < 2 ^ h -> 0 <= h ->
  0 <= Z.lxor a b < 2 ^ h.
Proof.
  intros Ha Hb Hh.
  assert (Hnn : 0 <= Z.lxor a b) by (apply Z.lxor_nonneg; lia).
  split; [exact Hnn |].
  destruct (Z.eq_dec (Z.lxor a b) 0) as [-> | Hne]; [lia |].
  assert (Hpos : 0 < h).
  { destruct (Z.eq_dec h 0) as [-> | ?]; [| lia].
    assert (a = 0) by (cbn in Ha; lia). assert (b = 0) by (cbn in Hb; lia).
    subst. now cbn in Hne. }
  apply Z.log2_lt_pow2; [lia |].
  pose proof (Z.log2_lxor a b ltac:(lia) ltac:(lia)) as Hl.
  assert (Z.log2 a < h)
    by (destruct (Z.eq_dec a 0) as [-> | ?];
        [cbn; lia | apply Z.log2_lt_pow2; lia]).
  assert (Z.log2 b < h)
    by (destruct (Z.eq_dec b 0) as [-> | ?];
        [cbn; lia | apply Z.log2_lt_pow2; lia]).
  lia.
Qed.

(** An index in the left, complete half and a last index in the right half
    differ first at the bit that tells the halves apart. *)
Lemma inner_across_halves (m n h : Z) :
  0 <= h -> 0 <= m < 2 ^ h -> 2 ^ h < n <= 2 ^ (h + 1) ->
  bit_length (Z.lxor m (n - 1)) = h + 1.
Proof.
  intros Hh Hm Hn.
  assert (Hpow : 2 ^ (h + 1) = 2 * 2 ^ h) by (rewrite Z.pow_add_r by lia; change (2 ^ 1) with 2; lia).
  assert (Hup : 0 <= Z.lxor m (n - 1) < 2 ^ (h + 1))
    by (apply lxor_bound; lia).
  assert (Hbit : Z.testbit (Z.lxor m (n - 1)) h = true).
  { rewrite Z.lxor_spec, (testbit_small m h) by lia.
    replace (n - 1) with ((n - 1 - 2 ^ h) + 2 ^ h) by lia.
    rewrite testbit_add_pow2 by lia. now rewrite Z.eqb_refl. }
  assert (Hlow : 2 ^ h <= Z.lxor m (n - 1)).
  { destruct (Z.lt_ge_cases (Z.lxor m (n - 1)) (2 ^ h)) as [Hlt | ?];
      [| assumption].
    rewrite (testbit_small _ h) in Hbit by lia. discriminate. }
  unfold bit_length. rewrite Z.abs_eq by lia.
  destruct (Z.eqb_spec (Z.lxor m (n - 1)) 0); [lia |].
  f_equal. apply Z.log2_unique; lia.
Qed.

(** Two indices in the right half differ as they do within that half. *)
Lemma lxor_right_half (m n h : Z) :
  0 <= h -> 0 <= m < 2 ^ h -> 0 <= n < 2 ^ h ->
  Z.lxor (m + 2 ^ h) (n + 2 ^ h) = Z.lxor m n.
Proof.
  intros Hh Hm Hn. apply Z.bits_inj'. intros j Hj.
  rewrite !Z.lxor_spec, !testbit_add_pow2 by lia.
  destruct (Z.eqb_spec j h) as [-> | Hne]; [| reflexivity].
  rewrite !(testbit_small _ h) by lia. reflexivity.
Qed.

(** On a complete tree the inner chain alone leads from a leaf to the
    root, for any index with the low bits of the leaf's. *)
Lemma chain_inner_perfect h : forall t m m',
  perfect h t -> 0 <= m < msize t ->
  (forall j, 0 <= j < Z.of_nat h -> Z.testbit m' j = Z.testbit m j) ->
  chain_inner_from 0 (rfc6962_hash_leaf (leaf_at m t)) (audit_path m t) m'
  = mth t.
Proof.
  induction h as [| h IH]; intros [d | l r] m m' Hp Hm Hbits;
    cbn [perfect] in Hp; try contradiction; [reflexivity |].
  destruct Hp as [Hl Hr].
  pose proof (perfect_size h l Hl) as Hsl.
  pose proof (perfect_size h r Hr) as Hsr.
  cbn [msize] in Hm. cbn [audit_path leaf_at mth].
  assert (Hb : Z.testbit m' (Z.of_nat h) = Z.testbit m (Z.of_nat h))
    by (apply Hbits; lia).
  destruct (Z.ltb_spec m (msize l)) as [Hlt | Hge].
  - rewrite chain_inner_from_app, (audit_path_perfect_length h l m Hl),
      Z.add_0_l.
    rewrite (IH l m m' Hl) by (try lia; intros j Hj; apply Hbits; lia).
    cbn [chain_inner_from]. rewrite bit_test_spec by lia.
    rewrite Hb, (testbit_small m (Z.of_nat h)) by lia. reflexivity.
  - rewrite chain_inner_from_app, (audit_path_perfect_length h r _ Hr),
      Z.add_0_l.
    rewrite (IH r (m - msize l) m' Hr).
    + cbn [chain_inner_from]. rewrite bit_test_spec by lia.
      rewrite Hb. replace m with ((m - msize l) + 2 ^ Z.of_nat h) by lia.
      rewrite testbit_add_pow2 by lia. now rewrite Z.eqb_refl.
    + lia.
    + intros j Hj. rewrite Hbits by lia.
      replace m with ((m - msize l) + 2 ^ Z.of_nat h) at 1 by lia.
      rewrite testbit_add_pow2 by lia.
      destruct (Z.eqb_spec j (Z.of_nat h)); [lia | reflexivity].
Qed.

(** The two chains of [root_from_icp], on the audit path of the reference
    tree. *)
Lemma chains_on_audit_path t : rfc6962_shape t -> forall m,
  0 <= m < msize t ->
  let inner := bit_length (Z.lxor m (msize t - 1)) in
  let path := audit_path m t in
  0 <= inner <= len path
  /\ chain_border_right
       (chain_inner (rfc6962_hash_leaf (leaf_at m t)) (slice_to inner path) m)
       (slice_from inner path)
     = mth t.
Proof.
  induction t as [d | l _ r IHr]; intros Hshape m Hm; cbv zeta.
  - cbn [msize] in *. assert (m = 0) by lia. subst m.
    cbn. split; [unfold len; cbn; lia | reflexivity].
  - cbn [rfc6962_shape] in Hshape. destruct Hshape as [(h & Hl & Hle) Hr].
    pose proof (perfect_size h l Hl) as Hsl.
    pose proof (msize_pos r) as Hrpos.
    cbn [msize] in *. cbn [audit_path leaf_at mth].
    assert (Hh : 0 <= Z.of_nat h) by lia.
    assert (Hpow : 2 ^ (Z.of_nat h + 1) = 2 * 2 ^ Z.of_nat h)
      by (rewrite Z.pow_add_r by lia; change (2 ^ 1) with 2; lia).
    destruct (Z.ltb_spec m (msize l)) as [Hlt | Hge].
    + rewrite (inner_across_halves m (msize l + msize r) (Z.of_nat h))
        by lia.
      assert (Hlen : len (audit_path m l ++ [mth r]) = Z.of_nat h + 1).
      { unfold len. rewrite length_app. cbn [List.length].
        rewrite Nat2Z.inj_add.
        pose proof (audit_path_perfect_length h l m Hl) as Hpl.
        unfold len in Hpl. lia. }
      split; [lia |].
      unfold slice_to, slice_from.
      replace (Z.to_nat (Z.of_nat h + 1))
        with (List.length (audit_path m l ++ [mth r]))
        by (unfold len in Hlen; lia).
      rewrite firstn_all, skipn_all. cbn [chain_border_right].
      unfold chain_inner. rewrite chain_inner_from_app.
      rewrite (audit_path_perfect_length h l m Hl), Z.add_0_l.
      rewrite (chain_inner_perfect h l m m Hl) by (try lia; reflexivity).
      cbn [chain_inner_from]. rewrite bit_test_spec by lia.
      rewrite (testbit_small m (Z.of_nat h)) by lia. reflexivity.
    + specialize (IHr Hr (m - msize l) ltac:(lia)). cbv zeta in IHr.
      replace (Z.lxor m (msize l + msize r - 1))
        with (Z.lxor (m - msize l) (msize r - 1)).
      2: { rewrite <- (lxor_right_half (m - msize l) (msize r - 1)
                         (Z.of_nat h)) by lia.
           f_equal; lia. }
      set (inner := bit_length (Z.lxor (m - msize l) (msize r - 1))) in *.
      destruct IHr as [Hinner IHr].
      assert (Hih : 0 <= inner <= Z.of_nat h).
      { apply bit_length_bound; [| lia]. apply lxor_bound; lia. }
      split.
      { unfold len in *. rewrite length_app. cbn [List.length]. lia. }
      unfold slice_to, slice_from in *.
      rewrite firstn_app, skipn_app.
      replace (Z.to_nat inner - List.length (audit_path (m - msize l) r))%nat
        with 0%nat by (unfold len in Hinner; lia).
      cbn [firstn skipn]. rewrite app_nil_r, chain_border_right_app.
      unfold chain_inner in *.
      rewrite (chain_inner_from_bits _ 0 _ m (m - msize l)).
      * rewrite IHr. reflexivity.
      * lia.
      * intros j Hj.
        assert (Hjl : j < inner).
        { unfold len in Hj. rewrite length_firstn in Hj. lia. }
        replace m with ((m - msize l) + 2 ^ Z.of_nat h) at 1 by lia.
        rewrite testbit_add_pow2 by lia.
        destruct (Z.eqb_spec j (Z.of_nat h)); [lia | reflexivity].
Qed.

(** X1: [root_from_icp] accepts the audit paths of RFC 6962.  For a tree of
    the shape RFC 6962 prescribes and each of its leaves, the audit path of
    the leaf, its index, the number of leaves and the hash of the leaf give
    the Merkle tree hash of the tree. *)
Theorem root_from_icp_accepts_audit_paths (t : mtree) (m : Z) :
  rfc6962_shape t -> 0 <= m < msize t ->
  root_from_icp m (msize t) (Some (audit_path m t))
                (Some (rfc6962_hash_leaf (leaf_at m t)))
  = Ok (mth t).
Proof.
  intros Hshape Hm. rewrite root_from_icp_in_range by assumption.
  cbv zeta. f_equal. now apply chains_on_audit_path.
Qed.

End MerkleReference.

(** The theorem on the tree of three leaves, for its last leaf. *)
Lemma root_from_icp_accepts_audit_paths_witness :
  root_from_icp 2 3
    (Some [rfc6962_hash_children (rfc6962_hash_leaf [x0a])
                                 (rfc6962_hash_leaf [x0b])])
    (Some (rfc6962_hash_leaf [x0c]))
  = Ok (mth (three_leaves [x0a] [x0b] [x0c])).
Proof.
  assert (Hshape : rfc6962_shape (three_leaves [x0a] [x0b] [x0c])).
  { cbn. split; [| exact I]. exists 1%nat. cbn. repeat split. lia. }
  assert (Hm : 0 <= 2 < msize (three_leaves [x0a] [x0b] [x0c]))
    by (cbn; lia).
  exact (root_from_icp_accepts_audit_paths
           (three_leaves [x0a] [x0b] [x0c]) 2 Hshape Hm).
Defined.

(** ** The length of the proof is not checked *)

Section ProofLength.
Context `{Externals}.

(** X2: [root_from_icp] does not check the length of the proof against the
    size of the tree.  For a valid index an empty proof gives back the leaf
    hash, whatever the size of the tree; and hashes appended to a proof
    that covers the inner steps are chained on as left siblings, which
    changes the root instead of raising. *)
Theorem root_from_icp_proof_length_unchecked
        (leaf_index tree_size : Z) (proof more : list bytes)
        (leaf_hash : bytes) :
  0 <= leaf_index < tree_size ->
  root_from_icp leaf_index tree_size (Some []) (Some leaf_hash) = Ok leaf_hash
  /\ (bit_length (Z.lxor leaf_index (tree_size - 1)) <= len proof ->
      exists root,
        root_from_icp leaf_index tree_size (Some proof) (Some leaf_hash)
        = Ok root
        /\ root_from_icp leaf_index tree_size (Some (proof ++ more))
                         (Some leaf_hash)
           = Ok (chain_border_right root more)).
Proof.
  intros Hi. rewrite !root_from_icp_in_range by assumption. cbv zeta.
  split.
  - unfold slice_to, slice_from. now rewrite firstn_nil, skipn_nil.
  - intros Hlen. eexists. split; [reflexivity |]. f_equal.
    set (inner := bit_length (Z.lxor leaf_index (tree_size - 1))) in *.
    assert (0 <= inner).
    { unfold inner, bit_length. destruct (_ =? 0); [lia |].
      pose proof (Z.log2_nonneg (Z.abs (Z.lxor leaf_index (tree_size - 1)))).
      lia. }
    unfold slice_to, slice_from.
    rewrite firstn_app, skipn_app.
    replace (Z.to_nat inner - List.length proof)%nat with 0%nat
      by (unfold len in Hlen; lia).
    cbn [firstn skipn]. rewrite app_nil_r.
    apply chain_border_right_app.
Qed.

End ProofLength.

(** The theorem for the first of two leaves: the proof of one hash, and
    one hash too many. *)
Lemma root_from_icp_proof_length_unchecked_witness :
  root_from_icp 0 2 (Some []) (Some [x01]) = Ok [x01]
  /\ exists root,
       root_from_icp 0 2 (Some [[x02]]) (Some [x01]) = Ok root
       /\ root_from_icp 0 2 (Some ([[x02]] ++ [[x03]])) (Some [x01])
          = Ok (chain_border_right root [[x03]]).
Proof.
  assert (Hi : 0 <= 0 < 2) by lia.
  destruct (root_from_icp_proof_length_unchecked 0 2 [[x02]] [[x03]] [x01] Hi)
    as [Hempty Hmore].
  split; [exact Hempty |].
  apply Hmore. vm_compute. discriminate.
Defined.

(** ** The log root descriptor as a codec *)

Section DescriptorCodec.
Import Struct.

(** The bytes that [pack] writes are as many as [calcsize] says. *)
Lemma pack_item_width i v b : pack_item i v = Ok b -> List.length b = width i.
Proof.
  destruct i, v; unfold pack_item; try discriminate.
  5: { intros [= <-]. cbn [width].
       rewrite length_app, length_firstn, repeat_length. lia. }
  all: destruct (_ && _); [| discriminate]; intros Hb;
    apply (f_equal (fun r => match r with
                             | Ok x => List.length x
                             | Raise _ => O
                             end)) in Hb;
    cbv beta iota in Hb; rewrite <- Hb; apply be_bytes_length.
Qed.

Lemma pack_calcsize fmt : forall vs b,
  pack fmt vs = Ok b -> List.length b = calcsize fmt.
Proof.
  induction fmt as [| i fmt IH]; intros [| v vs] b Hp; try discriminate.
  - now injection Hp as <-.
  - cbn [pack] in Hp.
    destruct (pack_item i v) as [b1 |] eqn:Hi; cbn [Py.bind] in Hp;
      [| discriminate].
    destruct (pack fmt vs) as [b2 |] eqn:Hr; cbn [Py.bind] in Hp;
      [| discriminate].
    injection Hp as <-. rewrite length_app.
    rewrite (pack_item_width _ _ _ Hi), (IH _ _ Hr). reflexivity.
Qed.

Lemma calcsize_app f1 f2 :
  calcsize (f1 ++ f2) = (calcsize f1 + calcsize f2)%nat.
Proof.
  unfold calcsize. induction f1 as [| i f1 IH]; cbn [app fold_right];
    [reflexivity | rewrite IH; lia].
Qed.

(** An integer-only format unpacks to integers in the range of their
    items. *)
Lemma unpack_ints_fit fmt b vs :
  (forall n, ~ In (s n) fmt) -> unpack fmt b = Ok vs -> Forall2 fits fmt vs.
Proof.
  intros Hs Hu. apply unpack_pack in Hu.
  - now apply pack_ints_fit in Hu.
  - intros n Hin. now apply Hs in Hin.
Qed.

Lemma unpack_short fmt b :
  List.length b <> calcsize fmt -> unpack fmt b = Raise StructError.
Proof.
  intros Hl. unfold unpack.
  destruct (Nat.eqb_spec (List.length b) (calcsize fmt)); [lia | reflexivity].
Qed.

Lemma descriptor_is_valid_spec d :
  TrillianLogRootDescriptor.is_valid d = true <->
  TrillianLogRootDescriptor.version d = 1
  /\ 0 <= TrillianLogRootDescriptor.tree_size d
  /\ 0 <= TrillianLogRootDescriptor.root_hash_size d <= 128
  /\ len (TrillianLogRootDescriptor.root_hash d)
     = TrillianLogRootDescriptor.root_hash_size d
  /\ 0 <= TrillianLogRootDescriptor.timestamp d
  /\ 0 <= TrillianLogRootDescriptor.revision d
  /\ 0 <= TrillianLogRootDescriptor.metadata_size d <= 65535
  /\ len (TrillianLogRootDescriptor.metadata d)
     = TrillianLogRootDescriptor.metadata_size d.
Proof.
  unfold TrillianLogRootDescriptor.is_valid.
  destruct (Z.eqb_spec (TrillianLogRootDescriptor.version d) 1);
    cbn [negb]; [| split; [discriminate | lia]].
  destruct (Z.ltb_spec (TrillianLogRootDescriptor.tree_size d) 0);
    [split; [discriminate | lia] |].
  destruct (Z.ltb_spec (TrillianLogRootDescriptor.root_hash_size d) 0);
    cbn [orb]; [split; [discriminate | lia] |].
  destruct (Z.gtb_spec (TrillianLogRootDescriptor.root_hash_size d) 128);
    [split; [discriminate | lia] |].
  destruct (Z.eqb_spec (len (TrillianLogRootDescriptor.root_hash d))
              (TrillianLogRootDescriptor.root_hash_size d));
    cbn [negb]; [| split; [discriminate | lia]].
  destruct (Z.ltb_spec (TrillianLogRootDescriptor.timestamp d) 0);
    [split; [discriminate | lia] |].
  destruct (Z.ltb_spec (TrillianLogRootDescriptor.revision d) 0);
    [split; [discriminate | lia] |].
  destruct (Z.ltb_spec (TrillianLogRootDescriptor.metadata_size d) 0);
    cbn [orb]; [split; [discriminate | lia] |].
  destruct (Z.gtb_spec (TrillianLogRootDescriptor.metadata_size d) 65535);
    [split; [discriminate | lia] |].
  destruct (Z.eqb_spec (len (TrillianLogRootDescriptor.metadata d))
              (TrillianLogRootDescriptor.metadata_size d));
    cbn [negb]; [| split; [discriminate | lia]].
  split; [intros _; lia | reflexivity].
Qed.

(** X3: a descriptor parsed from data serialises to the bytes it was read
    from.  The parser accepts data that goes on after the descriptor: the
    descriptor is then the first [get_expected_size()] bytes, never more
    than the data holds, and [encode] gives back exactly those; it gives
    back the whole data when nothing follows. *)
Theorem descriptor_parse_then_encode
        (data : bytes) (d : TrillianLogRootDescriptor.t) :
  TrillianLogRootDescriptor.init (Some data) = Ok d ->
  data <> [] ->
  TrillianLogRootDescriptor.is_valid d = true
  /\ TrillianLogRootDescriptor.get_expected_size d <= len data
  /\ TrillianLogRootDescriptor.encode d
     = Ok (slice_to (TrillianLogRootDescriptor.get_expected_size d) data)
  /\ (len data = TrillianLogRootDescriptor.get_expected_size d ->
      TrillianLogRootDescriptor.encode d = Ok data).
Proof.
  intros Hinit Hdata.
  destruct (descriptor_round_trip data d Hinit Hdata) as [Henc Hall].
  pose proof (descriptor_init_valid _ _ Hinit) as Hvalid.
  split; [exact Hvalid |]. split; [| split; assumption].
  pose proof Henc as Hlen. unfold TrillianLogRootDescriptor.encode in Hlen.
  rewrite Hvalid in Hlen. cbn [negb] in Hlen.
  apply pack_calcsize in Hlen.
  apply descriptor_is_valid_spec in Hvalid.
  unfold slice_to in Hlen. rewrite length_firstn in Hlen.
  rewrite !calcsize_app in Hlen.
  unfold TrillianLogRootDescriptor.get_expected_size in *.
  cbn [calcsize fold_right width
         TrillianLogRootDescriptor.FORMAT_STRING_PART_1
         TrillianLogRootDescriptor.FORMAT_STRING_PART_2] in *.
  unfold len. lia.
Qed.

End DescriptorCodec.

(** The first descriptor of the test doubles, with two bytes after it. *)
Lemma descriptor_parse_then_encode_witness :
  exists d,
    TrillianLogRootDescriptor.init (Some (double_log_root ++ [xff; xff]))
    = Ok d
    /\ TrillianLogRootDescriptor.get_expected_size d = 61
    /\ TrillianLogRootDescriptor.encode d = Ok double_log_root.
Proof.
  destruct (TrillianLogRootDescriptor.init
              (Some (double_log_root ++ [xff; xff]))) as [d |] eqn:Hinit;
    [| vm_compute in Hinit; discriminate Hinit].
  exists d. split; [reflexivity |].
  assert (Hdata : double_log_root ++ [xff; xff] <> []) by discriminate.
  destruct (descriptor_parse_then_encode _ d Hinit Hdata)
    as (_ & _ & Henc & _).
  assert (Hsize : TrillianLogRootDescriptor.get_expected_size d = 61).
  { vm_compute in Hinit. injection Hinit as <-. reflexivity. }
  split; [exact Hsize |].
  rewrite Henc, Hsize. reflexivity.
Defined.

Section DescriptorEncode.
Import Struct.

Lemma slice_prefix {A} (n : Z) (a r : list A) :
  len a = n -> slice 0 n (a ++ r) = a.
Proof.
  unfold slice, len. intros <-. cbn [Z.to_nat skipn].
  rewrite Z.sub_0_r, Nat2Z.id.
  rewrite firstn_app, Nat.sub_diag, firstn_all. cbn [firstn].
  apply app_nil_r.
Qed.

Lemma slice_from_prefix {A} (n : Z) (a r : list A) :
  len a = n -> slice_from n (a ++ r) = r.
Proof.
  unfold slice_from, len. intros <-. rewrite Nat2Z.id.
  rewrite skipn_app, Nat.sub_diag, skipn_all. reflexivity.
Qed.

Lemma len_0_nil {A} (l : list A) : len l <= 0 -> l = [].
Proof. destruct l; [reflexivity |]. unfold len. cbn [List.length]. lia. Qed.

Lemma no_bytes_item_part_1 k :
  ~ In (s k) TrillianLogRootDescriptor.FORMAT_STRING_PART_1.
Proof.
  intros Hin. cbn in Hin.
  repeat (destruct Hin as [Hin | Hin]; [discriminate |]). exact Hin.
Qed.

Lemma no_bytes_item_part_2 k :
  ~ In (s k) TrillianLogRootDescriptor.FORMAT_STRING_PART_2.
Proof.
  intros Hin. cbn in Hin.
  repeat (destruct Hin as [Hin | Hin]; [discriminate |]). exact Hin.
Qed.

(** What was packed with an integer-only format unpacks to the same
    values. *)
Lemma pack_ints_unpack fmt vs b :
  (forall n, ~ In (s n) fmt) -> pack fmt vs = Ok b ->
  unpack fmt b = Ok vs /\ List.length b = calcsize fmt.
Proof.
  intros Hs Hp. pose proof (pack_ints_fit _ _ _ Hs Hp) as Hf.
  destruct (pack_unpack _ _ Hf) as (b' & Hp' & Hl & Hu).
  rewrite Hp in Hp'. injection Hp' as <-. now split.
Qed.

(** The parser on the layout that [encode] writes, whatever follows it. *)
Lemma descriptor_parse_layout
      (version tree_size timestamp revision : Z) (root_hash metadata : bytes)
      (b1 b2 rest : bytes) :
  pack TrillianLogRootDescriptor.FORMAT_STRING_PART_1
       [VInt version; VInt tree_size; VInt (len root_hash)] = Ok b1 ->
  pack TrillianLogRootDescriptor.FORMAT_STRING_PART_2
       [VInt timestamp; VInt revision; VInt (len metadata)] = Ok b2 ->
  TrillianLogRootDescriptor.parse
    (b1 ++ root_hash ++ b2 ++ metadata ++ rest)
  = Ok (TrillianLogRootDescriptor.mk version tree_size (len root_hash)
          root_hash timestamp revision (len metadata) metadata).
Proof.
  intros Hp1 Hp2.
  destruct (pack_ints_unpack _ _ _ no_bytes_item_part_1 Hp1) as [Hu1 Hl1].
  destruct (pack_ints_unpack _ _ _ no_bytes_item_part_2 Hp2) as [Hu2 Hl2].
  unfold TrillianLogRootDescriptor.parse. cbv zeta.
  rewrite slice_prefix by (unfold len; now rewrite Hl1).
  rewrite Hu1. cbn [Py.bind].
  rewrite slice_from_prefix by (unfold len; now rewrite Hl1).
  assert (Hroot :
            (if len root_hash >? 0
             then (slice 0 (len root_hash)
                         (root_hash ++ b2 ++ metadata ++ rest),
                   slice_from (len root_hash)
                              (root_hash ++ b2 ++ metadata ++ rest))
             else ([], root_hash ++ b2 ++ metadata ++ rest))
            = (root_hash, b2 ++ metadata ++ rest)).
  { destruct (Z.gtb_spec (len root_hash) 0) as [Hgt | Hle].
    - now rewrite slice_prefix, slice_from_prefix.
    - now rewrite (len_0_nil _ Hle). }
  rewrite Hroot.
  rewrite slice_prefix by (unfold len; now rewrite Hl2).
  rewrite Hu2. cbn [Py.bind].
  rewrite slice_from_prefix by (unfold len; now rewrite Hl2).
  do 2 f_equal.
  destruct (Z.gtb_spec (len metadata) 0) as [Hgt | Hle].
  - now rewrite slice_prefix.
  - now rewrite (len_0_nil _ Hle).
Qed.

Lemma pack_app_inv f1 : forall f2 v1 v2 b,
  List.length v1 = List.length f1 ->
  pack (f1 ++ f2) (v1 ++ v2) = Ok b ->
  exists b1 b2, pack f1 v1 = Ok b1 /\ pack f2 v2 = Ok b2 /\ b = b1 ++ b2.
Proof.
  induction f1 as [| i f1 IH]; intros f2 [| v v1] v2 b Hl Hp;
    try discriminate.
  - exists [], b. now repeat split.
  - cbn [pack app] in *.
    destruct (pack_item i v) as [bi |]; cbn [Py.bind] in *; [| discriminate].
    destruct (pack (f1 ++ f2) (v1 ++ v2)) as [br |] eqn:Hr;
      cbn [Py.bind] in Hp; [| discriminate].
    injection Hp as <-. injection Hl as Hl.
    destruct (IH _ _ _ _ Hl Hr) as (b1 & b2 & H1 & H2 & ->).
    rewrite H1. cbn [Py.bind]. exists (bi ++ b1), b2.
    repeat split; [exact H2 | now rewrite app_assoc].
Qed.

Lemma pack_item_raises i v e : pack_item i v = Raise e -> e = StructError.
Proof.
  destruct i, v; unfold pack_item; try congruence.
  all: destruct (_ && _); congruence.
Qed.

(** [struct.pack] raises nothing but [struct.error]. *)
Lemma pack_raises fmt : forall vs e,
  pack fmt vs = Raise e -> e = StructError.
Proof.
  induction fmt as [| i fmt IH]; intros [| v vs] e Hp; cbn [pack] in Hp;
    try congruence.
  destruct (pack_item i v) as [bi |] eqn:Hi; cbn [Py.bind] in Hp.
  - destruct (pack fmt vs) as [br |] eqn:Hr; cbn [Py.bind] in Hp;
      [discriminate |].
    injection Hp as <-. exact (IH _ _ Hr).
  - injection Hp as <-. exact (pack_item_raises _ _ _ Hi).
Qed.

(** A valid descriptor whose three 64-bit fields fit their width
    serialises to [get_expected_size()] bytes, which parse to the same
    descriptor whatever follows them. *)
Lemma descriptor_encode_layout (d : TrillianLogRootDescriptor.t) :
  TrillianLogRootDescriptor.is_valid d = true ->
  TrillianLogRootDescriptor.tree_size d < 2 ^ 64 ->
  TrillianLogRootDescriptor.timestamp d < 2 ^ 64 ->
  TrillianLogRootDescriptor.revision d < 2 ^ 64 ->
  exists data,
    TrillianLogRootDescriptor.encode d = Ok data
    /\ len data = TrillianLogRootDescriptor.get_expected_size d
    /\ data <> []
    /\ forall rest,
         TrillianLogRootDescriptor.parse (data ++ rest) = Ok d.
Proof.
  intros Hvalid Hts Htm Hrev.
  pose proof (proj1 (descriptor_is_valid_spec d) Hvalid)
    as (Hv & Hts0 & Hrhs & Hlroot & Htm0 & Hrev0 & Hmsz & Hlmeta).
  destruct d as [version tree_size rhs root_hash timestamp revision msz
                    metadata].
  cbn [TrillianLogRootDescriptor.root_hash_size
         TrillianLogRootDescriptor.metadata_size
         TrillianLogRootDescriptor.version
         TrillianLogRootDescriptor.tree_size
         TrillianLogRootDescriptor.root_hash
         TrillianLogRootDescriptor.timestamp
         TrillianLogRootDescriptor.revision
         TrillianLogRootDescriptor.metadata] in *.
  subst version rhs msz.
  assert (E2 : 256 ^ Z.of_nat (width H) = 65536) by reflexivity.
  assert (E8 : 256 ^ Z.of_nat (width Q) = 2 ^ 64) by reflexivity.
  assert (E1 : 256 ^ Z.of_nat (width B) = 256) by reflexivity.
  assert (Hf1 : Forall2 fits TrillianLogRootDescriptor.FORMAT_STRING_PART_1
                        [VInt 1; VInt tree_size; VInt (len root_hash)]).
  { repeat constructor; unfold fits; rewrite ?E1, ?E2, ?E8; lia. }
  assert (Hf2 : Forall2 fits TrillianLogRootDescriptor.FORMAT_STRING_PART_2
                        [VInt timestamp; VInt revision; VInt (len metadata)]).
  { repeat constructor; unfold fits; rewrite ?E1, ?E2, ?E8; lia. }
  destruct (pack_unpack _ _ Hf1) as (b1 & Hp1 & Hl1 & _).
  destruct (pack_unpack _ _ Hf2) as (b2 & Hp2 & Hl2 & _).
  exists (b1 ++ root_hash ++ b2 ++ metadata).
  split; [| split; [| split]].
  - unfold TrillianLogRootDescriptor.encode. rewrite Hvalid. cbn [negb].
    cbn [TrillianLogRootDescriptor.root_hash_size
           TrillianLogRootDescriptor.metadata_size
           TrillianLogRootDescriptor.version
           TrillianLogRootDescriptor.tree_size
           TrillianLogRootDescriptor.root_hash
           TrillianLogRootDescriptor.timestamp
           TrillianLogRootDescriptor.revision
           TrillianLogRootDescriptor.metadata].
    exact (pack_app _ _ [VInt 1; VInt tree_size; VInt (len root_hash)]
             _ _ _ Hp1
             (pack_app _ _ [VBytes root_hash] _ _ _ (pack_bytes root_hash)
                (pack_app _ _
                   [VInt timestamp; VInt revision; VInt (len metadata)]
                   [VBytes metadata] _ _ Hp2 (pack_bytes metadata)))).
  - unfold TrillianLogRootDescriptor.get_expected_size, len.
    cbn [TrillianLogRootDescriptor.root_hash_size
           TrillianLogRootDescriptor.metadata_size].
    rewrite !length_app, Hl1, Hl2. unfold len. lia.
  - destruct b1; [discriminate Hl1 | discriminate].
  - intros rest.
    pose proof (descriptor_parse_layout 1 tree_size timestamp revision
                  root_hash metadata b1 b2 rest Hp1 Hp2) as Hparse.
    rewrite <- !app_assoc. exact Hparse.
Qed.

(** X4: a valid descriptor whose three 64-bit fields fit their width can
    be serialised, to [get_expected_size()] bytes, and parsing those bytes,
    with or without further bytes after them, gives the descriptor back. *)
Theorem descriptor_encode_then_parse (d : TrillianLogRootDescriptor.t) :
  TrillianLogRootDescriptor.is_valid d = true ->
  TrillianLogRootDescriptor.tree_size d < 2 ^ 64 ->
  TrillianLogRootDescriptor.timestamp d < 2 ^ 64 ->
  TrillianLogRootDescriptor.revision d < 2 ^ 64 ->
  exists data,
    TrillianLogRootDescriptor.encode d = Ok data
    /\ len data = TrillianLogRootDescriptor.get_expected_size d
    /\ forall rest,
         TrillianLogRootDescriptor.init (Some (data ++ rest)) = Ok d.
Proof.
  intros Hvalid Hts Htm Hrev.
  destruct (descriptor_encode_layout d Hvalid Hts Htm Hrev)
    as (data & Henc & Hlen & Hne & Hparse).
  exists data. split; [exact Henc |]. split; [exact Hlen |].
  intros rest. unfold TrillianLogRootDescriptor.init.
  match goal with
  | |- context [truthy ?x] =>
      assert (Htruthy : truthy x = true)
        by (destruct data; [congruence | reflexivity]);
      rewrite Htruthy
  end.
  rewrite Hparse. cbn [Py.bind]. now rewrite Hvalid.
Qed.

(** X5: validity does not bound the 64-bit fields from above.  A valid
    descriptor whose tree size, timestamp or revision does not fit 64 bits
    cannot be serialised: [encode] raises [struct.error], which is not an
    [AftlError]. *)
Theorem descriptor_encode_overflow (d : TrillianLogRootDescriptor.t) :
  TrillianLogRootDescriptor.is_valid d = true ->
  2 ^ 64 <= TrillianLogRootDescriptor.tree_size d
  \/ 2 ^ 64 <= TrillianLogRootDescriptor.timestamp d
  \/ 2 ^ 64 <= TrillianLogRootDescriptor.revision d ->
  TrillianLogRootDescriptor.encode d = Raise StructError.
Proof.
  intros Hvalid Hbig.
  unfold TrillianLogRootDescriptor.encode. rewrite Hvalid. cbn [negb].
  cbv zeta.
  match goal with
  | |- ?p = _ => destruct p as [b | e] eqn:Hp
  end.
  2: { f_equal. exact (pack_raises _ _ _ Hp). }
  exfalso.
  assert (E8 : 256 ^ Z.of_nat (width Q) = 2 ^ 64) by reflexivity.
  apply (pack_app_inv TrillianLogRootDescriptor.FORMAT_STRING_PART_1 _
           [VInt (TrillianLogRootDescriptor.version d);
            VInt (TrillianLogRootDescriptor.tree_size d);
            VInt (TrillianLogRootDescriptor.root_hash_size d)]
           [VBytes (TrillianLogRootDescriptor.root_hash d);
            VInt (TrillianLogRootDescriptor.timestamp d);
            VInt (TrillianLogRootDescriptor.revision d);
            VInt (TrillianLogRootDescriptor.metadata_size d);
            VBytes (TrillianLogRootDescriptor.metadata d)]
           b eq_refl) in Hp.
  destruct Hp as (b1 & br & Hp1 & Hp & _).
  apply (pack_app_inv [s (TrillianLogRootDescriptor.root_hash_size d)] _
           [VBytes (TrillianLogRootDescriptor.root_hash d)]
           [VInt (TrillianLogRootDescriptor.timestamp d);
            VInt (TrillianLogRootDescriptor.revision d);
            VInt (TrillianLogRootDescriptor.metadata_size d);
            VBytes (TrillianLogRootDescriptor.metadata d)]
           br eq_refl) in Hp.
  destruct Hp as (_ & br' & _ & Hp & _).
  apply (pack_app_inv TrillianLogRootDescriptor.FORMAT_STRING_PART_2 _
           [VInt (TrillianLogRootDescriptor.timestamp d);
            VInt (TrillianLogRootDescriptor.revision d);
            VInt (TrillianLogRootDescriptor.metadata_size d)]
           [VBytes (TrillianLogRootDescriptor.metadata d)]
           br' eq_refl) in Hp.
  destruct Hp as (b2 & _ & Hp2 & _ & _).
  apply pack_ints_fit in Hp1; [| exact no_bytes_item_part_1].
  apply pack_ints_fit in Hp2; [| exact no_bytes_item_part_2].
  inversion Hp1 as [| ? ? ? ? _ Ht1]; subst.
  inversion Ht1 as [| ? ? ? ? Hts _]; subst.
  inversion Hp2 as [| ? ? ? ? Htm Ht2]; subst.
  inversion Ht2 as [| ? ? ? ? Hrev _]; subst.
  unfold fits in Hts, Htm, Hrev. rewrite E8 in Hts, Htm, Hrev. lia.
Qed.

(** An integer-only format of three items unpacks to three integers in
    range. *)
Lemma unpack_three i1 i2 i3 b vs :
  (forall n, ~ In (s n) [i1; i2; i3]) ->
  unpack [i1; i2; i3] b = Ok vs ->
  exists x y z,
    vs = [VInt x; VInt y; VInt z]
    /\ 0 <= x /\ 0 <= y /\ 0 <= z
    /\ List.length b = calcsize [i1; i2; i3].
Proof.
  intros Hs Hu.
  assert (Hl : List.length b = calcsize [i1; i2; i3]).
  { unfold unpack in Hu.
    destruct (Nat.eqb_spec (List.length b) (calcsize [i1; i2; i3]));
      [assumption | discriminate]. }
  apply unpack_ints_fit in Hu; [| exact Hs].
  inversion Hu as [| ? v1 ? ? Hf1 Ht1]; subst.
  inversion Ht1 as [| ? v2 ? ? Hf2 Ht2]; subst.
  inversion Ht2 as [| ? v3 ? ? Hf3 Ht3]; subst.
  inversion Ht3; subst.
  assert (Hint : forall i v, (forall n, i <> s n) -> fits i v ->
                             exists z, v = VInt z /\ 0 <= z).
  { intros i v Hi Hf. destruct i, v; cbn [fits] in Hf;
      try contradiction; try (eexists; split; [reflexivity | lia]).
    now elim (Hi n). }
  destruct (Hint _ _ (fun n E => Hs n (or_introl E)) Hf1)
    as (x & -> & Hx).
  destruct (Hint _ _ (fun n E => Hs n (or_intror (or_introl E))) Hf2)
    as (y & -> & Hy).
  destruct (Hint _ _
              (fun n E => Hs n (or_intror (or_intror (or_introl E))))
              Hf3) as (z & -> & Hz).
  exists x, y, z. now repeat split.
Qed.

(** X6: data that is not empty but shorter than the 29 bytes of the fixed
    fields is no descriptor, and the error is not an [AftlError]:
    [TrillianLogRootDescriptor(data)] raises [struct.error]. *)
Theorem descriptor_truncated (data : bytes) :
  data <> [] -> len data < 29 ->
  TrillianLogRootDescriptor.init (Some data) = Raise StructError.
Proof.
  intros Hdata Hlen. unfold TrillianLogRootDescriptor.init.
  destruct data as [| x data]; [congruence |]. cbn [truthy].
  set (data0 := x :: data) in *.
  assert (Hparse : TrillianLogRootDescriptor.parse data0 = Raise StructError);
    [| now rewrite Hparse].
  unfold TrillianLogRootDescriptor.parse.
  change (Z.of_nat (calcsize TrillianLogRootDescriptor.FORMAT_STRING_PART_1))
    with 11.
  change (Z.of_nat (calcsize TrillianLogRootDescriptor.FORMAT_STRING_PART_2))
    with 18.
  destruct (unpack TrillianLogRootDescriptor.FORMAT_STRING_PART_1
              (slice 0 11 data0)) as [vs1 | e] eqn:Hu1; cbn [Py.bind].
  2: { unfold unpack in Hu1. destruct (_ =? _)%nat; congruence. }
  destruct (unpack_three _ _ _ _ _ no_bytes_item_part_1 Hu1)
    as (version & tree_size & rhs & -> & _ & _ & Hrhs & _).
  set (rest1 := if rhs >? 0 then _ else _).
  assert (Hrest1 : rest1 = (slice 11 (11 + rhs) data0,
                            slice_from (11 + rhs) data0)).
  { subst rest1. destruct (Z.gtb_spec rhs 0).
    - rewrite slice_of_slice_from, slice_from_twice by lia.
      repeat f_equal; lia.
    - replace rhs with 0 by lia. rewrite Z.add_0_r, slice_empty.
      reflexivity. }
  rewrite Hrest1. clear Hrest1 rest1.
  rewrite slice_of_slice_from by lia. rewrite Z.add_0_r.
  rewrite unpack_short; [reflexivity |].
  unfold slice. rewrite length_firstn, length_skipn.
  change (calcsize TrillianLogRootDescriptor.FORMAT_STRING_PART_2)
    with 18%nat.
  unfold len in Hlen. lia.
Qed.

End DescriptorEncode.

(** The descriptor of the test doubles and its 61 bytes. *)
Lemma descriptor_encode_then_parse_witness :
  exists data,
    TrillianLogRootDescriptor.encode
      (TrillianLogRootDescriptor.mk 1 1 32
         (double_sha256 (x00 :: double_leaf_bytes)) 0 0 0 []) = Ok data
    /\ len data = 61
    /\ forall rest,
         TrillianLogRootDescriptor.init (Some (data ++ rest))
         = Ok (TrillianLogRootDescriptor.mk 1 1 32
                 (double_sha256 (x00 :: double_leaf_bytes)) 0 0 0 []).
Proof.
  apply (descriptor_encode_then_parse
           (TrillianLogRootDescriptor.mk 1 1 32
              (double_sha256 (x00 :: double_leaf_bytes)) 0 0 0 []));
    [reflexivity | cbn; lia | cbn; lia | cbn; lia].
Defined.

(** The default descriptor with a tree size of [2 ^ 64]. *)
Lemma descriptor_encode_overflow_witness :
  TrillianLogRootDescriptor.is_valid
    (TrillianLogRootDescriptor.mk 1 (2 ^ 64) 0 [] 0 0 0 []) = true
  /\ TrillianLogRootDescriptor.encode
       (TrillianLogRootDescriptor.mk 1 (2 ^ 64) 0 [] 0 0 0 [])
     = Raise StructError.
Proof.
  split; [reflexivity |].
  apply descriptor_encode_overflow; [reflexivity | left; cbn; lia].
Defined.

(** Ten bytes, one fewer than the first fixed part. *)
Lemma descriptor_truncated_witness :
  TrillianLogRootDescriptor.init (Some (repeat x00 10)) = Raise StructError.
Proof.
  apply descriptor_truncated; [discriminate | vm_compute; reflexivity].
Defined.

(** ** The firmware info leaf *)

Section LeafProperties.
Context `{Ext : Externals}.

(** X7: what [FirmwareInfoLeaf(data)] raises on data that is not a leaf.
    Malformed JSON gives an [AftlError] that ends with the text of the
    decoder, and an object without the key [Value] one that ends with the
    key between quotes; a JSON value that is not an object where the code
    subscripts it gives a [TypeError], and firmware info that is not an
    object an [AttributeError], neither of which the constructor
    catches. *)
Theorem leaf_init_rejects (data : bytes) :
  data <> [] ->
  (forall text,
      json_loads data = Raise (ValueError text) ->
      FirmwareInfoLeaf.init (Some data)
      = Raise (AftlError
                 ("Invalid structure for FirmwareInfoLeaf: " ++ text)%string))
  /\ (forall d,
        json_loads data = Ok (JDict d) ->
        FirmwareInfoLeaf.dict_get "Value" d = None ->
        FirmwareInfoLeaf.init (Some data)
        = Raise (AftlError
                   "Invalid structure for FirmwareInfoLeaf: 'Value'"%string))
  /\ (forall j,
        json_loads data = Ok j -> (forall d, j <> JDict d) ->
        FirmwareInfoLeaf.init (Some data) = Raise TypeError)
  /\ (forall j,
        (fw_info_leaf <- json_loads data ;;
         a <- FirmwareInfoLeaf.subscript fw_info_leaf "Value" ;;
         b <- FirmwareInfoLeaf.subscript a "FwInfo" ;;
         c <- FirmwareInfoLeaf.subscript b "info" ;;
         FirmwareInfoLeaf.subscript c "info") = Ok j ->
        (forall d, j <> JDict d) ->
        FirmwareInfoLeaf.init (Some data) = Raise AttributeError).
Proof.
  intros Hdata. destruct data as [| x data]; [congruence |].
  unfold FirmwareInfoLeaf.init. cbn [truthy].
  split; [| split; [| split]].
  - intros text ->. reflexivity.
  - intros d -> Hget. cbn [Py.bind FirmwareInfoLeaf.subscript].
    rewrite Hget. reflexivity.
  - intros j -> Hj. cbn [Py.bind].
    destruct j; cbn [FirmwareInfoLeaf.subscript Py.bind]; try reflexivity.
    now elim (Hj d).
  - intros j -> Hj. cbn [Py.bind].
    unfold FirmwareInfoLeaf.is_valid.
    cbn [FirmwareInfoLeaf._fw_info_leaf_dict].
    destruct j; cbn [Py.bind]; try reflexivity.
    now elim (Hj d).
Qed.

(** X8: the leaf keeps the bytes it was made from.  Whatever JSON the data
    holds, a leaf that [FirmwareInfoLeaf(data)] returns serialises to
    [data] itself, byte for byte, and has its length for size - the hash
    of the leaf is taken over these bytes - and its firmware info is a
    JSON object. *)
Theorem leaf_keeps_bytes (data : option bytes) (leaf : FirmwareInfoLeaf.t) :
  FirmwareInfoLeaf.init data = Ok leaf ->
  let original := match data with Some d => d | None => [] end in
  FirmwareInfoLeaf.encode leaf = original
  /\ FirmwareInfoLeaf.get_expected_size leaf = len original
  /\ rfc6962_hash_leaf (FirmwareInfoLeaf.encode leaf)
     = sha256 (x00 :: original)
  /\ exists d, FirmwareInfoLeaf._fw_info_leaf_dict leaf = JDict d.
Proof.
  intros Hinit original.
  assert (Hbytes : FirmwareInfoLeaf.encode leaf = original
                   /\ FirmwareInfoLeaf.get_expected_size leaf = len original).
  { destruct data as [d |]; [exact (leaf_init_bytes _ _ Hinit) |].
    cbn in Hinit. injection Hinit as <-. split; reflexivity. }
  destruct Hbytes as [Henc Hsize].
  split; [exact Henc |]. split; [exact Hsize |].
  split; [now rewrite Henc |].
  unfold FirmwareInfoLeaf.init in Hinit.
  destruct (if truthy data then _ else _) as [self |]; cbn [Py.bind] in Hinit;
    [| discriminate].
  unfold FirmwareInfoLeaf.is_valid in Hinit.
  destruct (FirmwareInfoLeaf._fw_info_leaf_dict self) as [| | | | | d] eqn:Hd;
    cbn [Py.bind] in Hinit; try discriminate.
  destruct (negb _); [discriminate |]. injection Hinit as <-.
  now exists d.
Qed.

End LeafProperties.

(** The theorem under a JSON reader that refuses what is not JSON: an
    exclamation mark, an empty object and an empty list. *)
Lemma leaf_init_rejects_witness :
  @FirmwareInfoLeaf.init strict_externals (Some [x21])
  = Raise (AftlError
             ("Invalid structure for FirmwareInfoLeaf: "
                ++ "Expecting value: line 1 column 1 (char 0)")%string)
  /\ @FirmwareInfoLeaf.init strict_externals
       (Some (list_byte_of_string "{}"))
     = Raise (AftlError
                "Invalid structure for FirmwareInfoLeaf: 'Value'"%string)
  /\ @FirmwareInfoLeaf.init strict_externals
       (Some (list_byte_of_string "[]"))
     = Raise TypeError.
Proof.
  assert (H1 : [x21] <> []) by discriminate.
  assert (H2 : list_byte_of_string "{}" <> []) by discriminate.
  assert (H3 : list_byte_of_string "[]" <> []) by discriminate.
  split; [| split].
  - exact (proj1 (@leaf_init_rejects strict_externals _ H1) _ eq_refl).
  - exact (proj1 (proj2 (@leaf_init_rejects strict_externals _ H2))
             [] eq_refl eq_refl).
  - apply (proj1 (proj2 (proj2 (@leaf_init_rejects strict_externals _ H3)))
             (JList []) eq_refl).
    discriminate.
Defined.

(** The leaf of the test doubles. *)
Lemma leaf_keeps_bytes_witness :
  FirmwareInfoLeaf.init (Some double_leaf_bytes)
  = Ok (FirmwareInfoLeaf.mk double_leaf_bytes double_leaf_info)
  /\ FirmwareInfoLeaf.encode
       (FirmwareInfoLeaf.mk double_leaf_bytes double_leaf_info)
     = double_leaf_bytes.
Proof.
  assert (Hinit : FirmwareInfoLeaf.init (Some double_leaf_bytes)
                  = Ok (FirmwareInfoLeaf.mk double_leaf_bytes
                          double_leaf_info))
    by (vm_compute; reflexivity).
  split; [exact Hinit |].
  exact (proj1 (leaf_keeps_bytes (Some double_leaf_bytes) _ Hinit)).
Defined.

(** ** The image header as a codec *)

Section HeaderCodec.
Import Struct.
Context `{Ext : Externals}.


Lemma bytes_eqb_eq (a : bytes) : forall b, bytes_eqb a b = true <-> a = b.
Proof.
  induction a as [| x a IH]; intros [| y b]; cbn [bytes_eqb];
    try (split; [discriminate | congruence]); [now split |].
  rewrite andb_true_iff, IH. split.
  - intros [Hx ->]. f_equal. now apply Byte.byte_dec_bl.
  - intros [= -> ->]. split; [now apply Byte.byte_dec_lb | reflexivity].
Qed.

Lemma header_is_valid_spec (h : AftlImageHeader.t) :
  AftlImageHeader.is_valid h = true <->
  AftlImageHeader.magic h = AftlImageHeader.MAGIC
  /\ AftlImageHeader.required_icp_version_major h <= AVB_VERSION_MAJOR
  /\ AftlImageHeader.required_icp_version_minor h <= AVB_VERSION_MINOR
  /\ AftlImageHeader.SIZE <= AftlImageHeader.aftl_image_size h
  /\ 0 <= AftlImageHeader.icp_count h <= 65535.
Proof.
  unfold AftlImageHeader.is_valid.
  destruct (bytes_eqb (AftlImageHeader.magic h) AftlImageHeader.MAGIC)
    eqn:Hm; cbn [negb].
  2: { split; [discriminate |]. intros (Hm' & _).
       apply bytes_eqb_eq in Hm'. congruence. }
  apply bytes_eqb_eq in Hm.
  destruct (Z.gtb_spec (AftlImageHeader.required_icp_version_major h)
              AVB_VERSION_MAJOR); [split; [discriminate | lia] |].
  destruct (Z.gtb_spec (AftlImageHeader.required_icp_version_minor h)
              AVB_VERSION_MINOR); [split; [discriminate | lia] |].
  destruct (Z.ltb_spec (AftlImageHeader.aftl_image_size h)
              AftlImageHeader.SIZE); [split; [discriminate | lia] |].
  destruct (Z.ltb_spec (AftlImageHeader.icp_count h) 0); cbn [orb];
    [split; [discriminate | lia] |].
  destruct (Z.gtb_spec (AftlImageHeader.icp_count h) 65535);
    [split; [discriminate | lia] |].
  split; [intros _; repeat split; assumption || lia | reflexivity].
Qed.

Lemma no_bytes_item_header_ints k : ~ In (s k) [L; L; L; H].
Proof.
  intros Hin. cbn in Hin.
  repeat (destruct Hin as [Hin | Hin]; [discriminate |]). exact Hin.
Qed.

(** The header that was read from [data], in terms of [struct]. *)
Lemma header_init_fields (data : bytes) (h : AftlImageHeader.t) :
  AftlImageHeader.init (Some data) = Ok h ->
  data <> [] ->
  AftlImageHeader.is_valid h = true
  /\ pack AftlImageHeader.FORMAT_STRING
          [VBytes (AftlImageHeader.magic h);
           VInt (AftlImageHeader.required_icp_version_major h);
           VInt (AftlImageHeader.required_icp_version_minor h);
           VInt (AftlImageHeader.aftl_image_size h);
           VInt (AftlImageHeader.icp_count h)] = Ok data
  /\ len data = AftlImageHeader.SIZE.
Proof.
  intros Hinit Hdata. unfold AftlImageHeader.init in Hinit.
  destruct data as [| x data]; [congruence |]. cbn [truthy] in Hinit.
  set (data0 := x :: data) in *.
  destruct (unpack AftlImageHeader.FORMAT_STRING data0) as [vs |] eqn:Hu;
    cbn [Py.bind] in Hinit; [| discriminate].
  assert (Hlen : List.length data0 = 18%nat).
  { unfold unpack in Hu.
    destruct (Nat.eqb_spec (List.length data0)
                (calcsize AftlImageHeader.FORMAT_STRING));
      [assumption | discriminate]. }
  apply unpack_pack in Hu.
  2: { intros n Hin. cbn in Hin.
       destruct Hin as [[= <-] | Hin]; [lia |].
       now apply no_bytes_item_header_ints in Hin. }
  destruct vs as [| [| magic] [| [major |] [| [minor |] [| [size |]
                 [| [count |] [|]]]]]]; try discriminate.
  cbn [Py.bind] in Hinit.
  destruct (AftlImageHeader.is_valid _) eqn:Hv; cbn [negb] in Hinit;
    [| discriminate].
  injection Hinit as <-.
  split; [exact Hv |]. split; [exact Hu |].
  unfold len. rewrite Hlen. reflexivity.
Qed.

(** X9: a header that [AftlImageHeader(data)] accepts was read from exactly
    18 bytes that start with the magic [AFTL]; its versions are not newer
    than those of the tool, its size field is at least 18, and it
    serialises to the bytes it was read from. *)
Theorem header_parse_then_encode (data : bytes) (h : AftlImageHeader.t) :
  AftlImageHeader.init (Some data) = Ok h ->
  data <> [] ->
  len data = 18
  /\ slice_to 4 data = AftlImageHeader.MAGIC
  /\ AftlImageHeader.magic h = AftlImageHeader.MAGIC
  /\ 0 <= AftlImageHeader.required_icp_version_major h <= AVB_VERSION_MAJOR
  /\ 0 <= AftlImageHeader.required_icp_version_minor h <= AVB_VERSION_MINOR
  /\ 18 <= AftlImageHeader.aftl_image_size h < 2 ^ 32
  /\ 0 <= AftlImageHeader.icp_count h <= 65535
  /\ AftlImageHeader.encode h = Ok data.
Proof.
  intros Hinit Hdata.
  destruct (header_init_fields data h Hinit Hdata) as (Hv & Hp & Hlen).
  pose proof (proj1 (header_is_valid_spec h) Hv)
    as (Hmagic & Hmajor & Hminor & Hsize & Hcount).
  pose proof Hp as Hp'.
  apply (pack_app_inv [s 4] [L; L; L; H]
           [VBytes (AftlImageHeader.magic h)]
           [VInt (AftlImageHeader.required_icp_version_major h);
            VInt (AftlImageHeader.required_icp_version_minor h);
            VInt (AftlImageHeader.aftl_image_size h);
            VInt (AftlImageHeader.icp_count h)] data eq_refl) in Hp'.
  destruct Hp' as (bm & bi & Hpm & Hpi & Hsplit).
  apply pack_ints_fit in Hpi; [| exact no_bytes_item_header_ints].
  inversion Hpi as [| ? ? ? ? Hf1 Ht1]; subst.
  inversion Ht1 as [| ? ? ? ? Hf2 Ht2]; subst.
  inversion Ht2 as [| ? ? ? ? Hf3 _]; subst.
  unfold fits in Hf1, Hf2, Hf3.
  change (256 ^ Z.of_nat (width L)) with (2 ^ 32) in Hf1, Hf2, Hf3.
  unfold AftlImageHeader.SIZE in *.
  split; [exact Hlen |].
  split.
  { rewrite Hmagic in Hpm. cbn in Hpm. injection Hpm as <-. reflexivity. }
  split; [exact Hmagic |].
  split; [lia |]. split; [lia |]. split; [lia |]. split; [lia |].
  unfold AftlImageHeader.encode. rewrite Hv. exact Hp.
Qed.

(** A valid header whose 32-bit fields fit their width serialises to 18
    bytes that parse to the same header. *)
Lemma header_encode_layout (h : AftlImageHeader.t) :
  AftlImageHeader.is_valid h = true ->
  0 <= AftlImageHeader.required_icp_version_major h < 2 ^ 32 ->
  0 <= AftlImageHeader.required_icp_version_minor h < 2 ^ 32 ->
  AftlImageHeader.aftl_image_size h < 2 ^ 32 ->
  exists data,
    AftlImageHeader.encode h = Ok data
    /\ len data = 18
    /\ AftlImageHeader.init (Some data) = Ok h.
Proof.
  intros Hv Hmajor Hminor Hsize.
  pose proof (proj1 (header_is_valid_spec h) Hv)
    as (Hmagic & _ & _ & Hsize0 & Hcount).
  unfold AftlImageHeader.SIZE in Hsize0.
  destruct h as [magic major minor size count].
  cbn [AftlImageHeader.magic AftlImageHeader.required_icp_version_major
         AftlImageHeader.required_icp_version_minor
         AftlImageHeader.aftl_image_size AftlImageHeader.icp_count] in *.
  subst magic.
  assert (E4 : 256 ^ Z.of_nat (width L) = 2 ^ 32) by reflexivity.
  assert (E2 : 256 ^ Z.of_nat (width H) = 65536) by reflexivity.
  assert (Hf : Forall2 fits AftlImageHeader.FORMAT_STRING
                       [VBytes AftlImageHeader.MAGIC; VInt major; VInt minor;
                        VInt size; VInt count]).
  { repeat constructor; unfold fits; rewrite ?E4, ?E2;
      try lia; reflexivity. }
  destruct (pack_unpack _ _ Hf) as (data & Hp & Hl & Hu).
  exists data. split; [| split].
  - unfold AftlImageHeader.encode. rewrite Hv. exact Hp.
  - unfold len. rewrite Hl. reflexivity.
  - unfold AftlImageHeader.init.
    match goal with
    | |- context [truthy ?x] =>
        assert (Htruthy : truthy x = true)
          by (destruct data; [discriminate Hl | reflexivity]);
        rewrite Htruthy
    end.
    rewrite Hu. cbn [Py.bind]. now rewrite Hv.
Qed.

(** X10: a valid header whose 32-bit fields fit their width serialises to
    18 bytes, and parsing them gives the header back.  Validity alone is
    not enough: it bounds the versions from above only, and the size from
    below only. *)
Theorem header_encode_then_parse (h : AftlImageHeader.t) :
  AftlImageHeader.is_valid h = true ->
  0 <= AftlImageHeader.required_icp_version_major h < 2 ^ 32 ->
  0 <= AftlImageHeader.required_icp_version_minor h < 2 ^ 32 ->
  AftlImageHeader.aftl_image_size h < 2 ^ 32 ->
  exists data,
    AftlImageHeader.encode h = Ok data
    /\ len data = 18
    /\ AftlImageHeader.init (Some data) = Ok h.
Proof. exact (header_encode_layout h). Qed.

End HeaderCodec.

(** The header of the image with one default entry, under the test doubles
    (AVB version 1.2). *)
Lemma header_parse_then_encode_witness :
  exists h,
    AftlImageHeader.init (Some (slice_to 18 one_entry_image_bytes)) = Ok h
    /\ AftlImageHeader.icp_count h = 1
    /\ AftlImageHeader.encode h = Ok (slice_to 18 one_entry_image_bytes).
Proof.
  destruct (AftlImageHeader.init (Some (slice_to 18 one_entry_image_bytes)))
    as [h |] eqn:Hinit; [| vm_compute in Hinit; discriminate Hinit].
  exists h. split; [reflexivity |].
  assert (Hdata : slice_to 18 one_entry_image_bytes <> [])
    by (vm_compute; discriminate).
  split.
  - vm_compute in Hinit. injection Hinit as <-. reflexivity.
  - exact (proj2 (proj2 (proj2 (proj2 (proj2 (proj2 (proj2
             (header_parse_then_encode _ h Hinit Hdata)))))))).
Defined.

(** The header of an image of 74 bytes with one entry. *)
Lemma header_encode_then_parse_witness :
  exists data,
    AftlImageHeader.encode
      (AftlImageHeader.mk AftlImageHeader.MAGIC 1 2 74 1) = Ok data
    /\ len data = 18
    /\ AftlImageHeader.init (Some data)
       = Ok (AftlImageHeader.mk AftlImageHeader.MAGIC 1 2 74 1).
Proof.
  apply (header_encode_then_parse
           (AftlImageHeader.mk AftlImageHeader.MAGIC 1 2 74 1));
    [reflexivity | cbn; lia | cbn; lia | cbn; lia].
Defined.

(** ** What verification means *)

Section VerifierProperties.
Context `{Ext : Externals}.

Lemma truthy_spec {A} (x : option (list A)) :
  truthy x = true <-> exists l, x = Some l /\ l <> [].
Proof.
  destruct x as [[| a l] |]; cbn [truthy]; split;
    try discriminate; try (intros (l' & [= <-] & Hl); congruence);
    try (intros (l' & [=] & _)).
  intros _. eexists. split; [reflexivity | discriminate].
Qed.

Lemma truthy_str_spec (x : option string) :
  truthy_str x = true <-> exists k, x = Some k /\ k <> ""%string.
Proof.
  destruct x as [[| a k] |]; cbn [truthy_str]; split;
    try discriminate; try (intros (k' & [= <-] & Hk); congruence);
    try (intros (k' & [=] & _)).
  intros _. eexists. split; [reflexivity | discriminate].
Qed.

(** X11: an entry verifies for a vbmeta image and a key exactly when the
    image and the key are not empty, the root computed from the bytes of
    the leaf, the leaf index and the proof is the root hash of the
    descriptor, the signature over the serialised descriptor checks
    against the key, and the leaf records the SHA-256 digest of the
    image. *)
Theorem entry_verifies_iff (entry : AftlIcpEntry.t)
        (vbmeta_image : option bytes) (key : option string) :
  AftlIcpEntry.verify_vbmeta_image entry vbmeta_image key = Ok true
  <-> exists v k encoded,
        vbmeta_image = Some v /\ v <> []
        /\ key = Some k /\ k <> ""%string
        /\ root_from_icp
             (AftlIcpEntry.leaf_index entry)
             (TrillianLogRootDescriptor.tree_size
                (AftlIcpEntry.log_root_descriptor entry))
             (Some (AftlIcpEntry.proofs entry))
             (Some (rfc6962_hash_leaf
                      (FirmwareInfoLeaf.encode
                         (AftlIcpEntry.fw_info_leaf entry))))
           = Ok (TrillianLogRootDescriptor.root_hash
                   (AftlIcpEntry.log_root_descriptor entry))
        /\ TrillianLogRootDescriptor.encode
             (AftlIcpEntry.log_root_descriptor entry) = Ok encoded
        /\ check_signature encoded (AftlIcpEntry.log_root_signature entry) k
           = true
        /\ FirmwareInfoLeaf.vbmeta_hash (AftlIcpEntry.fw_info_leaf entry)
           = Ok (Some (sha256 v)).
Proof.
  unfold AftlIcpEntry.verify_vbmeta_image, AftlIcpEntry.verify_icp.
  split.
  - destruct (truthy vbmeta_image) eqn:Hv; cbn [negb]; [| discriminate].
    destruct (truthy_str key) eqn:Hk; cbn [negb Py.bind]; [| discriminate].
    apply truthy_spec in Hv. destruct Hv as (v & -> & Hv).
    apply truthy_str_spec in Hk. destruct Hk as (k & -> & Hk).
    destruct (root_from_icp _ _ _ _) as [calc_root | e]; cbn [Py.bind];
      [| discriminate].
    destruct (bytes_eqb calc_root _) eqn:Hroot; cbn [Py.bind];
      [| discriminate].
    apply bytes_eqb_eq in Hroot. subst calc_root.
    destruct (TrillianLogRootDescriptor.encode _) as [encoded | e];
      cbn [Py.bind]; [| discriminate].
    destruct (check_signature encoded _ k) eqn:Hsig; cbn [Py.bind];
      [| discriminate].
    destruct (FirmwareInfoLeaf.vbmeta_hash _) as [[h |] | e]; cbn [Py.bind];
      try discriminate.
    intros [= Hh]. apply bytes_eqb_eq in Hh. subst h.
    exists v, k, encoded. repeat split; assumption.
  - intros (v & k & encoded & -> & Hv & -> & Hk & Hroot & Henc & Hsig & Hh).
    destruct v as [| x v]; [congruence |].
    destruct k as [| a k]; [congruence |].
    cbn [truthy truthy_str negb].
    rewrite Hroot. cbn [Py.bind].
    rewrite (proj2 (bytes_eqb_eq _ _) eq_refl), Henc. cbn [Py.bind].
    rewrite Hsig. cbn [Py.bind]. rewrite Hh. cbn [Py.bind].
    now rewrite (proj2 (bytes_eqb_eq _ _) eq_refl).
Qed.

(** X12: trusting more keys never makes an image fail.  An image that
    verifies against a list of keys verifies against every list that holds
    these keys, in any order and among any others - also keys that are
    [None] or empty. *)
Theorem image_verification_monotone (image : AftlImage.t)
        (vbmeta_image : option bytes) (keys keys' : list (option string)) :
  AftlImage.verify_vbmeta_image image vbmeta_image (Some keys) = Ok true ->
  incl keys keys' ->
  AftlImage.verify_vbmeta_image image vbmeta_image (Some keys') = Ok true.
Proof.
  unfold AftlImage.verify_vbmeta_image.
  generalize (AftlImage.icp_entries image) as entries.
  intros entries Hv Hincl.
  destruct keys as [| key keys]; [discriminate Hv |].
  destruct keys' as [| key' keys'];
    [elim (Hincl key (or_introl eq_refl)) |].
  destruct (truthy (Some entries)); cbn [truthy negb orb] in *;
    [| discriminate Hv].
  pose proof (count_verified_spec entries vbmeta_image (key :: keys) 0)
    as Hold.
  pose proof (count_verified_spec entries vbmeta_image (key' :: keys') 0)
    as Hnew.
  destruct (AftlImage.count_verified _ _ (key :: keys) 0) as [m | e];
    cbn [Py.bind] in Hv; [| discriminate].
  injection Hv as Hm. apply Z.eqb_eq in Hm.
  destruct Hold as (_ & Hall). apply proj1 in Hall.
  specialize (Hall ltac:(lia)).
  assert (Hall' : Forall (fun entry =>
                            Exists (fun k => entry_verifies vbmeta_image k
                                               entry) (key' :: keys'))
                         entries).
  { eapply Forall_impl; [| exact Hall].
    intros entry Hex. apply Exists_exists in Hex.
    destruct Hex as (k & Hin & Hk). apply Exists_exists.
    exists k. split; [now apply Hincl | exact Hk]. }
  destruct (AftlImage.count_verified _ _ (key' :: keys') 0) as [m' | e];
    cbn [Py.bind].
  - destruct Hnew as (_ & Hiff). apply proj2 in Hiff.
    specialize (Hiff Hall'). f_equal. apply Z.eqb_eq. lia.
  - contradiction.
Qed.

End VerifierProperties.

(** The image of the doubles verifies against the key of its log, and so
    it does when that key comes last among others. *)
Lemma image_verification_monotone_witness :
  AftlImage.verify_vbmeta_image double_image (Some double_vbmeta)
    (Some [None; Some "other.pem"%string; Some "log.pem"%string])
  = Ok true.
Proof.
  apply (image_verification_monotone double_image (Some double_vbmeta)
           [Some "log.pem"%string]).
  - vm_compute. reflexivity.
  - intros k [<- | []]. right. right. now left.
Defined.

(** ** Requests to the logs *)

Section RequestProperties.
Import Aftl.
Context `{Ext : Externals} `{Col : Collaborators}.

(** What a run of [request_inclusion_proof] that left a trace, or returned,
    went through. *)
Lemma request_inclusion_proof_steps c vbmeta_image version_inc
      manufacturer_key_path signing_helper signing_helper_with_files
      timeout w :
  let rw := request_inclusion_proof c vbmeta_image version_inc
              manufacturer_key_path signing_helper signing_helper_with_files
              timeout None w in
  snd rw = w /\ (forall entry, fst rw <> Ok entry)
  \/ exists v pout perr signed,
       vbmeta_image = Some v
       /\ RSAPublicKey_num_bits manufacturer_key_path = Ok 4096
       /\ openssl_rsa_pubout manufacturer_key_path = (pout, perr, 0)
       /\ RSAPublicKey_sign manufacturer_key_path "SHA256_RSA4096"
            (SerializeToString
               (mkFirmwareInfo (sha256 v) version_inc (sha256 pout)))
            signing_helper signing_helper_with_files = Ok signed
       /\ import_grpc = Ok tt
       /\ (forall entry,
             fst rw = Ok entry ->
             exists response,
               stub_AddFirmwareInfo (target c)
                 (signed_request v version_inc pout signed)
                 (comm_timeout timeout) (request_metadata c) = Ok response
               /\ AftlIcpEntry.translate_response default_entry (target c)
                    response = Ok entry
               /\ snd rw
                  = log_request
                      (write_stdout
                         (write_stdout w (msg_preparing (target c)))
                         (msg_requesting (target c))) c).
Proof.
  cbv zeta.
  unfold request_inclusion_proof, bindM, lift.
  destruct vbmeta_image as [v |];
    [| left; split; [reflexivity | discriminate]].
  destruct (RSAPublicKey_num_bits manufacturer_key_path) as [num_bits | e]
    eqn:Hbits; [| left; split; [reflexivity | discriminate]].
  destruct (Z.eqb_spec num_bits 4096) as [-> | Hne]; cbn [negb];
    [| left; split; [reflexivity | discriminate]].
  unfold rsa_key_read_pem_bytes.
  destruct (openssl_rsa_pubout manufacturer_key_path) as [[pout perr] retcode]
    eqn:Hpem.
  destruct (Z.eqb_spec retcode 0) as [-> | Hret]; cbn [negb];
    [| left; split; [reflexivity | discriminate]].
  destruct (RSAPublicKey_sign _ _ _ _ _) as [signed | e] eqn:Hsign;
    [| left; destruct e; split; try reflexivity; discriminate].
  unfold add_firmware_info, bindM, lift, ret, sys_stdout_write.
  destruct import_grpc as [[] | e] eqn:Himport;
    [| left; destruct e; split; try reflexivity; discriminate].
  right. exists v, pout, perr, signed.
  repeat (split; [reflexivity || assumption |]).
  destruct (grpc_insecure_channel (target c)) as [[] | e];
    [| discriminate].
  assert (Hmeta : (if truthy_str (api_key c)
                   then [("x-api-key"%string,
                          match api_key c with
                          | Some k => k
                          | None => ""%string
                          end)]
                   else []) = request_metadata c).
  { unfold request_metadata. destruct (api_key c) as [[| a k] |]; reflexivity. }
  rewrite Hmeta.
  fold (signed_request v version_inc pout signed).
  destruct (stub_AddFirmwareInfo _ _ _ _) as [response | e];
    [| destruct e; discriminate].
  replace (AftlIcpEntry.init None) with (Ok default_entry)
    by (symmetry; vm_compute; reflexivity).
  intros entry Hentry. exists response. split; [reflexivity |].
  destruct (AftlIcpEntry.translate_response _ _ _) as [entry' | e];
    cbn [fst snd] in *; [| discriminate].
  split; [exact Hentry | reflexivity].
Qed.

(** X13: nothing reaches a log, and nothing is written to the standard
    output, unless the vbmeta image is there, the manufacturer key has
    4096 bits, [openssl] decodes it, the firmware info is signed with it
    and the [grpc] modules load. *)
Theorem request_leaves_trace_only_when_signed
        c vbmeta_image version_inc manufacturer_key_path signing_helper
        signing_helper_with_files timeout w :
  let rw := request_inclusion_proof c vbmeta_image version_inc
              manufacturer_key_path signing_helper signing_helper_with_files
              timeout None w in
  snd rw <> w ->
  exists v pout perr signed,
    vbmeta_image = Some v
    /\ RSAPublicKey_num_bits manufacturer_key_path = Ok 4096
    /\ openssl_rsa_pubout manufacturer_key_path = (pout, perr, 0)
    /\ RSAPublicKey_sign manufacturer_key_path "SHA256_RSA4096"
         (SerializeToString
            (mkFirmwareInfo (sha256 v) version_inc (sha256 pout)))
         signing_helper signing_helper_with_files = Ok signed
    /\ import_grpc = Ok tt.
Proof.
  intros rw Hw.
  destruct (request_inclusion_proof_steps c vbmeta_image version_inc
              manufacturer_key_path signing_helper signing_helper_with_files
              timeout w) as [[Hsame _] | (v & pout & perr & signed & H)].
  - contradiction.
  - exists v, pout, perr, signed.
    destruct H as (H1 & H2 & H3 & H4 & H5 & _). repeat split; assumption.
Qed.

(** X14: the entry that [request_inclusion_proof] returns is the answer of
    the log to the signed request, field by field: the URL of the log, the
    leaf index, the proof hashes and the signature of the response, the
    descriptor parsed from its log root, and the leaf parsed from its leaf
    bytes, which the leaf keeps as they are.  One request was sent. *)
Theorem requested_entry_is_the_response
        c vbmeta_image version_inc manufacturer_key_path signing_helper
        signing_helper_with_files timeout w entry w' :
  request_inclusion_proof c vbmeta_image version_inc manufacturer_key_path
    signing_helper signing_helper_with_files timeout None w
  = (Ok entry, w') ->
  exists v pout perr signed response,
    vbmeta_image = Some v
    /\ openssl_rsa_pubout manufacturer_key_path = (pout, perr, 0)
    /\ RSAPublicKey_sign manufacturer_key_path "SHA256_RSA4096"
         (SerializeToString
            (mkFirmwareInfo (sha256 v) version_inc (sha256 pout)))
         signing_helper signing_helper_with_files = Ok signed
    /\ stub_AddFirmwareInfo (target c)
         (signed_request v version_inc pout signed)
         (comm_timeout timeout) (request_metadata c) = Ok response
    /\ AftlIcpEntry.log_url entry = target c
    /\ AftlIcpEntry.leaf_index entry
       = AftlIcpEntry.resp_leaf_index response
    /\ AftlIcpEntry.proofs entry = AftlIcpEntry.resp_hashes response
    /\ AftlIcpEntry.log_root_signature entry
       = AftlIcpEntry.resp_log_root_signature response
    /\ TrillianLogRootDescriptor.init
         (Some (AftlIcpEntry.resp_log_root response))
       = Ok (AftlIcpEntry.log_root_descriptor entry)
    /\ FirmwareInfoLeaf.init (Some (AftlIcpEntry.resp_fw_info_leaf response))
       = Ok (AftlIcpEntry.fw_info_leaf entry)
    /\ FirmwareInfoLeaf.encode (AftlIcpEntry.fw_info_leaf entry)
       = AftlIcpEntry.resp_fw_info_leaf response
    /\ requests w' = requests w ++ [c].
Proof.
  intros Hrun.
  pose proof (request_inclusion_proof_steps c vbmeta_image version_inc
                manufacturer_key_path signing_helper signing_helper_with_files
                timeout w) as Hsteps.
  cbv zeta in Hsteps. rewrite Hrun in Hsteps. cbn [fst snd] in Hsteps.
  destruct Hsteps as [[_ Hno] | (v & pout & perr & signed & H)];
    [now elim (Hno entry) |].
  destruct H as (Hv & _ & Hpem & Hsign & _ & Hentry).
  destruct (Hentry entry eq_refl) as (response & Hstub & Htrans & Hw').
  exists v, pout, perr, signed, response.
  repeat (split; [assumption |]).
  unfold AftlIcpEntry.translate_response in Htrans.
  destruct (TrillianLogRootDescriptor.init _) as [descriptor | e];
    cbn [Py.bind] in Htrans; [| discriminate].
  destruct (FirmwareInfoLeaf.init _) as [leaf | e] eqn:Hleaf;
    cbn [Py.bind] in Htrans; [| discriminate].
  injection Htrans as <-.
  cbn [AftlIcpEntry.log_url AftlIcpEntry.leaf_index AftlIcpEntry.proofs
         AftlIcpEntry.log_root_signature AftlIcpEntry.log_root_descriptor
         AftlIcpEntry.fw_info_leaf].
  repeat (split; [reflexivity |]).
  split; [exact (proj1 (leaf_init_bytes _ _ Hleaf)) |].
  rewrite Hw'. reflexivity.
Qed.

(** One turn of the loop: the entry that is added carries the URL of its
    log. *)
Lemma fetch_icp_entry_entry log_config vbmeta_image version_incremental
      manufacturer_key signing_helper signing_helper_with_files timeout
      aftl_image w image w' :
  fetch_icp_entry log_config vbmeta_image version_incremental
    manufacturer_key signing_helper signing_helper_with_files timeout
    aftl_image w = (Ok image, w') ->
  image = aftl_image
  \/ exists entry,
       image = AftlImage.add_icp_entry aftl_image entry
       /\ AftlIcpEntry.log_url entry = target log_config
       /\ all_requested [log_config] w w'.
Proof.
  unfold fetch_icp_entry, try_except_AftlError, bindM.
  pose proof (request_inclusion_proof_steps log_config vbmeta_image
                version_incremental manufacturer_key signing_helper
                signing_helper_with_files timeout w) as Hsteps.
  cbv zeta in Hsteps.
  destruct (request_inclusion_proof _ _ _ _ _ _ _ _ w) as [[entry | e] w1];
    cbn [fst snd] in Hsteps.
  - assert (Hentry : AftlIcpEntry.log_url entry = target log_config
                     /\ all_requested [log_config] w w1).
    { destruct Hsteps as [[_ Hno] | (v & pout & perr & signed & H)];
        [now elim (Hno entry) |].
      destruct H as (_ & _ & _ & _ & _ & Hentry).
      destruct (Hentry entry eq_refl) as (response & _ & Htrans & Hw1).
      unfold AftlIcpEntry.translate_response in Htrans.
      destruct (TrillianLogRootDescriptor.init _); cbn [Py.bind] in Htrans;
        [| discriminate].
      destruct (FirmwareInfoLeaf.init _); cbn [Py.bind] in Htrans;
        [| discriminate].
      injection Htrans as <-. split; [reflexivity |].
      rewrite Hw1. split; cbn; [reflexivity |].
      now rewrite <- app_assoc. }
    destruct Hentry as (Hurl & Hall).
    unfold lift, ret, sys_stderr_write.
    destruct (AftlIcpEntry.verify_vbmeta_image _ _ _) as [[|] | e];
      cbn [negb].
    + intros [= <- <-]. right. now exists entry.
    + intros [= <- <-]. right. now exists entry.
    + destruct e; try discriminate. intros [= <- <-]. now left.
  - unfold ret, sys_stderr_write.
    destruct e; try discriminate. intros [= <- <-]. now left.
Qed.

Lemma subsequence_length {A} (l1 l2 : list A) :
  subsequence l1 l2 -> (List.length l1 <= List.length l2)%nat.
Proof. induction 1; cbn [List.length]; lia. Qed.

(** The loop: the entries that were added come from the configured logs, in
    their order; when there are as many as logs, each log gave its own. *)
Lemma fetch_icp_entries_entries configs vbmeta_image version_incremental
      manufacturer_key signing_helper signing_helper_with_files timeout :
  forall aftl_image w image w',
  fetch_icp_entries configs vbmeta_image version_incremental
    manufacturer_key signing_helper signing_helper_with_files timeout
    aftl_image w = (Ok image, w') ->
  exists added,
    image = add_icp_entries aftl_image added
    /\ subsequence (map AftlIcpEntry.log_url added) (map target configs)
    /\ (List.length added = List.length configs ->
        map AftlIcpEntry.log_url added = map target configs
        /\ all_requested configs w w').
Proof.
  induction configs as [| log_config rest IH]; intros aftl_image w image w'.
  - cbn. intros [= <- <-]. exists []. split; [reflexivity |].
    split; [constructor |]. intros _. split; [reflexivity |].
    split; cbn; now rewrite app_nil_r.
  - cbn [fetch_icp_entries]. unfold bindM.
    destruct (fetch_icp_entry _ _ _ _ _ _ _ _ w) as [[image1 | e] w1]
      eqn:Hstep; [| discriminate].
    intros Hrest. apply IH in Hrest.
    destruct Hrest as (added & -> & Hsub & Hall).
    pose proof (subsequence_length _ _ Hsub) as Hlen.
    rewrite !length_map in Hlen.
    apply fetch_icp_entry_entry in Hstep.
    destruct Hstep as [-> | (entry & -> & Hurl & Hreq)].
    + exists added. split; [reflexivity |]. split.
      * cbn [map]. now apply subsequence_skip.
      * cbn [List.length]. intros Hl. lia.
    + exists (entry :: added). split; [reflexivity |]. split.
      * cbn [map]. rewrite Hurl. now apply subsequence_take.
      * cbn [List.length map]. intros Hl.
        destruct Hall as (Hmap & Hall); [lia |].
        rewrite Hurl, Hmap. split; [reflexivity |].
        exact (all_requested_cons _ _ _ _ _ Hreq Hall).
Qed.

(** An image that verifies has entries, each of which verifies against
    one of the keys. *)
Lemma image_verifies_entries image vbmeta_image keys :
  AftlImage.verify_vbmeta_image image vbmeta_image (Some keys) = Ok true ->
  keys <> [] /\ AftlImage.icp_entries image <> []
  /\ Forall (fun entry =>
               Exists (fun key => entry_verifies vbmeta_image key entry) keys)
            (AftlImage.icp_entries image).
Proof.
  unfold AftlImage.verify_vbmeta_image.
  generalize (AftlImage.icp_entries image) as entries. intros entries Hv.
  destruct keys as [| key keys]; [discriminate Hv |].
  destruct entries as [| entry entries]; [discriminate Hv |].
  cbn [truthy negb orb] in Hv.
  split; [discriminate |]. split; [discriminate |].
  pose proof (count_verified_spec (entry :: entries) vbmeta_image
                (key :: keys) 0) as Hspec.
  destruct (AftlImage.count_verified _ _ _ 0) as [m | e];
    cbn [Py.bind] in Hv; [| discriminate].
  injection Hv as Hm. apply Z.eqb_eq in Hm.
  apply Hspec. lia.
Qed.

(** Two writes from the start of a binary file. *)
Lemma file_write_twice (f : file) (a b : bytes) :
  exists f1 f2,
    file_write (file_seek f 0) (PyBytes a) = Ok f1
    /\ file_write f1 (PyBytes b) = Ok f2
    /\ content f2 = a ++ b ++ slice_from (len a + len b) (content f)
    /\ position f2 = len a + len b.
Proof.
  unfold file_write, file_seek. cbn [position content].
  eexists. eexists. split; [reflexivity |]. split; [reflexivity |].
  cbn [content position].
  unfold slice_to, slice_from, len.
  change (Z.to_nat 0) with 0%nat. cbn [firstn app].
  replace (Z.to_nat (0 - Z.of_nat (List.length (content f)))) with 0%nat
    by lia.
  cbn [repeat app].
  replace (Z.to_nat (0 + Z.of_nat (List.length a))) with (List.length a)
    by lia.
  rewrite firstn_app, firstn_all, Nat.sub_diag. cbn [firstn].
  rewrite app_nil_r.
  replace (Z.to_nat
             (0 + Z.of_nat (List.length a)
              - Z.of_nat (List.length (a ++ skipn (List.length a) (content f)))))
    with 0%nat by (rewrite length_app; lia).
  cbn [repeat app].
  replace (Z.to_nat (0 + Z.of_nat (List.length a) + Z.of_nat (List.length b)))
    with (List.length b + List.length a)%nat by lia.
  rewrite <- skipn_skipn.
  rewrite skipn_app, skipn_all, Nat.sub_diag. cbn [skipn app].
  rewrite skipn_skipn.
  replace (Z.to_nat (Z.of_nat (List.length a) + Z.of_nat (List.length b)))
    with (List.length b + List.length a)%nat by lia.
  split; [reflexivity | lia].
Qed.


(** X16: what a successful run has done.  When the command returns [True]
    the image had no footer and a vbmeta structure that is not empty, no
    padding was asked for, and there was at least one log; every log was
    sent one request, in the configured order, and gave the entry that
    stands at its place in the image; the image verifies against the keys
    of the logs; the standard output holds the lines of the transport and
    the message of success; and the output file starts with the vbmeta
    image followed by the serialised AFTL image, whatever it held
    before. *)
Theorem make_icp_from_vbmeta_success
        (vbmeta_image_path version_incremental manufacturer_key : string)
        (signing_helper signing_helper_with_files : option string)
        (transparency_log_configs : list TransparencyLogConfig)
        (padding_size timeout : Z) (w w0 : world) :
  make_icp_from_vbmeta vbmeta_image_path signing_helper
    signing_helper_with_files version_incremental transparency_log_configs
    manufacturer_key padding_size timeout w = (Ok true, w0) ->
  exists vbmeta_image image encoded,
    get_vbmeta_image vbmeta_image_path = (Some vbmeta_image, None)
    /\ vbmeta_image <> []
    /\ padding_size <= 0
    /\ transparency_log_configs <> []
    /\ map AftlIcpEntry.log_url (AftlImage.icp_entries image)
       = map target transparency_log_configs
    /\ AftlImage.verify_vbmeta_image image (Some vbmeta_image)
         (Some (map pub_key transparency_log_configs)) = Ok true
    /\ AftlImage.encode image = Ok encoded
    /\ requests w0 = requests w ++ transparency_log_configs
    /\ stdout w0
       = stdout w ++ flat_map transport_lines transparency_log_configs
           ++ [msg_created]
    /\ content (output w0)
       = vbmeta_image ++ encoded
           ++ slice_from (len vbmeta_image + len encoded)
                (content (output w))
    /\ position (output w0) = len vbmeta_image + len encoded.
Proof.
  unfold make_icp_from_vbmeta.
  destruct (get_vbmeta_image vbmeta_image_path) as [vbmeta_image footer].
  unfold bindM at 1. unfold lift at 1. rewrite empty_image_init.
  unfold bindM at 1.
  destruct (fetch_icp_entries _ _ _ _ _ _ _ _ w) as [[image | e] w1]
    eqn:Hfetch; [| discriminate].
  pose proof (fetch_icp_entries_world transparency_log_configs vbmeta_image
                version_incremental manufacturer_key signing_helper
                signing_helper_with_files timeout
                (AftlImage.mk
                   (AftlImageHeader.mk AftlImageHeader.MAGIC AVB_VERSION_MAJOR
                      AVB_VERSION_MINOR AftlImageHeader.SIZE 0) []) w)
    as Hworld.
  rewrite Hfetch in Hworld. cbn [fst snd] in Hworld.
  destruct Hworld as ((Hout & _) & _).
  apply fetch_icp_entries_entries in Hfetch.
  destruct Hfetch as (added & -> & _ & Hall).
  destruct (add_icp_entries_invariant added
              (AftlImage.mk
                 (AftlImageHeader.mk AftlImageHeader.MAGIC AVB_VERSION_MAJOR
                    AVB_VERSION_MINOR AftlImageHeader.SIZE 0) []))
    as (Hcount & _ & Hentries).
  cbn [AftlImage.image_header AftlImage.icp_entries AftlImageHeader.icp_count
         app] in Hcount, Hentries.
  set (image := add_icp_entries _ added) in *.
  unfold sys_stderr_write, ret, bindM, lift.
  destruct (Z.eqb_spec
              (AftlImageHeader.icp_count (AftlImage.image_header image))
              (len transparency_log_configs)) as [Hlen |]; cbn [negb];
    [| discriminate].
  destruct (AftlImage.is_valid image); cbn [negb]; [| discriminate].
  destruct (AftlImage.verify_vbmeta_image image vbmeta_image _)
    as [[|] | e] eqn:Hverify; cbn [negb]; [| discriminate | discriminate].
  destruct footer as [footer |]; [discriminate |].
  destruct vbmeta_image as [vbmeta_image |].
  2: { unfold output_seek, output_write. cbn [file_write]. discriminate. }
  destruct Hall as (Hurls & Hreq & Hstdout).
  { rewrite Hcount in Hlen. unfold len in Hlen. lia. }
  destruct (image_verifies_entries _ _ _ Hverify) as (Hk & He & Hforall).
  assert (Hkeys : transparency_log_configs <> []).
  { intros ->. now apply Hk. }
  assert (Hvb : vbmeta_image <> []).
  { intros ->.
    destruct (AftlImage.icp_entries image) as [| entry entries];
      [congruence |].
    inversion Hforall as [| ? ? Hex _]; subst.
    apply Exists_exists in Hex. destruct Hex as (k & _ & Hv).
    unfold entry_verifies, AftlIcpEntry.verify_vbmeta_image in Hv.
    cbn [truthy negb] in Hv. discriminate. }
  unfold output_seek, output_write. cbn [output set_output].
  destruct (file_write_twice (output w1) vbmeta_image [])
    as (f1 & _ & Hw1 & _).
  rewrite Hw1. cbn [output set_output].
  destruct (AftlImage.encode image) as [encoded | e] eqn:Henc;
    [| discriminate].
  destruct (file_write_twice (output w1) vbmeta_image encoded)
    as (f1' & f2 & Hw1' & Hw2 & Hcontent & Hposition).
  rewrite Hw1 in Hw1'. injection Hw1' as <-.
  rewrite Hw2. cbn [output set_output].
  destruct (Z.gtb_spec padding_size 0) as [Hpad | Hpad].
  { cbn [file_write]. discriminate. }
  intros [= <-].
  exists vbmeta_image, image, encoded.
  split; [reflexivity |]. split; [exact Hvb |]. split; [exact Hpad |].
  split; [exact Hkeys |]. split; [now rewrite Hentries |].
  split; [exact Hverify |]. split; [exact Henc |].
  cbn [requests stdout output write_stdout set_output].
  split; [exact Hreq |]. split; [now rewrite Hstdout, <- app_assoc |].
  rewrite Hcontent, Hposition, Hout. split; reflexivity.
Qed.

End RequestProperties.

(** The theorem on the doubles: the request leaves its two lines and the
    key of the doubles has 4096 bits. *)
Lemma request_leaves_trace_only_when_signed_witness :
  exists v pout perr signed,
    Some double_vbmeta = Some v
    /\ @Aftl.RSAPublicKey_num_bits (double_collaborators None)
         "manufacturer.pem" = Ok 4096
    /\ @Aftl.openssl_rsa_pubout (double_collaborators None)
         "manufacturer.pem" = (pout, perr, 0)
    /\ @Aftl.RSAPublicKey_sign (double_collaborators None)
         "manufacturer.pem" "SHA256_RSA4096"
         (@Aftl.SerializeToString (double_collaborators None)
            (Aftl.mkFirmwareInfo (sha256 v) "build-1" (sha256 pout)))
         None None = Ok signed
    /\ @Aftl.import_grpc (double_collaborators None) = Ok tt.
Proof.
  apply (@request_leaves_trace_only_when_signed double_externals
           (double_collaborators None) double_log (Some double_vbmeta)
           "build-1" "manufacturer.pem" None None 0 fresh_world).
  vm_compute. discriminate.
Defined.

(** The entry that the log of the doubles gives. *)
Lemma requested_entry_is_the_response_witness :
  exists response,
    AftlIcpEntry.log_url double_entry = Aftl.target double_log
    /\ FirmwareInfoLeaf.encode (AftlIcpEntry.fw_info_leaf double_entry)
       = AftlIcpEntry.resp_fw_info_leaf response
    /\ response = double_response.
Proof.
  assert (Hrun : @Aftl.request_inclusion_proof double_externals
                   (double_collaborators None) double_log
                   (Some double_vbmeta) "build-1" "manufacturer.pem"
                   None None 0 None fresh_world
                 = (Ok double_entry,
                    Aftl.mkWorld [double_log] []
                      (transport_lines double_log) (Aftl.mkFile [] 0)))
    by (vm_compute; reflexivity).
  destruct (@requested_entry_is_the_response double_externals
              (double_collaborators None) _ _ _ _ _ _ _ _ _ _ Hrun)
    as (v & pout & perr & signed & response & _ & _ & _ & Hstub & Hurl & _
        & _ & _ & _ & _ & Hleaf & _).
  exists response. split; [exact Hurl |]. split; [exact Hleaf |].
  cbn in Hstub. now injection Hstub as <-.
Defined.

(** The successful run of the doubles. *)
Lemma make_icp_from_vbmeta_success_witness :
  exists encoded,
    Aftl.content (Aftl.output (snd (double_run None 0)))
    = double_vbmeta ++ encoded
    /\ len encoded = 120
    /\ Aftl.requests (snd (double_run None 0)) = [double_log].
Proof.
  assert (Hrun : double_run None 0 = (Ok true, snd (double_run None 0)))
    by (vm_compute; reflexivity).
  destruct (@make_icp_from_vbmeta_success double_externals
              (double_collaborators None) "vbmeta.img" "build-1"
              "manufacturer.pem" None None [double_log] 0 0 fresh_world
              (snd (double_run None 0)) Hrun)
    as (v & image & encoded & Hget & _ & _ & _ & _ & _ & Henc & Hreq & _
        & Hcontent & Hpos).
  cbv [Aftl.get_vbmeta_image double_collaborators
         double_collaborators_with_key] in Hget.
  injection Hget as <-.
  exists encoded. split; [| split].
  - rewrite Hcontent. cbn [fresh_world Aftl.output Aftl.content].
    unfold slice_from. now rewrite skipn_nil, app_nil_r.
  - assert (Hp : Aftl.position (Aftl.output (snd (double_run None 0)))
                 = 3200) by (vm_compute; reflexivity).
    rewrite Hpos in Hp.
    assert (Hv : len double_vbmeta = 3080) by (vm_compute; reflexivity).
    lia.
  - exact Hreq.
Defined.

(** ** The entry as a codec *)

Section EntryCodec.
Import Struct.
Context `{Ext : Externals}.

(** Hashes of one size, concatenated, are cut back into themselves. *)
Lemma split_proofs_of_concat (proofs : list bytes) (h : Z) :
  0 <= h -> Forall (fun proof => len proof = h) proofs ->
  forall idx prefix,
    len prefix = idx ->
    AftlIcpEntry.split_proofs (List.length proofs) idx h
      (prefix ++ List.concat proofs) = proofs.
Proof.
  intros Hh. induction 1 as [| p proofs Hp _ IH]; intros idx prefix Hprefix;
    cbn [List.length AftlIcpEntry.split_proofs List.concat];
    [reflexivity |].
  f_equal.
  - unfold slice. replace (Z.to_nat idx) with (List.length prefix)
      by (unfold len in Hprefix; lia).
    rewrite skipn_app, skipn_all, Nat.sub_diag. cbn [skipn app].
    replace (Z.to_nat (idx + h - idx)) with (List.length p)
      by (unfold len in Hp; lia).
    rewrite firstn_app, firstn_all, Nat.sub_diag. cbn [firstn].
    apply app_nil_r.
  - rewrite app_assoc. apply IH.
    unfold len in *. rewrite length_app. lia.
Qed.

Lemma concat_uniform_length (proofs : list bytes) (h : Z) :
  Forall (fun proof => len proof = h) proofs ->
  len (List.concat proofs) = len proofs * h.
Proof.
  induction 1 as [| p proofs Hp _ IH]; cbn [List.concat]; [reflexivity |].
  unfold len in *. rewrite length_app. cbn [List.length]. lia.
Qed.

Lemma leaf_expected_size (leaf : FirmwareInfoLeaf.t) :
  FirmwareInfoLeaf.get_expected_size leaf
  = len (FirmwareInfoLeaf.encode leaf).
Proof.
  unfold FirmwareInfoLeaf.get_expected_size, FirmwareInfoLeaf.encode.
  destruct (FirmwareInfoLeaf._fw_info_leaf_bytes leaf); reflexivity.
Qed.

Lemma entry_is_valid_spec (e : AftlIcpEntry.t) :
  AftlIcpEntry.is_valid e = true <->
  0 <= AftlIcpEntry.leaf_index e
  /\ TrillianLogRootDescriptor.is_valid (AftlIcpEntry.log_root_descriptor e)
     = true.
Proof.
  unfold AftlIcpEntry.is_valid.
  destruct (Z.ltb_spec (AftlIcpEntry.leaf_index e) 0);
    [split; [discriminate | lia] |].
  destruct (TrillianLogRootDescriptor.is_valid _); cbn [negb];
    [split; [intros _; split; [lia | reflexivity] | reflexivity] |].
  split; [discriminate | intros [_ Hf]; discriminate Hf].
Qed.

(** Serialising an entry whose fields fit the header and whose hashes have
    one size, and parsing the bytes again whatever follows them. *)
Lemma entry_encode_layout (e : AftlIcpEntry.t) (hash_size : Z) :
  AftlIcpEntry.is_valid e = true ->
  AftlIcpEntry.leaf_index e < 2 ^ 64 ->
  is_ascii (AftlIcpEntry.log_url e) = true ->
  AftlIcpEntry.log_url_size e < 2 ^ 32 ->
  TrillianLogRootDescriptor.tree_size (AftlIcpEntry.log_root_descriptor e)
  < 2 ^ 64 ->
  TrillianLogRootDescriptor.timestamp (AftlIcpEntry.log_root_descriptor e)
  < 2 ^ 64 ->
  TrillianLogRootDescriptor.revision (AftlIcpEntry.log_root_descriptor e)
  < 2 ^ 64 ->
  FirmwareInfoLeaf.init
    (Some (FirmwareInfoLeaf.encode (AftlIcpEntry.fw_info_leaf e)))
  = Ok (AftlIcpEntry.fw_info_leaf e) ->
  AftlIcpEntry.fw_info_leaf_size e < 2 ^ 32 ->
  AftlIcpEntry.log_root_sig_size e < 2 ^ 16 ->
  AftlIcpEntry.proof_hash_count e < 2 ^ 8 ->
  Forall (fun proof => len proof = hash_size) (AftlIcpEntry.proofs e) ->
  AftlIcpEntry.inc_proof_size e < 2 ^ 32 ->
  exists data,
    AftlIcpEntry.encode e = Ok data
    /\ len data = AftlIcpEntry.get_expected_size e
    /\ 27 <= len data
    /\ forall rest, AftlIcpEntry.init (Some (data ++ rest)) = Ok e.
Proof.
  intros Hvalid Hli Hascii Hurl Hts Htm Hrev Hleaf Hleafsz Hsig Hcount Hunif
         Hproof.
  pose proof (proj1 (entry_is_valid_spec e) Hvalid) as (Hli0 & Hdvalid).
  destruct (descriptor_encode_layout _ Hdvalid Hts Htm Hrev)
    as (db & Hdenc & Hdlen & Hdne & Hdparse).
  assert (Hdinit : TrillianLogRootDescriptor.init (Some db)
                   = Ok (AftlIcpEntry.log_root_descriptor e)).
  { unfold TrillianLogRootDescriptor.init.
    match goal with
    | |- context [truthy ?x] =>
        assert (Htruthy : truthy x = true)
          by (destruct db; [congruence | reflexivity]);
        rewrite Htruthy
    end.
    specialize (Hdparse []). rewrite app_nil_r in Hdparse.
    rewrite Hdparse. cbn [Py.bind]. now rewrite Hdvalid. }
  pose proof (proj1 (descriptor_is_valid_spec _) Hdvalid)
    as (_ & _ & Hrhs & _ & _ & _ & Hmsz & _).
  destruct e as [leaf_index url descriptor leaf signature proofs].
  unfold AftlIcpEntry.log_url_size, AftlIcpEntry.fw_info_leaf_size,
    AftlIcpEntry.log_root_sig_size, AftlIcpEntry.proof_hash_count,
    AftlIcpEntry.inc_proof_size in *.
  cbn [AftlIcpEntry.leaf_index AftlIcpEntry.log_url
         AftlIcpEntry.log_root_descriptor AftlIcpEntry.fw_info_leaf
         AftlIcpEntry.log_root_signature AftlIcpEntry.proofs] in *.
  set (ub := list_byte_of_string url) in *.
  set (lb := FirmwareInfoLeaf.encode leaf) in *.
  set (pb := List.concat proofs) in *.
  assert (Hulen : Z.of_nat (String.length url) = len ub).
  { unfold len, ub.
    rewrite <- (string_of_list_byte_of_string url) at 1.
    now rewrite string_of_list_byte_length. }
  assert (Hencurl : AftlIcpEntry.encode_ascii url = Ok ub).
  { unfold AftlIcpEntry.encode_ascii. fold ub.
    unfold is_ascii in Hascii. fold ub in Hascii. now rewrite Hascii. }
  assert (Hdecurl : AftlIcpEntry.decode_ascii ub = Ok url).
  { unfold AftlIcpEntry.decode_ascii.
    unfold is_ascii in Hascii. fold ub in Hascii. rewrite Hascii.
    unfold ub. now rewrite string_of_list_byte_of_string. }
  assert (Hllen : FirmwareInfoLeaf.get_expected_size leaf = len lb)
    by apply leaf_expected_size.
  assert (Hplen : fold_left (fun result proof => result + len proof) proofs 0
                  = len pb)
    by (rewrite inc_proof_size_concat; reflexivity).
  rewrite Hulen in Hurl. rewrite Hllen in Hleafsz. rewrite Hplen in Hproof.
  assert (Hdsize : 0 <= len db < 2 ^ 32).
  { rewrite Hdlen. unfold TrillianLogRootDescriptor.get_expected_size.
    cbn [calcsize fold_right width
           TrillianLogRootDescriptor.FORMAT_STRING_PART_1
           TrillianLogRootDescriptor.FORMAT_STRING_PART_2]. lia. }
  assert (E8 : 256 ^ Z.of_nat (width Q) = 2 ^ 64) by reflexivity.
  assert (E4 : 256 ^ Z.of_nat (width L) = 2 ^ 32) by reflexivity.
  assert (E2 : 256 ^ Z.of_nat (width H) = 2 ^ 16) by reflexivity.
  assert (E1 : 256 ^ Z.of_nat (width B) = 2 ^ 8) by reflexivity.
  assert (Hfits : Forall2 fits AftlIcpEntry.FORMAT_STRING
                    [VInt (len ub); VInt leaf_index; VInt (len db);
                     VInt (len lb); VInt (len signature); VInt (len proofs);
                     VInt (len pb)]).
  { repeat constructor; unfold fits; rewrite ?E8, ?E4, ?E2, ?E1;
      unfold len in *; lia. }
  destruct (pack_unpack _ _ Hfits) as (header & Hpack & Hhlen & _).
  change (calcsize AftlIcpEntry.FORMAT_STRING) with 27%nat in Hhlen.
  exists (header ++ ub ++ db ++ lb ++ signature ++ pb).
  split; [| split; [| split]].
  - unfold AftlIcpEntry.encode. rewrite Hvalid. cbn [negb].
    unfold AftlIcpEntry.log_url_size, AftlIcpEntry.fw_info_leaf_size,
      AftlIcpEntry.log_root_sig_size, AftlIcpEntry.proof_hash_count,
      AftlIcpEntry.inc_proof_size, AftlIcpEntry.log_root_descriptor_size.
    cbn [AftlIcpEntry.leaf_index AftlIcpEntry.log_url
           AftlIcpEntry.log_root_descriptor AftlIcpEntry.fw_info_leaf
           AftlIcpEntry.log_root_signature AftlIcpEntry.proofs].
    rewrite Hencurl, Hdenc. cbn [Py.bind].
    rewrite Hulen, <- Hdlen, Hllen, Hplen.
    fold lb. fold pb.
    pose proof (pack_app _ _ _ _ _ _ Hpack
                  (pack_payloads ub db lb signature pb)) as Hpk.
    cbn [app] in Hpk. exact Hpk.
  - unfold AftlIcpEntry.get_expected_size, AftlIcpEntry.log_url_size,
      AftlIcpEntry.fw_info_leaf_size, AftlIcpEntry.log_root_sig_size,
      AftlIcpEntry.inc_proof_size, AftlIcpEntry.log_root_descriptor_size.
    cbn [AftlIcpEntry.leaf_index AftlIcpEntry.log_url
           AftlIcpEntry.log_root_descriptor AftlIcpEntry.fw_info_leaf
           AftlIcpEntry.log_root_signature AftlIcpEntry.proofs].
    rewrite Hulen, <- Hdlen, Hllen, Hplen.
    unfold len. rewrite !length_app, Hhlen. unfold AftlIcpEntry.SIZE. lia.
  - unfold len. rewrite length_app, Hhlen. lia.
  - intros rest. rewrite <- app_assoc.
    destruct (entry_parse_layout leaf_index (len proofs) header ub db lb
                signature pb rest url descriptor leaf Hpack Hdecurl Hdinit
                Hleaf) as (Hinit & _).
    rewrite Hinit. do 2 f_equal.
    destruct (Z.gtb_spec (len proofs) 0) as [Hpos | Hzero].
    + assert (Hh : 0 <= hash_size).
      { destruct Hunif as [| p ps Hp _]; [discriminate Hpos |].
        unfold len in Hp. lia. }
      assert (Hpb : len pb = len proofs * hash_size)
        by exact (concat_uniform_length _ _ Hunif).
      rewrite Hpb, Z.mul_comm, Z.div_mul by lia.
      unfold len at 1. rewrite Nat2Z.id.
      exact (split_proofs_of_concat proofs hash_size Hh Hunif 0 [] eq_refl).
    + symmetry. apply len_0_nil. exact Hzero.
Qed.

(** X17: an entry survives serialising and parsing.  When the entry is
    valid, its fields fit the widths of the header, its URL is ASCII, its
    leaf is the leaf that its own bytes parse to, and its hashes all have
    the same size, [encode] returns [get_expected_size()] bytes, and
    parsing them - alone or followed by anything - gives the entry
    back. *)
Theorem entry_encode_then_parse (e : AftlIcpEntry.t) (hash_size : Z) :
  AftlIcpEntry.is_valid e = true ->
  AftlIcpEntry.leaf_index e < 2 ^ 64 ->
  is_ascii (AftlIcpEntry.log_url e) = true ->
  AftlIcpEntry.log_url_size e < 2 ^ 32 ->
  TrillianLogRootDescriptor.tree_size (AftlIcpEntry.log_root_descriptor e)
  < 2 ^ 64 ->
  TrillianLogRootDescriptor.timestamp (AftlIcpEntry.log_root_descriptor e)
  < 2 ^ 64 ->
  TrillianLogRootDescriptor.revision (AftlIcpEntry.log_root_descriptor e)
  < 2 ^ 64 ->
  FirmwareInfoLeaf.init
    (Some (FirmwareInfoLeaf.encode (AftlIcpEntry.fw_info_leaf e)))
  = Ok (AftlIcpEntry.fw_info_leaf e) ->
  AftlIcpEntry.fw_info_leaf_size e < 2 ^ 32 ->
  AftlIcpEntry.log_root_sig_size e < 2 ^ 16 ->
  AftlIcpEntry.proof_hash_count e < 2 ^ 8 ->
  Forall (fun proof => len proof = hash_size) (AftlIcpEntry.proofs e) ->
  AftlIcpEntry.inc_proof_size e < 2 ^ 32 ->
  exists data,
    AftlIcpEntry.encode e = Ok data
    /\ len data = AftlIcpEntry.get_expected_size e
    /\ forall rest, AftlIcpEntry.init (Some (data ++ rest)) = Ok e.
Proof.
  intros H1 H2 H3 H4 H5 H6 H7 H8 H9 H10 H11 H12 H13.
  destruct (entry_encode_layout e hash_size H1 H2 H3 H4 H5 H6 H7 H8 H9 H10
              H11 H12 H13) as (data & Henc & Hlen & _ & Hparse).
  exists data. repeat split; assumption.
Qed.

End EntryCodec.

(** The entry of the doubles: 120 - 18 = 102 bytes. *)
Lemma entry_encode_then_parse_witness :
  exists data,
    AftlIcpEntry.encode double_entry = Ok data
    /\ len data = 102
    /\ AftlIcpEntry.init (Some (data ++ [xff])) = Ok double_entry.
Proof.
  destruct (entry_encode_then_parse double_entry 32) as (data & He & Hl & Hp).
  - reflexivity.
  - reflexivity.
  - reflexivity.
  - reflexivity.
  - reflexivity.
  - reflexivity.
  - reflexivity.
  - reflexivity.
  - reflexivity.
  - reflexivity.
  - reflexivity.
  - constructor.
  - reflexivity.
  - exists data. split; [exact He |]. split; [| apply Hp].
    rewrite Hl. reflexivity.
Defined.

(** ** Sizes: what the header says and what is written *)

Section Sizes.
Import Struct.
Context `{Ext : Externals}.

Lemma descriptor_expected_size_lower (d : TrillianLogRootDescriptor.t) :
  TrillianLogRootDescriptor.is_valid d = true ->
  29 <= TrillianLogRootDescriptor.get_expected_size d.
Proof.
  intros Hv. apply descriptor_is_valid_spec in Hv.
  unfold TrillianLogRootDescriptor.get_expected_size.
  cbn [calcsize fold_right width
         TrillianLogRootDescriptor.FORMAT_STRING_PART_1
         TrillianLogRootDescriptor.FORMAT_STRING_PART_2]. lia.
Qed.

Lemma inc_proof_size_nonneg (e : AftlIcpEntry.t) :
  0 <= AftlIcpEntry.inc_proof_size e.
Proof.
  unfold AftlIcpEntry.inc_proof_size. rewrite inc_proof_size_concat.
  unfold len. lia.
Qed.

(** A valid entry has at least the 27 bytes of its header and the 29 of a
    descriptor. *)
Lemma entry_expected_size_lower (e : AftlIcpEntry.t) :
  AftlIcpEntry.is_valid e = true -> 56 <= AftlIcpEntry.get_expected_size e.
Proof.
  intros Hv. apply entry_is_valid_spec in Hv. destruct Hv as (_ & Hd).
  apply descriptor_expected_size_lower in Hd.
  pose proof (inc_proof_size_nonneg e).
  unfold AftlIcpEntry.get_expected_size, AftlIcpEntry.log_url_size,
    AftlIcpEntry.log_root_descriptor_size, AftlIcpEntry.fw_info_leaf_size,
    AftlIcpEntry.log_root_sig_size, AftlIcpEntry.SIZE.
  rewrite leaf_expected_size. unfold len. lia.
Qed.

(** The bytes of an entry are as many as [get_expected_size] says. *)
Lemma entry_encode_size (e : AftlIcpEntry.t) (b : bytes) :
  AftlIcpEntry.encode e = Ok b -> len b = AftlIcpEntry.get_expected_size e.
Proof.
  unfold AftlIcpEntry.encode.
  destruct (AftlIcpEntry.is_valid e) eqn:Hv; cbn [negb]; [| discriminate].
  destruct (AftlIcpEntry.encode_ascii _) as [ub |]; cbn [Py.bind];
    [| discriminate].
  destruct (TrillianLogRootDescriptor.encode _) as [db |]; cbn [Py.bind];
    [| discriminate].
  intros Hp. apply pack_calcsize in Hp.
  pose proof (entry_expected_size_lower e Hv) as Hlow.
  apply entry_is_valid_spec in Hv. destruct Hv as (_ & Hd).
  apply descriptor_expected_size_lower in Hd.
  pose proof (inc_proof_size_nonneg e).
  rewrite calcsize_app in Hp.
  change (calcsize AftlIcpEntry.FORMAT_STRING) with 27%nat in Hp.
  cbn [calcsize fold_right width] in Hp.
  unfold AftlIcpEntry.get_expected_size, AftlIcpEntry.SIZE in *.
  unfold AftlIcpEntry.log_url_size, AftlIcpEntry.log_root_descriptor_size,
    AftlIcpEntry.fw_info_leaf_size, AftlIcpEntry.log_root_sig_size in *.
  rewrite leaf_expected_size in *. unfold len in *. lia.
Qed.

(** X18: what [encode] returns for an entry has the size that
    [get_expected_size] announces, which [add_icp_entry] adds to the size
    of the image; it is never less than the 27 bytes of the header and the
    29 of an empty descriptor. *)
Theorem entry_encode_length (e : AftlIcpEntry.t) (b : bytes) :
  AftlIcpEntry.encode e = Ok b ->
  len b = AftlIcpEntry.get_expected_size e /\ 56 <= len b.
Proof.
  intros Henc. pose proof (entry_encode_size e b Henc) as Hlen.
  split; [exact Hlen |]. rewrite Hlen.
  apply entry_expected_size_lower.
  unfold AftlIcpEntry.encode in Henc.
  destruct (AftlIcpEntry.is_valid e); [reflexivity | discriminate].
Qed.

Lemma encode_entries_length (entries : list AftlIcpEntry.t) :
  forall acc b,
    AftlImage.encode_entries entries acc = Ok b ->
    len b = len acc + entries_size entries
    /\ exists tail, b = acc ++ tail.
Proof.
  induction entries as [| e entries IH]; intros acc b;
    cbn [AftlImage.encode_entries].
  - intros [= <-]. split; [cbn; lia |]. exists []. now rewrite app_nil_r.
  - destruct (AftlIcpEntry.encode e) as [eb |] eqn:He; cbn [Py.bind];
      [| discriminate].
    intros Hb. apply IH in Hb. destruct Hb as (Hl & tail & ->).
    apply entry_encode_size in He. split.
    + rewrite Hl. unfold len in *. rewrite length_app.
      change (entries_size (e :: entries))
        with (AftlIcpEntry.get_expected_size e + entries_size entries). lia.
    + exists (eb ++ tail). now rewrite app_assoc.
Qed.

(** The bytes of a serialised image: the 18 of the header and those of the
    entries. *)
Lemma image_encode_length (image : AftlImage.t) (b : bytes) :
  AftlImage.encode image = Ok b ->
  len b = 18 + entries_size (AftlImage.icp_entries image)
  /\ exists header_bytes tail,
       AftlImageHeader.encode (AftlImage.image_header image)
       = Ok header_bytes
       /\ len header_bytes = 18
       /\ b = header_bytes ++ tail.
Proof.
  unfold AftlImage.encode.
  destruct (AftlImage.is_valid image); cbn [negb]; [| discriminate].
  destruct (AftlImageHeader.encode _) as [hb |] eqn:Hh; cbn [Py.bind app];
    [| discriminate].
  assert (Hhl : len hb = 18).
  { unfold AftlImageHeader.encode in Hh.
    destruct (negb _); [discriminate |].
    apply pack_calcsize in Hh. unfold len. rewrite Hh. reflexivity. }
  intros Hb. apply encode_entries_length in Hb.
  destruct Hb as (Hl & tail & ->). split; [lia |].
  exists hb, tail. repeat split. exact Hhl.
Qed.

(** X19: for an image built with [add_icp_entry] from the empty image, the
    size in the header is the number of bytes that [encode] writes. *)
Theorem built_image_size_is_encoded_length
        (empty : AftlImage.t) (entries : list AftlIcpEntry.t) (b : bytes) :
  AftlImage.init None = Ok empty ->
  AftlImage.encode (add_icp_entries empty entries) = Ok b ->
  len b
  = AftlImageHeader.aftl_image_size
      (AftlImage.image_header (add_icp_entries empty entries))
  /\ len b = 18 + entries_size entries.
Proof.
  intros Hempty Henc. rewrite empty_image_init in Hempty.
  injection Hempty as <-.
  apply image_encode_length in Henc. destruct Henc as (Hl & _).
  destruct (add_icp_entries_invariant entries
              (AftlImage.mk
                 (AftlImageHeader.mk AftlImageHeader.MAGIC AVB_VERSION_MAJOR
                    AVB_VERSION_MINOR AftlImageHeader.SIZE 0) []))
    as (_ & Hsize & Hentries).
  cbv zeta in Hsize.
  cbn [AftlImage.image_header AftlImage.icp_entries
         AftlImageHeader.aftl_image_size app] in Hsize, Hentries.
  rewrite Hentries in Hl. rewrite Hsize. unfold AftlImageHeader.SIZE.
  split; lia.
Qed.

(** Two headers that pack to the same bytes have the same size field. *)
Lemma header_pack_size_inj (m m' : bytes) (a a' b b' sz sz' c c' : Z)
      (x : bytes) :
  pack AftlImageHeader.FORMAT_STRING
       [VBytes m; VInt a; VInt b; VInt sz; VInt c] = Ok x ->
  pack AftlImageHeader.FORMAT_STRING
       [VBytes m'; VInt a'; VInt b'; VInt sz'; VInt c'] = Ok x ->
  sz = sz'.
Proof.
  intros H1 H2.
  apply (pack_app_inv [s 4] [L; L; L; H] [VBytes m]
           [VInt a; VInt b; VInt sz; VInt c] x eq_refl) in H1.
  apply (pack_app_inv [s 4] [L; L; L; H] [VBytes m']
           [VInt a'; VInt b'; VInt sz'; VInt c'] x eq_refl) in H2.
  destruct H1 as (b1 & b2 & Hm & Hi & Hx).
  destruct H2 as (b1' & b2' & Hm' & Hi' & Hx').
  apply pack_calcsize in Hm, Hm'.
  change (calcsize [s 4]) with 4%nat in Hm, Hm'.
  assert (Hb2 : b2 = b2').
  { assert (E : skipn 4 x = b2)
      by (rewrite Hx, <- Hm, skipn_app, skipn_all, Nat.sub_diag;
          reflexivity).
    assert (E' : skipn 4 x = b2')
      by (rewrite Hx', <- Hm', skipn_app, skipn_all, Nat.sub_diag;
          reflexivity).
    congruence. }
  subst b2'.
  pose proof (pack_ints_fit _ _ _ no_bytes_item_header_ints Hi) as Hf.
  pose proof (pack_ints_fit _ _ _ no_bytes_item_header_ints Hi') as Hf'.
  destruct (pack_unpack _ _ Hf) as (y & Hy & _ & Hu).
  destruct (pack_unpack _ _ Hf') as (y' & Hy' & _ & Hu').
  rewrite Hi in Hy. rewrite Hi' in Hy'.
  injection Hy as <-. injection Hy' as <-.
  rewrite Hu in Hu'. now injection Hu' as _ _ -> _.
Qed.

Lemma entries_size_positive (entries : list AftlIcpEntry.t) :
  forallb AftlIcpEntry.is_valid entries = true -> entries <> [] ->
  0 < entries_size entries.
Proof.
  intros Hall Hne.
  assert (Hnonneg : forall es,
             forallb AftlIcpEntry.is_valid es = true ->
             0 <= entries_size es).
  { induction es as [| e es IH]; cbn [forallb]; [cbn; lia |].
    intros Hv. apply andb_true_iff in Hv. destruct Hv as (Hv & Hvs).
    apply entry_expected_size_lower in Hv. specialize (IH Hvs).
    change (entries_size (e :: es))
      with (AftlIcpEntry.get_expected_size e + entries_size es). lia. }
  destruct entries as [| e es]; [congruence |].
  cbn [forallb] in Hall. apply andb_true_iff in Hall.
  destruct Hall as (Hv & Hvs).
  apply entry_expected_size_lower in Hv. specialize (Hnonneg es Hvs).
  change (entries_size (e :: es))
    with (AftlIcpEntry.get_expected_size e + entries_size es). lia.
Qed.

(** X20: no image with an entry comes back from [AftlImage(data)] as it
    went in.  The parser adds the size of every entry to the size it read
    from the header, which counted them already: whatever the data, if it
    parses into an image with at least one entry then [encode] does not
    return the data. *)
Theorem parsed_image_never_round_trips (data : bytes) (image : AftlImage.t) :
  AftlImage.init (Some data) = Ok image ->
  AftlImage.icp_entries image <> [] ->
  AftlImage.encode image <> Ok data.
Proof.
  intros Hinit Hne Henc.
  assert (Hdata : data <> []).
  { intros ->.
    change (AftlImage.init (Some [])) with (AftlImage.init None) in Hinit.
    rewrite empty_image_init in Hinit.
    injection Hinit as <-. now apply Hne. }
  destruct (parsed_image_size data image Hinit Hdata)
    as (header & Hheader & Hsize).
  assert (Hslice : slice 0 AftlImageHeader.SIZE data <> []).
  { destruct data; [congruence | discriminate]. }
  destruct (header_init_fields _ _ Hheader Hslice) as (_ & Hpack & _).
  assert (Hvalid : AftlImage.is_valid image = true).
  { unfold AftlImage.encode in Henc.
    destruct (AftlImage.is_valid image); [reflexivity | discriminate]. }
  destruct (image_encode_length _ _ Henc)
    as (_ & hb & tail & Hhenc & Hhlen & Hsplit).
  assert (Hprefix : slice 0 AftlImageHeader.SIZE data = hb).
  { rewrite Hsplit. now apply slice_prefix. }
  rewrite Hprefix in Hpack.
  unfold AftlImageHeader.encode in Hhenc.
  destruct (negb _); [discriminate |].
  pose proof (header_pack_size_inj _ _ _ _ _ _ _ _ _ _ _ Hpack Hhenc) as Heq.
  unfold AftlImage.is_valid in Hvalid.
  destruct (negb (AftlImageHeader.is_valid _)); [discriminate |].
  destruct (negb (_ =? _)); [discriminate |].
  pose proof (entries_size_positive _ Hvalid Hne). lia.
Qed.

End Sizes.

(** The entry of the doubles has 102 bytes. *)
Lemma entry_encode_length_witness :
  exists b,
    AftlIcpEntry.encode double_entry = Ok b
    /\ len b = 102.
Proof.
  destruct (AftlIcpEntry.encode double_entry) as [b |] eqn:He;
    [| vm_compute in He; discriminate He].
  exists b. split; [reflexivity |].
  rewrite (proj1 (entry_encode_length double_entry b He)). reflexivity.
Defined.

(** The image of the doubles: 18 and 102 bytes. *)
Lemma built_image_size_is_encoded_length_witness :
  exists b,
    AftlImage.encode double_image = Ok b
    /\ len b = 120
    /\ AftlImageHeader.aftl_image_size (AftlImage.image_header double_image)
       = 120.
Proof.
  destruct (AftlImage.encode double_image) as [b |] eqn:He;
    [| vm_compute in He; discriminate He].
  exists b. split; [reflexivity |].
  assert (Hempty : AftlImage.init None
                   = Ok (AftlImage.mk
                           (AftlImageHeader.mk AftlImageHeader.MAGIC 1 2
                              AftlImageHeader.SIZE 0) []))
    by (vm_compute; reflexivity).
  destruct (built_image_size_is_encoded_length _ [double_entry] b Hempty He)
    as (Hsize & Hlen).
  split; [rewrite Hlen; reflexivity | reflexivity].
Defined.

(** The image of 74 bytes with the default entry does not come back. *)
Lemma parsed_image_never_round_trips_witness :
  exists image,
    AftlImage.init (Some one_entry_image_bytes) = Ok image
    /\ AftlImage.encode image <> Ok one_entry_image_bytes.
Proof.
  destruct (AftlImage.init (Some one_entry_image_bytes)) as [image |]
    eqn:Hinit; [| vm_compute in Hinit; discriminate Hinit].
  exists image. split; [reflexivity |].
  apply (parsed_image_never_round_trips _ _ Hinit).
  vm_compute in Hinit. injection Hinit as <-. discriminate.
Defined.

(** ** An image that is cut short *)

Section TruncatedImage.
Import Struct.
Context `{Ext : Externals}.

Lemma add_icp_entries_keeps_versions (entries : list AftlIcpEntry.t) :
  forall image,
    AftlImageHeader.magic
      (AftlImage.image_header (add_icp_entries image entries))
    = AftlImageHeader.magic (AftlImage.image_header image)
    /\ AftlImageHeader.required_icp_version_major
         (AftlImage.image_header (add_icp_entries image entries))
       = AftlImageHeader.required_icp_version_major
           (AftlImage.image_header image)
    /\ AftlImageHeader.required_icp_version_minor
         (AftlImage.image_header (add_icp_entries image entries))
       = AftlImageHeader.required_icp_version_minor
           (AftlImage.image_header image).
Proof.
  induction entries as [| e es IH]; intros image; [repeat split |].
  change (add_icp_entries image (e :: es))
    with (add_icp_entries (AftlImage.add_icp_entry image e) es).
  destruct (IH (AftlImage.add_icp_entry image e)) as (H1 & H2 & H3).
  rewrite H1, H2, H3. repeat split.
Qed.

Lemma default_entry_init : AftlIcpEntry.init (Some []) = Ok default_entry.
Proof. vm_compute. reflexivity. Qed.

(** Past the end of the data every entry is read from no bytes at all, and
    is the default entry. *)
Lemma parse_entries_past_the_end (n : nat) :
  forall i data icp_index self,
    len data <= icp_index ->
    AftlImage.parse_entries n i data icp_index self
    = Ok (add_icp_entries self (repeat default_entry n)).
Proof.
  induction n as [| n IH]; intros i data icp_index self Hend;
    cbn [AftlImage.parse_entries repeat]; [reflexivity |].
  assert (Hnil : slice_from icp_index data = []).
  { unfold slice_from. apply skipn_all2. unfold len in Hend. lia. }
  rewrite Hnil, default_entry_init. cbn [Py.bind].
  change (AftlIcpEntry.is_valid default_entry) with true. cbn [negb].
  change (AftlIcpEntry.get_expected_size default_entry) with 56.
  rewrite IH by lia. reflexivity.
Qed.

Lemma default_entries_valid (n : nat) :
  forallb AftlIcpEntry.is_valid (repeat default_entry n) = true.
Proof. induction n as [| n IH]; [reflexivity | exact IH]. Qed.

Lemma default_entries_size (n : nat) :
  entries_size (repeat default_entry n) = 56 * Z.of_nat n.
Proof.
  induction n as [| n IH]; [reflexivity |].
  cbn [repeat].
  change (entries_size (default_entry :: repeat default_entry n))
    with (56 + entries_size (repeat default_entry n)).
  rewrite IH. lia.
Qed.

(** X21: the parser of the image does not notice that the entries are
    missing.  Eighteen bytes that parse as a header announcing [n] entries
    parse as an image, too: one with [n] default entries, each read from
    no bytes, and a size that is the size of the header plus 56 bytes for
    each of them. *)
Theorem header_only_image_parses (data : bytes) (h : AftlImageHeader.t) :
  AftlImageHeader.init (Some data) = Ok h ->
  data <> [] ->
  exists image,
    AftlImage.init (Some data) = Ok image
    /\ AftlImage.icp_entries image
       = repeat default_entry (Z.to_nat (AftlImageHeader.icp_count h))
    /\ AftlImageHeader.icp_count (AftlImage.image_header image)
       = AftlImageHeader.icp_count h
    /\ AftlImageHeader.aftl_image_size (AftlImage.image_header image)
       = AftlImageHeader.aftl_image_size h
         + 56 * AftlImageHeader.icp_count h.
Proof.
  intros Hinit Hdata.
  destruct (header_init_fields data h Hinit Hdata) as (Hvalid & _ & Hlen).
  pose proof (proj1 (header_is_valid_spec h) Hvalid)
    as (Hmagic & Hmajor & Hminor & Hsize & Hcount).
  set (n := Z.to_nat (AftlImageHeader.icp_count h)).
  set (start := AftlImage.mk
                  (AftlImageHeader.mk (AftlImageHeader.magic h)
                     (AftlImageHeader.required_icp_version_major h)
                     (AftlImageHeader.required_icp_version_minor h)
                     (AftlImageHeader.aftl_image_size h) 0) []).
  destruct (add_icp_entries_invariant (repeat default_entry n) start)
    as (Hc & Hs & He).
  destruct (add_icp_entries_keeps_versions (repeat default_entry n) start)
    as (Hm & Hma & Hmi).
  cbv zeta in Hc, Hs.
  cbn [start AftlImage.image_header AftlImage.icp_entries
         AftlImageHeader.icp_count AftlImageHeader.aftl_image_size
         AftlImageHeader.magic AftlImageHeader.required_icp_version_major
         AftlImageHeader.required_icp_version_minor app] in Hc, Hs, He, Hm,
    Hma, Hmi.
  fold start in Hc, Hs, He, Hm, Hma, Hmi.
  assert (Hn : len (repeat default_entry n) = AftlImageHeader.icp_count h).
  { unfold len. rewrite repeat_length. unfold n. lia. }
  rewrite default_entries_size in Hs. rewrite Hn in Hc.
  exists (add_icp_entries start (repeat default_entry n)).
  split; [| split; [exact He | split; [lia |]]].
  2: { rewrite Hs. unfold n. lia. }
  unfold AftlImage.init.
  match goal with
  | |- context [truthy ?x] =>
      assert (Htruthy : truthy x = true)
        by (destruct data; [congruence | reflexivity]);
      rewrite Htruthy
  end.
  assert (Hslice : slice 0 AftlImageHeader.SIZE data = data).
  { unfold slice, AftlImageHeader.SIZE in *. cbn [skipn Z.to_nat].
    apply firstn_all2. unfold len in Hlen. lia. }
  pose proof Hinit as Hinit'. unfold bytes in Hinit'.
  rewrite Hslice, Hinit'. cbn [Py.bind]. rewrite Hvalid. cbn [negb].
  fold n. fold start.
  rewrite parse_entries_past_the_end by (rewrite Hlen; lia).
  cbn [Py.bind].
  assert (Hfinal : AftlImage.is_valid
                     (add_icp_entries start (repeat default_entry n))
                   = true).
  { unfold AftlImage.is_valid.
    assert (Hh : AftlImageHeader.is_valid
                   (AftlImage.image_header
                      (add_icp_entries start (repeat default_entry n)))
                 = true).
    { apply header_is_valid_spec. rewrite Hm, Hma, Hmi, Hs, Hc.
      unfold AftlImageHeader.SIZE in *. repeat split; try assumption; lia. }
    rewrite Hh. cbn [negb]. rewrite He, Hc, Hn, Z.eqb_refl. cbn [negb].
    apply default_entries_valid. }
  now rewrite Hfinal.
Qed.

End TruncatedImage.

(** The first 18 bytes of the image with one entry: they parse as an image
    with one default entry. *)
Lemma header_only_image_parses_witness :
  exists image,
    AftlImage.init (Some (slice_to 18 one_entry_image_bytes)) = Ok image
    /\ AftlImage.icp_entries image = [default_entry].
Proof.
  assert (Hh : AftlImageHeader.init (Some (slice_to 18 one_entry_image_bytes))
               = Ok (AftlImageHeader.mk AftlImageHeader.MAGIC 1 2 74 1))
    by (vm_compute; reflexivity).
  assert (Hdata : slice_to 18 one_entry_image_bytes <> [])
    by (vm_compute; discriminate).
  destruct (header_only_image_parses _ _ Hh Hdata)
    as (image & Hinit & Hentries & _).
  exists image. split; [exact Hinit | exact Hentries].
Defined.

(** ** The transparency log on the command line *)

Section LogArgument.
Import Aftl.

Lemma cut_at_comma_none (str : string) :
  cut_at_comma str = None <-> no_comma str = true.
Proof.
  induction str as [| c rest IH]; cbn [cut_at_comma no_comma];
    [now split |].
  destruct (Ascii.eqb c ","%char); cbn [negb andb];
    [split; discriminate |].
  destruct (cut_at_comma rest) as [[before after] |].
  - split; [discriminate |]. intros H. apply IH in H. discriminate H.
  - split; [intros _; now apply IH | reflexivity].
Qed.

Lemma cut_at_comma_some (str before after : string) :
  cut_at_comma str = Some (before, after)
  <-> no_comma before = true /\ str = (before ++ "," ++ after)%string.
Proof.
  revert before. induction str as [| c rest IH]; intros before;
    cbn [cut_at_comma].
  - split; [discriminate |]. intros [_ H]. destruct before; discriminate H.
  - destruct (Ascii.eqb_spec c ","%char) as [-> | Hc].
    + split.
      * intros [= <- <-]. split; reflexivity.
      * intros [Hno H]. destruct before as [| b before].
        -- cbn in H. now injection H as ->.
        -- cbn in H. injection H as <- _. cbn in Hno. discriminate Hno.
    + destruct (cut_at_comma rest) as [[b a] |].
      * split.
        -- intros [= <- <-]. destruct (proj1 (IH b) eq_refl) as [Hno ->].
           split; [| reflexivity]. cbn [no_comma].
           destruct (Ascii.eqb_spec c ","%char); [contradiction | exact Hno].
        -- intros [Hno H]. destruct before as [| b' before].
           ++ cbn in H. injection H as -> _. contradiction.
           ++ cbn in H. injection H as <- Hrest. cbn [no_comma] in Hno.
              apply andb_true_iff in Hno. destruct Hno as [_ Hno].
              pose proof (proj2 (IH before) (conj Hno Hrest)) as E.
              now injection E as -> ->.
      * split; [discriminate |]. intros [Hno H].
        destruct before as [| b' before].
        -- cbn in H. injection H as -> _. contradiction.
        -- cbn in H. injection H as <- Hrest. cbn [no_comma] in Hno.
           apply andb_true_iff in Hno. destruct Hno as [_ Hno].
           pose proof (proj2 (IH before) (conj Hno Hrest)) as E.
           discriminate E.
Qed.

Lemma truthy_str_some (str : string) :
  truthy_str (Some str) = true <-> str <> ""%string.
Proof. destruct str; cbn; split; congruence. Qed.

(** X22: what [from_argument] accepts, and what it makes of it.  An
    argument gives a configuration exactly when it is a host and a key
    file, both without a comma and not empty, separated by a comma, either
    alone - and then there is no API key - or followed by a comma and the
    API key, which is everything after the second comma: it may be empty,
    and it may hold commas. *)
Theorem from_argument_spec (arg : string) (c : TransparencyLogConfig) :
  from_argument arg = Ok c
  <-> exists host key,
        no_comma host = true /\ no_comma key = true
        /\ host <> ""%string /\ key <> ""%string
        /\ target c = host /\ pub_key c = Some key
        /\ (arg = (host ++ "," ++ key)%string /\ api_key c = None
            \/ exists api,
                 arg = (host ++ "," ++ key ++ "," ++ api)%string
                 /\ api_key c = Some api).
Proof.
  unfold from_argument. cbn [split_comma]. split.
  - destruct (cut_at_comma arg) as [[host rest] |] eqn:H1; [| discriminate].
    apply cut_at_comma_some in H1. destruct H1 as [Hhost ->].
    destruct (cut_at_comma rest) as [[key api] |] eqn:H2.
    + apply cut_at_comma_some in H2. destruct H2 as [Hkey ->].
      destruct (truthy_str (Some host)) eqn:Th; cbn [negb]; [| discriminate].
      destruct (truthy_str (Some key)) eqn:Tk; cbn [negb]; [| discriminate].
      apply truthy_str_some in Th, Tk.
      intros [= <-]. exists host, key. cbn [target pub_key api_key].
      repeat (split; [assumption || reflexivity |]).
      right. now exists api.
    + apply cut_at_comma_none in H2.
      destruct (truthy_str (Some host)) eqn:Th; cbn [negb]; [| discriminate].
      destruct (truthy_str (Some rest)) eqn:Tk; cbn [negb]; [| discriminate].
      apply truthy_str_some in Th, Tk.
      intros [= <-]. exists host, rest. cbn [target pub_key api_key].
      repeat (split; [assumption || reflexivity |]).
      left. now split.
  - intros (host & key & Hhost & Hkey & Hh & Hk & Ht & Hp & Harg).
    destruct c as [t p a]. cbn [target pub_key api_key] in *. subst t p.
    apply truthy_str_some in Hh, Hk.
    destruct Harg as [[-> ->] | (api & -> & ->)].
    + rewrite (proj2 (cut_at_comma_some _ host key) (conj Hhost eq_refl)).
      rewrite (proj2 (cut_at_comma_none key) Hkey).
      now rewrite Hh, Hk.
    + rewrite (proj2 (cut_at_comma_some _ host (key ++ "," ++ api))
                 (conj Hhost eq_refl)).
      rewrite (proj2 (cut_at_comma_some _ key api) (conj Hkey eq_refl)).
      now rewrite Hh, Hk.
Qed.

(** X23: what [from_argument] refuses, each with a message of its own: an
    argument without a comma; an argument that starts with a comma; and an
    argument whose key file, between the first comma and the second or the
    end, is empty. *)
Theorem from_argument_rejects (arg : string) :
  (no_comma arg = true ->
   from_argument arg
   = Raise (ArgumentTypeError
              ("incorrect format for transparency log server, expected "
                 ++ "host:port,publickey_file.")%string))
  /\ from_argument ("," ++ arg)
     = Raise (ArgumentTypeError
                ("incorrect format for transparency log "
                   ++ "server: host:port cannot be empty.")%string)
  /\ (no_comma arg = true -> arg <> ""%string ->
      from_argument (arg ++ ",")
      = Raise (ArgumentTypeError
                 ("incorrect format for transparency log "
                    ++ "server: publickey_file cannot be empty.")%string)
      /\ forall api,
           from_argument (arg ++ ",," ++ api)
           = Raise (ArgumentTypeError
                      ("incorrect format for transparency log "
                         ++ "server: publickey_file cannot be "
                         ++ "empty.")%string)).
Proof.
  unfold from_argument. cbn [split_comma]. split; [| split].
  - intros Hno. now rewrite (proj2 (cut_at_comma_none arg) Hno).
  - cbn [append cut_at_comma]. cbn.
    destruct (cut_at_comma arg) as [[key api] |]; reflexivity.
  - intros Hno Hne. apply truthy_str_some in Hne. split.
    + rewrite (proj2 (cut_at_comma_some (arg ++ ",") arg "")
                 (conj Hno eq_refl)).
      cbn [cut_at_comma]. now rewrite Hne.
    + intros api.
      rewrite (proj2 (cut_at_comma_some (arg ++ ",," ++ api) arg
                        ("," ++ api)) (conj Hno eq_refl)).
      change (cut_at_comma ("," ++ api)) with (Some (""%string, api)).
      now rewrite Hne.
Qed.

End LogArgument.

(** The theorem on three arguments. *)
Lemma from_argument_rejects_witness :
  Aftl.from_argument "log.example.com:9000"
  = Raise (ArgumentTypeError
             ("incorrect format for transparency log server, expected "
                ++ "host:port,publickey_file.")%string)
  /\ Aftl.from_argument ",log.pem"
     = Raise (ArgumentTypeError
                ("incorrect format for transparency log "
                   ++ "server: host:port cannot be empty.")%string)
  /\ Aftl.from_argument "log.example.com:9000,,key"
     = Raise (ArgumentTypeError
                ("incorrect format for transparency log "
                   ++ "server: publickey_file cannot be empty.")%string).
Proof.
  split; [| split].
  - exact (proj1 (from_argument_rejects "log.example.com:9000") eq_refl).
  - exact (proj1 (proj2 (from_argument_rejects "log.pem"))).
  - assert (Hne : "log.example.com:9000"%string <> ""%string)
      by discriminate.
    exact (proj2 (proj2 (proj2 (from_argument_rejects
                                  "log.example.com:9000")) eq_refl Hne)
             "key"%string).
Defined.

(** ** Writing an image and reading it back *)

Section ImageCodec.
Import Struct.
Context `{Ext : Externals}.

Lemma round_trips_bytes (entries : list AftlIcpEntry.t) :
  Forall round_trips entries ->
  exists encoded, Forall2 entry_bytes entries encoded.
Proof.
  induction 1 as [| e es He _ (bs & IH)]; [exists []; constructor |].
  destruct He as (H1 & H2 & H3 & H4 & H5 & H6 & H7 & H8 & H9 & H10 & H11
                  & (hash_size & H12) & H13).
  destruct (entry_encode_layout e hash_size H1 H2 H3 H4 H5 H6 H7 H8 H9 H10
              H11 H12 H13) as (b & Henc & Hlen & _ & Hparse).
  exists (b :: bs). constructor; [| exact IH].
  repeat split; assumption.
Qed.

Lemma encode_entries_concat (entries : list AftlIcpEntry.t)
      (encoded : list bytes) :
  Forall2 entry_bytes entries encoded ->
  forall acc,
    AftlImage.encode_entries entries acc = Ok (acc ++ List.concat encoded).
Proof.
  induction 1 as [| e b es bs (_ & He & _) _ IH]; intros acc;
    cbn [AftlImage.encode_entries List.concat].
  - now rewrite app_nil_r.
  - rewrite He. cbn [Py.bind]. rewrite IH, <- app_assoc. reflexivity.
Qed.

Lemma entry_bytes_valid (entries : list AftlIcpEntry.t)
      (encoded : list bytes) :
  Forall2 entry_bytes entries encoded ->
  forallb AftlIcpEntry.is_valid entries = true.
Proof.
  induction 1 as [| e b es bs (Hv & _) _ IH]; cbn [forallb];
    [reflexivity | now rewrite Hv].
Qed.

(** The loop of the parser over the bytes of the entries, one after the
    other. *)
Lemma parse_entries_concat (entries : list AftlIcpEntry.t)
      (encoded : list bytes) :
  Forall2 entry_bytes entries encoded ->
  forall i prefix rest self,
    AftlImage.parse_entries (List.length entries) i
      (prefix ++ List.concat encoded ++ rest) (len prefix) self
    = Ok (add_icp_entries self entries).
Proof.
  induction 1 as [| e b es bs (Hv & _ & Hlen & Hparse) _ IH];
    intros i prefix rest self;
    cbn [List.length AftlImage.parse_entries List.concat]; [reflexivity |].
  rewrite slice_from_prefix by reflexivity.
  rewrite <- app_assoc, Hparse. cbn [Py.bind]. rewrite Hv. cbn [negb].
  replace (len prefix + AftlIcpEntry.get_expected_size e)
    with (len (prefix ++ b))
    by (rewrite <- Hlen; unfold len; rewrite length_app; lia).
  replace (prefix ++ b ++ List.concat bs ++ rest)
    with ((prefix ++ b) ++ List.concat bs ++ rest)
    by (now rewrite <- app_assoc).
  rewrite IH. reflexivity.
Qed.

Lemma header_eta (h : AftlImageHeader.t) :
  h = AftlImageHeader.mk (AftlImageHeader.magic h)
        (AftlImageHeader.required_icp_version_major h)
        (AftlImageHeader.required_icp_version_minor h)
        (AftlImageHeader.aftl_image_size h) (AftlImageHeader.icp_count h).
Proof. now destruct h. Qed.

(** X24: an image that was built with [add_icp_entry] can be written and
    read back.  When every entry round-trips, the entries are at most
    65535, the size fits 32 bits and so do the versions of the tool, the
    image built from the empty image serialises, and the parser reads the
    same entries, in order, from the bytes; the header it returns counts
    them, and carries their sizes twice. *)
Theorem built_image_encode_then_parse
        (empty : AftlImage.t) (entries : list AftlIcpEntry.t) :
  AftlImage.init None = Ok empty ->
  Forall round_trips entries ->
  len entries <= 65535 ->
  18 + entries_size entries < 2 ^ 32 ->
  0 <= AVB_VERSION_MAJOR < 2 ^ 32 ->
  0 <= AVB_VERSION_MINOR < 2 ^ 32 ->
  exists data image,
    AftlImage.encode (add_icp_entries empty entries) = Ok data
    /\ AftlImage.init (Some data) = Ok image
    /\ AftlImage.icp_entries image = entries
    /\ AftlImageHeader.icp_count (AftlImage.image_header image)
       = len entries
    /\ AftlImageHeader.aftl_image_size (AftlImage.image_header image)
       = 18 + 2 * entries_size entries.
Proof.
  intros Hempty Hall Hcount Hsize Hmajor Hminor.
  rewrite empty_image_init in Hempty. injection Hempty as <-.
  destruct (round_trips_bytes entries Hall) as (encoded & Hbytes).
  pose proof (entry_bytes_valid _ _ Hbytes) as Hvalid.
  set (start := AftlImage.mk
                  (AftlImageHeader.mk AftlImageHeader.MAGIC AVB_VERSION_MAJOR
                     AVB_VERSION_MINOR AftlImageHeader.SIZE 0) []).
  destruct (add_icp_entries_invariant entries start) as (Hc & Hs & He).
  destruct (add_icp_entries_keeps_versions entries start)
    as (Hm & Hma & Hmi).
  cbv zeta in Hc, Hs.
  cbn [start AftlImage.image_header AftlImage.icp_entries
         AftlImageHeader.icp_count AftlImageHeader.aftl_image_size
         AftlImageHeader.magic AftlImageHeader.required_icp_version_major
         AftlImageHeader.required_icp_version_minor app] in Hc, Hs, He, Hm,
    Hma, Hmi.
  fold start in Hc, Hs, He, Hm, Hma, Hmi.
  set (built := add_icp_entries start entries) in *.
  set (h := AftlImage.image_header built) in *.
  unfold AftlImageHeader.SIZE in Hs.
  assert (Hlen0 : 0 <= len entries) by (unfold len; lia).
  assert (Hpos : 0 <= entries_size entries).
  { destruct entries as [| e es]; [cbn; lia |].
    pose proof (entries_size_positive (e :: es) Hvalid ltac:(discriminate)).
    lia. }
  assert (Hhv : AftlImageHeader.is_valid h = true).
  { apply header_is_valid_spec. rewrite Hm, Hma, Hmi, Hs, Hc.
    unfold AftlImageHeader.SIZE. repeat split; lia. }
  destruct (header_encode_layout h Hhv) as (hb & Hhenc & Hhlen & Hhinit);
    [rewrite Hma; lia | rewrite Hmi; lia | rewrite Hs; lia |].
  assert (Hbv : AftlImage.is_valid built = true).
  { unfold AftlImage.is_valid. fold h. rewrite Hhv. cbn [negb].
    rewrite He, Hc, Z.add_0_l, Z.eqb_refl. cbn [negb]. exact Hvalid. }
  exists (hb ++ List.concat encoded).
  set (parsed_start :=
         AftlImage.mk
           (AftlImageHeader.mk (AftlImageHeader.magic h)
              (AftlImageHeader.required_icp_version_major h)
              (AftlImageHeader.required_icp_version_minor h)
              (AftlImageHeader.aftl_image_size h) 0) []).
  exists (add_icp_entries parsed_start entries).
  destruct (add_icp_entries_invariant entries parsed_start)
    as (Hc' & Hs' & He').
  destruct (add_icp_entries_keeps_versions entries parsed_start)
    as (Hm' & Hma' & Hmi').
  cbv zeta in Hc', Hs'.
  cbn [parsed_start AftlImage.image_header AftlImage.icp_entries
         AftlImageHeader.icp_count AftlImageHeader.aftl_image_size
         AftlImageHeader.magic AftlImageHeader.required_icp_version_major
         AftlImageHeader.required_icp_version_minor app] in Hc', Hs', He',
    Hm', Hma', Hmi'.
  fold parsed_start in Hc', Hs', He', Hm', Hma', Hmi'.
  split; [| split; [| split; [exact He' | split; lia]]].
  - unfold AftlImage.encode. rewrite Hbv. cbn [negb]. fold h.
    rewrite Hhenc. cbn [Py.bind app]. rewrite He.
    apply (encode_entries_concat _ _ Hbytes).
  - unfold AftlImage.init.
    match goal with
    | |- context [truthy ?x] =>
        assert (Htruthy : truthy x = true)
          by (destruct hb; [discriminate Hhlen | reflexivity]);
        rewrite Htruthy
    end.
    rewrite (slice_prefix AftlImageHeader.SIZE hb _ Hhlen).
    pose proof Hhinit as Hhinit'. unfold bytes in Hhinit'.
    rewrite Hhinit'. cbn [Py.bind]. rewrite Hhv. cbn [negb].
    fold parsed_start.
    replace (Z.to_nat (AftlImageHeader.icp_count h))
      with (List.length entries) by (rewrite Hc; unfold len; lia).
    replace AftlImageHeader.SIZE with (len hb) by exact Hhlen.
    pose proof (parse_entries_concat _ _ Hbytes 0 hb [] parsed_start)
      as Hparse.
    rewrite app_nil_r in Hparse. rewrite Hparse. cbn [Py.bind].
    assert (Hfinal : AftlImage.is_valid
                       (add_icp_entries parsed_start entries) = true).
    { unfold AftlImage.is_valid.
      assert (Hh' : AftlImageHeader.is_valid
                      (AftlImage.image_header
                         (add_icp_entries parsed_start entries)) = true).
      { apply header_is_valid_spec.
        rewrite Hm', Hma', Hmi', Hs', Hc', Hm, Hma, Hmi, Hs.
        unfold AftlImageHeader.SIZE. repeat split; lia. }
      rewrite Hh'. cbn [negb].
      rewrite He', Hc', Z.add_0_l, Z.eqb_refl. cbn [negb]. exact Hvalid. }
    now rewrite Hfinal.
Qed.

End ImageCodec.

(** The image of the doubles is read back with its entry, and a size of
    18 + 2 * 102 bytes in its header. *)
Lemma built_image_encode_then_parse_witness :
  exists data image,
    AftlImage.encode double_image = Ok data
    /\ AftlImage.init (Some data) = Ok image
    /\ AftlImage.icp_entries image = [double_entry]
    /\ AftlImageHeader.aftl_image_size (AftlImage.image_header image) = 222.
Proof.
  assert (Hempty : AftlImage.init None
                   = Ok (AftlImage.mk
                           (AftlImageHeader.mk AftlImageHeader.MAGIC 1 2
                              AftlImageHeader.SIZE 0) []))
    by (vm_compute; reflexivity).
  assert (Hgood : Forall round_trips [double_entry]).
  { constructor; [| constructor].
    repeat split; try reflexivity. exists 32. constructor. }
  assert (Hcount : len [double_entry] <= 65535) by (vm_compute; discriminate).
  assert (Hsize : 18 + entries_size [double_entry] < 2 ^ 32)
    by (vm_compute; reflexivity).
  assert (Hmajor : 0 <= AVB_VERSION_MAJOR < 2 ^ 32) by (cbn; lia).
  assert (Hminor : 0 <= AVB_VERSION_MINOR < 2 ^ 32) by (cbn; lia).
  destruct (built_image_encode_then_parse _ [double_entry] Hempty Hgood
              Hcount Hsize Hmajor Hminor)
    as (data & image & Henc & Hinit & Hentries & _ & Hsz).
  exists data, image. split; [exact Henc |]. split; [exact Hinit |].
  split; [exact Hentries |]. rewrite Hsz. reflexivity.
Defined.
